(** * Backbeat: replication task engine and metadata mirror

    A shallow embedding of the parts of the repository that its
    specification talks about:

    - [Planner]: the range planner of [MultipleBackendTask]
      ([_getRangeSize], [_getGCPRangeSize], [_getRanges]);
    - [MultipleBackendTask]: the outcome handler
      ([_handleReplicationOutcome]), the callbacks that tag errors with an
      origin, the data path ([_getAndPutData]), the source state check
      ([_checkObjectState], [_checkMPUState]) and the MPU path
      ([_sendInitiateMPU], [_completeRangedMPU], [_completeMPU]);
    - [MongoQueueProcessor]: [processKafkaEntry] of the metadata mirror;
    - [RaftLogEntry]: the three constructors of log entries;
    - [TaskFlow]: the flow of a replication in [MultipleBackendTask]
      ([_getBucketReplicationConfigurationOnce], [_processReplicationEntry],
      [_putDeleteMarkerOnce], the tagging requests,
      [_getReplicationEndpointType]);
    - [MetricsConsumer]: [processKafkaEntry] of the metrics consumer and
      the requests it sends to the stats client;
    - [MirrorReplay], [MpuShape], [PlannerShape]: what the facts about
      replays on the mirror, about runs of the MPU and about the planner's
      ranges are stated with.

    JavaScript numbers are modelled as [Z]: every number the planner
    handles is an integer, and its arithmetic ([*= 2], [+], [-], a division
    by a power of two) is exact on the integers a double represents exactly.
    [while] loops are modelled with fuel; [None] stands for a loop that is
    still running when the fuel is spent.

    Asynchronous code is modelled by what it does between two waits: the
    requests it sends and the callback it calls. The MPU path, which keeps
    several requests in flight, is a machine that takes the answers in the
    order in which they arrive and records a trace. *)

From Stdlib Require Import ZArith List String Bool Lia.
From stdpp Require Import base option list strings gmap pretty.
Import ListNotations.

(** ** Range planner (MultipleBackendTask) *)

Module Planner.
Local Open Scope Z_scope.

Definition MiB : Z := 1024 * 1024.

Definition MPU_GCP_MAX_PARTS : Z := 1024.

(** The JavaScript test [a / b > k] for integers [a], [b], [k]: the
    division is the real one (no truncation), a division of a positive
    number by zero is [+Infinity], and [-Infinity] and [NaN] compare
    false. *)
Definition quot_gt (a b k : Z) : bool :=
  if 0 <? b then k * b <? a
  else if b <? 0 then a <? k * b
  else 0 <? a.

(** [Math.ceil(a / b)] for a positive divisor. *)
Definition ceil_div (a b : Z) : Z := (a + b - 1) / b.

(** [Math.ceil(Math.log(n) / Math.log(2))], taken at its mathematical
    value: the least [k] with [n <= 2 ^ k]. The rounding of [Math.log] is
    not modelled. *)
Definition ceil_log2 (n : Z) : Z := Z.log2_up n.

(** First loop of [_getRangeSize]:
    [while (contentLen / rangeSize > 1000) {
       if (rangeSize >= 512 MiB) break;
       rangeSize *= 2; }] *)
Fixpoint grow_to_1000 (fuel : nat) (contentLen rangeSize : Z) : option Z :=
  match fuel with
  | O => None
  | S fuel' =>
      if quot_gt contentLen rangeSize 1000 then
        if 512 * MiB <=? rangeSize then Some rangeSize
        else grow_to_1000 fuel' contentLen (rangeSize * 2)
      else Some rangeSize
  end.

(** Second loop of [_getRangeSize]:
    [while (contentLen / rangeSize > 10000) rangeSize *= 2;] *)
Fixpoint grow_to_10000 (fuel : nat) (contentLen rangeSize : Z) : option Z :=
  match fuel with
  | O => None
  | S fuel' =>
      if quot_gt contentLen rangeSize 10000 then
        grow_to_10000 fuel' contentLen (rangeSize * 2)
      else Some rangeSize
  end.

Definition _getRangeSize (fuel : nat) (contentLen : Z) : option Z :=
  let rangeSize := 16 * MiB in
  if contentLen <=? rangeSize then Some contentLen
  else
    rangeSize ← grow_to_1000 fuel contentLen rangeSize;
    grow_to_10000 fuel contentLen rangeSize.

Definition _getGCPRangeSize (fuel : nat) (contentLen : Z) : option Z :=
  rangeSize ← _getRangeSize fuel contentLen;
  if quot_gt contentLen rangeSize MPU_GCP_MAX_PARTS then
    let pow := 2 ^ ceil_log2 contentLen in
    Some (ceil_div pow MPU_GCP_MAX_PARTS)
  else Some rangeSize.

(** A byte range, both ends inclusive. *)
Record Range : Type := { start : Z; end_ : Z }.

Definition range_size (r : Range) : Z := end_ r - start r + 1.

(** The loop of [_getRanges]; the state is [(ranges, start, end)], and
    the loop returns the ranges pushed and the final [start]. *)
Fixpoint ranges_loop (fuel : nat) (contentLen size : Z)
    (ranges : list Range) (start end_ : Z) : option (list Range * Z) :=
  match fuel with
  | O => None
  | S fuel' =>
      if end_ <? contentLen - 1 then
        let end_ := start + size - 1 in
        if end_ <? contentLen - 1 then
          ranges_loop fuel' contentLen size
            (ranges ++ [{| start := start; end_ := end_ |}]) (end_ + 1) end_
        else ranges_loop fuel' contentLen size ranges start end_
      else Some (ranges, start)
  end.

(** [_getRanges]: a list of ranges, [None] standing for the [null] range
    of a 0-byte object. *)
Definition _getRanges (fuel : nat) (contentLen : Z) (isGCP : bool)
    : option (list (option Range)) :=
  if contentLen =? 0 then Some [None]
  else
    size ← (if isGCP then _getGCPRangeSize fuel contentLen
            else _getRangeSize fuel contentLen);
    '(ranges, start) ← ranges_loop fuel contentLen size [] 0 0;
    Some (Some <$> (ranges ++ [{| start := start; end_ := contentLen - 1 |}])).

(** The ranges [rs] are contiguous and non-empty, the first starts at
    [from] and the last ends at [upto - 1]. *)
Fixpoint tiles_from (from : Z) (rs : list Range) (upto : Z) : Prop :=
  match rs with
  | [] => from = upto
  | r :: rs' =>
      start r = from /\ start r <= end_ r /\ tiles_from (end_ r + 1) rs' upto
  end.






(** Fuel that is enough for every loop of the planner on an object of
    [L] bytes: the doubling loops run at most [log2 L] times, the loop of
    [_getRanges] at most 10001 times. *)
Definition planner_fuel (L : Z) : nat := Z.to_nat (10002 + Z.log2_up L).

End Planner.

(** ** JavaScript values and errors *)

Module Js.

(** The primitive values that occur as fields of the objects modelled. *)
Inductive Value : Type :=
  | VUndefined
  | VNull
  | VBool (b : bool)
  | VNumber (n : Z)
  | VString (s : string).

(** [if (v)]: the truthiness of a value. *)
Definition truthy (v : Value) : bool :=
  match v with
  | VUndefined | VNull => false
  | VBool b => b
  | VNumber n => negb (n =? 0)%Z
  | VString s => negb (String.eqb s "")
  end.

(** A plain object, as a finite map from property names to values. *)
Abbreviation Object := (gmap string Value).

(** [Object.assign({}, a, b)]: the properties of [b] override those of
    [a]. *)
Definition assign (a b : Object) : Object := b ∪ a.

(** [o.k === undefined]: the property is missing or holds [undefined]. *)
Definition is_undefined (o : Object) (k : string) : bool :=
  match o !! k with
  | None | Some VUndefined => true
  | Some _ => false
  end.

End Js.

Module Errors.

Inductive Origin : Type := source | target.

(** The error types of the arsenal library that the code names. An
    arsenal error of type [T] has the property [T] set to [true], [T] as its
    message, and the numeric HTTP code and the description that arsenal's
    table lists for [T]. *)
Inductive ArsenalType : Type :=
  | TBadRole | TNoSuchEntity | TAccessDenied | TObjNotFound
  | TInvalidObjectState | TInternalError | TPreconditionFailed.

(** [err.code]: a string for the errors of the service client, the number
    of arsenal's table for an arsenal error. *)
Inductive Code : Type :=
  | CodeUndefined
  | CodeString (s : string)
  | CodeOfArsenal (t : ArsenalType).

Inductive Description : Type :=
  | NoDescription
  | DescribedAs (s : string)
  | ArsenalDefault (t : ArsenalType).

(** An error object: the properties the code reads or writes. Errors are
    values here: [err.origin = o] gives the tagged error, and a tag left
    earlier on one of arsenal's shared [errors.T] objects is not tracked. *)
Record Err : Type := mkErr {
  code : Code;
  statusCode : option Z;
  retryable : bool;
  origin : option Origin;
  description : Description;
  BadRole : bool;
  NoSuchEntity : bool;
  AccessDenied : bool;
  ObjNotFound : bool;
  InvalidObjectState : bool;
  InternalError : bool;
  PreconditionFailed : bool
}.

(** [err.origin = o]. *)
Definition set_origin (o : Origin) (err : Err) : Err :=
  {| code := code err; statusCode := statusCode err;
     retryable := retryable err; origin := Some o;
     description := description err;
     BadRole := BadRole err; NoSuchEntity := NoSuchEntity err;
     AccessDenied := AccessDenied err; ObjNotFound := ObjNotFound err;
     InvalidObjectState := InvalidObjectState err;
     InternalError := InternalError err;
     PreconditionFailed := PreconditionFailed err |}.

Definition is_type (t t' : ArsenalType) : bool :=
  match t, t' with
  | TBadRole, TBadRole | TNoSuchEntity, TNoSuchEntity
  | TAccessDenied, TAccessDenied | TObjNotFound, TObjNotFound
  | TInvalidObjectState, TInvalidObjectState
  | TInternalError, TInternalError
  | TPreconditionFailed, TPreconditionFailed => true
  | _, _ => false
  end.

(** [new ArsenalError(type, code, description)]. *)
Definition arsenal (t : ArsenalType) (d : Description) : Err :=
  {| code := CodeOfArsenal t; statusCode := None; retryable := false;
     origin := None; description := d;
     BadRole := is_type t TBadRole; NoSuchEntity := is_type t TNoSuchEntity;
     AccessDenied := is_type t TAccessDenied;
     ObjNotFound := is_type t TObjNotFound;
     InvalidObjectState := is_type t TInvalidObjectState;
     InternalError := is_type t TInternalError;
     PreconditionFailed := is_type t TPreconditionFailed |}.

(** [errors.T]. *)
Definition errors (t : ArsenalType) : Err := arsenal t (ArsenalDefault t).

(** [errors.T.customizeDescription(s)]: a new error of the same type. *)
Definition customizeDescription (t : ArsenalType) (s : string) : Err :=
  arsenal t (DescribedAs s).

(** [err.code === s]. *)
Definition code_is (err : Err) (s : string) : bool :=
  match code err with
  | CodeString c => String.eqb c s
  | _ => false
  end.

(** The answer of an asynchronous request: the two arguments
    [(err, data)] of its callback. *)
Inductive Response (A : Type) : Type :=
  | Fail (err : Err)
  | Succeed (data : A).
Arguments Fail {A} err.
Arguments Succeed {A} data.

End Errors.

(** ** Queue entries *)

Module Entry.
Import Js.

(** An [ObjectQueueEntry], through the getters the code calls. The class
    itself is not part of the sources modelled; a getter that derives a value
    ([getObjectKey], [getEncodedVersionId], [getReducedLocations]) is a field
    holding its result. *)
Record ObjectQueueEntry : Type := {
  getBucket : string;
  getObjectKey : string;
  getObjectVersionedKey : string;
  getVersionId : Value;
  getEncodedVersionId : Value;
  getContentLength : Z;
  getContentMd5 : string;
  getIsDeleteMarker : bool;
  getLocation : list Object;
  getReducedLocations : list Object;
  getOwnerDisplayName : string;
  getOwnerId : string;
  getReplicationIsNFS : bool;
  getReplicationContent : list string;
  getReplicationStorageType : string;
  getDataStoreName : string
}.

Definition setLocation (l : list Object) (e : ObjectQueueEntry)
    : ObjectQueueEntry :=
  {| getBucket := getBucket e; getObjectKey := getObjectKey e;
     getObjectVersionedKey := getObjectVersionedKey e;
     getVersionId := getVersionId e;
     getEncodedVersionId := getEncodedVersionId e;
     getContentLength := getContentLength e;
     getContentMd5 := getContentMd5 e;
     getIsDeleteMarker := getIsDeleteMarker e;
     getLocation := l;
     getReducedLocations := getReducedLocations e;
     getOwnerDisplayName := getOwnerDisplayName e;
     getOwnerId := getOwnerId e;
     getReplicationIsNFS := getReplicationIsNFS e;
     getReplicationContent := getReplicationContent e;
     getReplicationStorageType := getReplicationStorageType e;
     getDataStoreName := getDataStoreName e |}.

Definition setOwnerDisplayName (n : string) (e : ObjectQueueEntry)
    : ObjectQueueEntry :=
  {| getBucket := getBucket e; getObjectKey := getObjectKey e;
     getObjectVersionedKey := getObjectVersionedKey e;
     getVersionId := getVersionId e;
     getEncodedVersionId := getEncodedVersionId e;
     getContentLength := getContentLength e;
     getContentMd5 := getContentMd5 e;
     getIsDeleteMarker := getIsDeleteMarker e;
     getLocation := getLocation e;
     getReducedLocations := getReducedLocations e;
     getOwnerDisplayName := n;
     getOwnerId := getOwnerId e;
     getReplicationIsNFS := getReplicationIsNFS e;
     getReplicationContent := getReplicationContent e;
     getReplicationStorageType := getReplicationStorageType e;
     getDataStoreName := getDataStoreName e |}.

Definition setOwnerId (i : string) (e : ObjectQueueEntry)
    : ObjectQueueEntry :=
  {| getBucket := getBucket e; getObjectKey := getObjectKey e;
     getObjectVersionedKey := getObjectVersionedKey e;
     getVersionId := getVersionId e;
     getEncodedVersionId := getEncodedVersionId e;
     getContentLength := getContentLength e;
     getContentMd5 := getContentMd5 e;
     getIsDeleteMarker := getIsDeleteMarker e;
     getLocation := getLocation e;
     getReducedLocations := getReducedLocations e;
     getOwnerDisplayName := getOwnerDisplayName e;
     getOwnerId := i;
     getReplicationIsNFS := getReplicationIsNFS e;
     getReplicationContent := getReplicationContent e;
     getReplicationStorageType := getReplicationStorageType e;
     getDataStoreName := getDataStoreName e |}.

(** A [DeleteOpQueueEntry]. *)
Record DeleteOpQueueEntry : Type := {
  del_getBucket : string;
  del_getObjectVersionedKey : string
}.

(** What [QueueEntry.createFromKafkaEntry] returns: an object carrying an
    [error], or an instance of one of the entry classes (the code tells them
    apart with [instanceof]). *)
Inductive QueueEntry : Type :=
  | EntryError
  | IsDeleteOp (e : DeleteOpQueueEntry)
  | IsObject (e : ObjectQueueEntry)
  | IsBucketMd
  | IsBucket
  | IsOther.

End Entry.

(** ** Replication task (MultipleBackendTask) *)

Module MultipleBackendTask.
Import Js Errors Entry Planner.

Definition MPU_CONC_LIMIT : nat := 10.

(** The task's configuration: the site, the [type] of the site's
    replication endpoint, and the retry budget of the retry runner. *)
Record Config : Type := {
  site : string;
  _getReplicationEndpointType : string;
  maxRetries : nat
}.

(** *** Outcome of a replication *)

Inductive SiteStatus : Type := COMPLETED | FAILED.

(** [_publishReplicationStatus(sourceEntry, status, { reason, ... })]. The
    method is inherited from [ReplicateObject], which is not part of the
    sources; the model records the call. *)
Record Publication : Type := {
  pub_entry : ObjectQueueEntry;
  pub_status : SiteStatus;
  pub_reason : option Description
}.

(** The second argument of [done]. *)
Record Completion : Type := { committable : bool }.

(** A call [done(err, completion)]; [done()] is [Done None None]. *)
Inductive DoneCall : Type :=
  | Done (err : option Err) (completion : option Completion).

Definition _handleReplicationOutcome (err : option Err)
    (sourceEntry : ObjectQueueEntry) : list Publication * DoneCall :=
  match err with
  | None =>
      ([{| pub_entry := sourceEntry; pub_status := COMPLETED;
           pub_reason := None |}],
       Done None (Some {| committable := false |}))
  | Some err =>
      if BadRole err ||
         (match origin err with Some source => true | _ => false end &&
          (NoSuchEntity err || code_is err "NoSuchEntity" ||
           AccessDenied err || code_is err "AccessDenied"))
      then ([], Done None None)
      else if ObjNotFound err || code_is err "ObjNotFound"
      then ([], Done None None)
      else if InvalidObjectState err || code_is err "InvalidObjectState"
      then ([], Done None None)
      else
        ([{| pub_entry := sourceEntry; pub_status := FAILED;
             pub_reason := Some (description err) |}],
         Done None (Some {| committable := false |}))
  end.

(** The error kinds of the specification, over the properties the code
    reads: an error is of arsenal type [T] by its property [T] or by its
    [code]. *)
Definition named (err : Err) (flag : Err -> bool) (name : string) : Prop :=
  flag err = true \/ code err = CodeString name.

Definition PermanentSource (err : Err) : Prop :=
  BadRole err = true \/
  (origin err = Some source /\
   (named err NoSuchEntity "NoSuchEntity" \/
    named err AccessDenied "AccessDenied")).

Definition SkippedState (err : Err) : Prop :=
  named err ObjNotFound "ObjNotFound" \/
  named err InvalidObjectState "InvalidObjectState".

(** [done()]: the entry is committable. [{ committable: false }]: the
    offset waits for the publication. *)
Definition done_committable : DoneCall := Done None None.

Definition done_not_committable : DoneCall :=
  Done None (Some {| committable := false |}).

(** *** Requests, answers and events *)

(** The data a successful [multipleBackendPutMPUPart] hands back. *)
Record PartData : Type := {
  partNumber : Value;
  ETag : Value;
  numberSubParts : Value
}.

(** An element of the body of complete-MPU. *)
Record PartRes : Type := {
  res_PartNumber : list Value;
  res_ETag : list Value;
  res_NumberSubParts : option (list Value)
}.

Inductive Request : Type :=
  | getMetadata (bucket objectKey : string) (encodedVersionId : Value)
  | getObject (range : option Range) (part : option Object)
  | multipleBackendInitiateMPU
  | multipleBackendPutMPUPart (PartNumber : nat) (UploadId : string)
      (ContentLength : Z)
  | multipleBackendCompleteMPU (UploadId : string) (Body : list PartRes)
  | multipleBackendAbortMPU (UploadId : string)
  | multipleBackendPutObject (part : option Object) (ContentLength : Value).

Inductive Metric : Type :=
  | metricsTypeQueued (bytes : Z)
  | metricsTypeCompleted (bytes : Value).

Inductive Exception : Type := TypeError.

(** The body of a metadata answer: [ObjectMD.createFromBlob] parses it
    or reports an error. *)
Inductive Blob : Type :=
  | Unparsable
  | Parsed (contentMd5 : string).

(** How one attempt to put a part ends: with an [error] event on the
    source request, an [error] event on its read stream, or the answer to
    [multipleBackendPutMPUPart]. *)
Inductive PartAttempt : Type :=
  | Source_request_error (err : Err)
  | Source_stream_error (err : Err)
  | Dest_answer (r : Response PartData).

(** What the environment delivers to the task: the callback of
    [_initiateMPU] (the answer to init-MPU or, for an Azure endpoint, the
    upload id made up locally), the end of an attempt on the part of
    iteratee [n], the answer to a metadata request (of the state check of
    iteratee [n], or of the check before the MPU), the answer to abort-MPU
    and the answer to complete-MPU. *)
Inductive Input : Type :=
  | Initiate_answer (r : Response string)
  | Part_answer (n : nat) (r : PartAttempt)
  | Metadata_answer (n : option nat) (r : Response Blob)
  | Abort_answer (n : nat) (r : Response unit)
  | Complete_answer (r : Response Value).

Inductive Event : Type :=
  | Sent (r : Request)
  | Received (i : Input)
  | Metrics (m : Metric)
  | SetDataStoreVersionId (v : Value)
  | Callback (err : option Err)
  | Thrown (x : Exception).

(** A synchronous call returns or throws. *)
Inductive Sync (A : Type) : Type :=
  | Returned (a : A)
  | Threw (x : Exception).
Arguments Returned {A} a.
Arguments Threw {A} x.

Definition sync_bind {A B : Type} (m : Sync A) (f : A -> Sync B) : Sync B :=
  match m with
  | Returned a => f a
  | Threw x => Threw x
  end.

Notation "'do' x <- m ; f" := (sync_bind m (fun x => f))
  (at level 10, x name, m at level 100, f at level 200).

(** *** Tagging of errors *)

(** The [error] handler of a source request, in [_putMPUPart] and in
    [_getAndPutPartOnce]: the error handed to [doneOnce]. *)
Definition on_sourceReq_error (err : Err) : Err := set_origin source err.

(** The [error] handler of the read stream of a source request. *)
Definition on_incomingMsg_error (err : Err) : Err :=
  match statusCode err with
  | Some 404%Z => errors TObjNotFound
  | _ => set_origin source err
  end.

(** The callback of [destReq.send] in [_putMPUPart]. *)
Definition _putMPUPart_send (size : Z) (r : Response PartData)
    : list Event * Response PartData :=
  match r with
  | Fail err => ([], Fail (set_origin source err))
  | Succeed data =>
      ([Metrics (metricsTypeCompleted (VNumber size))], Succeed data)
  end.

(** The callback of [destReq.send] in [_completeMPU]. *)
Definition _completeMPU_send (r : Response Value) : list Event * option Err :=
  match r with
  | Fail err => ([], Some (set_origin source err))
  | Succeed versionId => ([SetDataStoreVersionId versionId], None)
  end.

(** The callback of [destReq.send] in [_sendMultipleBackendPutObject]. *)
Definition _sendMultipleBackendPutObject_send (size : Value)
    (r : Response Value) : list Event * option Err :=
  match r with
  | Fail err => ([], Some (set_origin source err))
  | Succeed versionId =>
      ([SetDataStoreVersionId versionId;
        Metrics (metricsTypeCompleted size)], None)
  end.

(** The callback of [destReq.send] in [_initiateMPU]. *)
Definition _initiateMPU_send (r : Response string) : Response string :=
  match r with
  | Fail err => Fail (set_origin source err)
  | Succeed uploadId => Succeed uploadId
  end.

(** The callback of [destReq.send] in [_multipleBackendAbortMPUOnce]. *)
Definition _multipleBackendAbortMPUOnce_send (r : Response unit)
    : option Err :=
  match r with
  | Fail err => Some (set_origin source err)
  | Succeed _ => None
  end.

(** Modelled from the spec: the destination host picker ([destHosts]
    and [_setupDestClients], inherited) is not part of the sources; the
    hosts are tried round-robin and the client is bound to the host picked. *)
Record DestState : Type := {
  hosts : nat;
  picked : nat;
  client_host : nat
}.

(** Modelled from the spec: [destHosts.pickNextHost()], the next host
    in round-robin order. *)
Definition pickNextHost (d : DestState) : DestState :=
  {| hosts := hosts d; picked := (S (picked d)) mod (hosts d);
     client_host := client_host d |}.

(** Modelled from the spec: [_setupDestClients], which binds the
    destination client to the host picked. *)
Definition _setupDestClients (d : DestState) : DestState :=
  {| hosts := hosts d; picked := picked d; client_host := picked d |}.

(** [onRetryFunc] of [_getAndPutPart]. *)
Definition onRetryFunc (err : Err) (d : DestState) : DestState :=
  match origin err with
  | Some target => _setupDestClients (pickNextHost d)
  | _ => d
  end.

(** Modelled from the spec: the retry runner ([retry], inherited from
    the task's base class) is not part of the sources; it attempts again
    when [shouldRetryFunc] holds of the error, up to [maxRetries] times. The
    [shouldRetryFunc] of every wrapper in the task is [err => err.retryable]. *)
Definition retries (cfg : Config) (err : Err) (attempt : nat) : bool :=
  retryable err && (attempt <? maxRetries cfg)%nat.

(** *** The source metadata check *)

(** An argument of a call, where the code passes values of several
    kinds in one position; [A] is what a callback goes on to do. *)
Inductive Arg (A : Type) : Type :=
  | AEntry (e : ObjectQueueEntry)
  | AString (s : string)
  | AValue (v : Value)
  | ALogger
  | AFunction (k : Response string -> A).
Arguments AEntry {A} e.
Arguments AString {A} s.
Arguments AValue {A} v.
Arguments ALogger {A}.
Arguments AFunction {A} k.

(** [receiver.method()] for a method of [ObjectQueueEntry]: a value of
    another kind has no such method, and the call throws. *)
Definition call_method {A B : Type} (receiver : Arg A)
    (method : ObjectQueueEntry -> B) : Sync B :=
  match receiver with
  | AEntry e => Returned (method e)
  | _ => Threw TypeError
  end.

(** [_fetchSourceMD(sourceEntry, log, cb)]: it builds the parameters from
    [sourceEntry] and calls [backbeatSourceProxy.getMetadata]; the result is
    the request issued and the [cb] its callback will call. *)
Definition _fetchSourceMD {A : Type} (sourceEntry log cb : Arg A)
    : Sync (Request * Arg A) :=
  do bucket <- call_method sourceEntry getBucket;
  do objectKey <- call_method sourceEntry getObjectKey;
  do encodedVersionId <- call_method sourceEntry getEncodedVersionId;
  Returned (getMetadata bucket objectKey encodedVersionId, cb).

(** The callback [_fetchSourceMD] gives to [getMetadata], on the answer;
    the data handed on is the content MD5 of the metadata parsed. *)
Definition _fetchSourceMD_answer {A : Type} (cb : Arg A) (r : Response Blob)
    : Sync A :=
  let res :=
    match r with
    | Fail err => Fail err
    | Succeed Unparsable =>
        Fail (customizeDescription TInternalError
                "error parsing metadata blob")
    | Succeed (Parsed md5) => Succeed md5
    end in
  match cb with
  | AFunction k => Returned (k res)
  | _ => Threw TypeError
  end.

(** A call binds the arguments to the parameters by position: a missing
    argument is [undefined], arguments beyond the parameters are dropped. *)
Definition nth_arg {A : Type} (args : list (Arg A)) (i : nat) : Arg A :=
  nth i args (AValue VUndefined).

Definition call_fetchSourceMD {A : Type} (args : list (Arg A))
    : Sync (Request * Arg A) :=
  _fetchSourceMD (nth_arg args 0) (nth_arg args 1) (nth_arg args 2).

(** [_checkObjectState(sourceEntry, log, cb)]: it calls
    [this._fetchSourceMD(sourceEntry.getBucket(), sourceEntry.getObjectKey(),
    sourceEntry.getEncodedVersionId(), log, (err, objMD) => ...)]. *)
Definition _checkObjectState {A : Type} (sourceEntry : ObjectQueueEntry)
    (cb : option Err -> A) : Sync (Request * Arg A) :=
  call_fetchSourceMD
    [AString (getBucket sourceEntry);
     AString (getObjectKey sourceEntry);
     AValue (getEncodedVersionId sourceEntry);
     ALogger;
     AFunction (fun r =>
       match r with
       | Fail err =>
           if code_is err "ObjNotFound" &&
              negb (getIsDeleteMarker sourceEntry)
           then cb (Some (errors TInvalidObjectState))
           else cb (Some err)
       | Succeed md5 =>
           if negb (String.eqb md5 (getContentMd5 sourceEntry))
           then cb (Some (errors TInvalidObjectState))
           else cb None
       end)].

(** What the callback of [_checkMPUState] does: it calls [cb], at once or
    after [_multipleBackendAbortMPU]. *)
Inductive MpuAction (A : Type) : Type :=
  | Continue (a : A)
  | Abort_then (uploadId : string) (a : A).
Arguments Continue {A} a.
Arguments Abort_then {A} uploadId a.

Definition _checkMPUState {A : Type} (sourceEntry : ObjectQueueEntry)
    (uploadId : string) (cb : option Err -> A)
    : Sync (Request * Arg (MpuAction A)) :=
  _checkObjectState sourceEntry (fun err =>
    match err with
    | Some err =>
        if negb (InvalidObjectState err) then Continue (cb (Some err))
        else Abort_then uploadId (cb (Some (errors TInvalidObjectState)))
    | None => Continue (cb None)
    end).

(** *** Data replication without MPU *)

(** How a synchronous stretch of the task ends: with requests in flight,
    with the callback called, or with an exception. *)
Inductive SyncEnd : Type :=
  | Pending
  | Called (err : option Err)
  | Raised (x : Exception).

Inductive DataAction : Type :=
  | Data_doneOnce (err : option Err)
  | Data_sendPutObject (part : option Object) (size : Value).

(** [size !== 0]. *)
Definition not_zero (v : Value) : bool :=
  match v with
  | VNumber 0 => false
  | _ => true
  end.

(** [_getAndPutPartOnce], up to its first wait. [partObj.getPartSize()] is
    the [size] property of the part. *)
Definition _getAndPutPartOnce (sourceEntry : ObjectQueueEntry)
    (part : option Object) : list Event * SyncEnd :=
  let size :=
    match part with
    | Some p => default VUndefined (p !! "size")
    | None => VNumber (getContentLength sourceEntry)
    end in
  let sent :=
    if not_zero size then [Sent (getObject None part)] else [] in
  if getReplicationIsNFS sourceEntry then
    match _checkObjectState sourceEntry (fun err =>
            match err with
            | Some err => Data_doneOnce (Some err)
            | None => Data_sendPutObject part size
            end) with
    | Threw x => (sent ++ [Thrown x], Raised x)
    | Returned (req, _) => (sent ++ [Sent req], Pending)
    end
  else (sent ++ [Sent (multipleBackendPutObject part size)], Pending).

(** [async.mapLimit] starting its first iteratees, one after the other. *)
Fixpoint start_parts (sourceEntry : ObjectQueueEntry) (parts : list Object)
    : list Event * SyncEnd :=
  match parts with
  | [] => ([], Pending)
  | part :: parts' =>
      match _getAndPutPartOnce sourceEntry (Some part) with
      | (evs, Raised x) => (evs, Raised x)
      | (evs, _) =>
          let '(evs', e) := start_parts sourceEntry parts' in
          (evs ++ evs', e)
      end
  end.

(** [_getAndPutData], up to its first wait. *)
Definition _getAndPutData (sourceEntry : ObjectQueueEntry)
    : list Event * SyncEnd :=
  if existsb (fun part => is_undefined part "dataStoreETag")
       (getLocation sourceEntry)
  then
    let errMessage :=
      "cannot replicate object without dataStoreETag property" in
    ([], Called (Some (customizeDescription TInternalError errMessage)))
  else
    let locations := getReducedLocations sourceEntry in
    if (length locations =? 0)%nat then _getAndPutPartOnce sourceEntry None
    else
      let '(evs, e) :=
        start_parts sourceEntry (take MPU_CONC_LIMIT locations) in
      (Metrics (metricsTypeQueued (getContentLength sourceEntry)) :: evs, e).

(** *** Replication with MPU, as a machine driven by the answers *)

(** [next(err, res)], the callback of an iteratee of [async.timesLimit]. *)
Abbreviation NextCall := (option Err * option PartRes)%type.

(** What the callback of the state check before the MPU goes on to do. *)
Inductive PreAction : Type :=
  | Pre_doneOnce (err : option Err)
  | Pre_sendInitiateMPU.

(** Where the iteratee of part [n] stands. *)
Inductive PartStatus : Type :=
  | Putting (attempt : nat)
  | Checking (cb : Arg (MpuAction NextCall))
  | Aborting (attempt : nat) (then_ : NextCall)
  | Succeeded (res : option PartRes)
  | Failed (err : Err).

Inductive Phase : Type :=
  | PreChecking (cb : Arg PreAction)
  | AwaitInit
  | Uploading (uploadId : string)
  | Completing (uploadId : string)
  | Ended
  | Crashed.

(** The state of one run: [parts] holds the status of the iteratees
    started so far (part [n] at index [n]), [called_back] tells whether
    [async.timesLimit] has called its final callback, [trace] is what has
    happened, oldest first. *)
Record State : Type := {
  phase : Phase;
  ranges : list (option Range);
  parts : list PartStatus;
  called_back : bool;
  trace : list Event
}.

Definition emit (evs : list Event) (s : State) : State :=
  {| phase := phase s; ranges := ranges s; parts := parts s;
     called_back := called_back s; trace := trace s ++ evs |}.

Definition set_phase (p : Phase) (s : State) : State :=
  {| phase := p; ranges := ranges s; parts := parts s;
     called_back := called_back s; trace := trace s |}.

Definition set_part (n : nat) (st : PartStatus) (s : State) : State :=
  {| phase := phase s; ranges := ranges s; parts := <[n := st]> (parts s);
     called_back := called_back s; trace := trace s |}.

Definition set_called_back (s : State) : State :=
  {| phase := phase s; ranges := ranges s; parts := parts s;
     called_back := true; trace := trace s |}.

Definition crash (x : Exception) (s : State) : State :=
  set_phase Crashed (emit [Thrown x] s).

Definition isGCP (cfg : Config) : bool :=
  String.eqb (_getReplicationEndpointType cfg) "gcp".

Definition isAzure (cfg : Config) : bool :=
  String.eqb (_getReplicationEndpointType cfg) "azure".

(** [size] in [_getRangeAndPutMPUPartOnce]. *)
Definition size_of (range : option Range) : Z :=
  match range with
  | Some r => (end_ r - start r + 1)%Z
  | None => 0%Z
  end.

(** The requests of one attempt [_getRangeAndPutMPUPartOnce] for the
    iteratee [n], whose part number is [n + 1]. *)
Definition attempt_requests (range : option Range) (n : nat)
    (uploadId : string) : list Event :=
  (if (size_of range =? 0)%Z then [] else [Sent (getObject range None)]) ++
  [Sent (multipleBackendPutMPUPart (S n) uploadId (size_of range))].

Definition is_running (st : PartStatus) : bool :=
  match st with
  | Putting _ | Checking _ | Aborting _ _ => true
  | Succeeded _ | Failed _ => false
  end.

Definition running (s : State) : nat :=
  length (filter (fun st => is_running st = true) (parts s)).

(** [async.timesLimit] starts the next iteratee. *)
Definition launch (uploadId : string) (s : State) : State :=
  let n := length (parts s) in
  match ranges s !! n with
  | Some range =>
      {| phase := phase s; ranges := ranges s;
         parts := parts s ++ [Putting 0];
         called_back := called_back s;
         trace := trace s ++ attempt_requests range n uploadId |}
  | None => s
  end.

(** [async.timesLimit] starts iteratees while fewer than the limit are
    running and some are left. *)
Fixpoint replenish (fuel : nat) (uploadId : string) (s : State) : State :=
  match fuel with
  | O => s
  | S fuel' =>
      if (running s <? MPU_CONC_LIMIT)%nat &&
         (length (parts s) <? length (ranges s))%nat
      then replenish fuel' uploadId (launch uploadId s)
      else s
  end.

Definition results (s : State) : list (option PartRes) :=
  omap (fun st => match st with Succeeded res => Some res | _ => None end)
    (parts s).

(** When every iteratee has been started and none is running,
    [async.timesLimit] calls its final callback without an error, which
    calls [_completeMPU]. *)
Definition finish (uploadId : string) (s : State) : State :=
  if (length (parts s) =? length (ranges s))%nat && (running s =? 0)%nat
  then
    set_phase (Completing uploadId)
      (set_called_back
         (emit [Sent (multipleBackendCompleteMPU uploadId
                        (default {| res_PartNumber := []; res_ETag := [];
                                    res_NumberSubParts := None |}
                           <$> results s))] s))
  else s.

(** The iteratee [n] calls [next(err, res)]. With an error the final
    callback of [_completeRangedMPU] runs, unless it has run: it tags the
    error and calls [doneOnce]. *)
Definition next (n : nat) (call : NextCall) (uploadId : string) (s : State)
    : State :=
  match call with
  | (Some err, _) =>
      let s := set_part n (Failed err) s in
      if called_back s then s
      else set_called_back
             (emit [Callback (Some (set_origin source err))] s)
  | (None, res) =>
      let s := set_part n (Succeeded res) s in
      if called_back s then s
      else finish uploadId (replenish MPU_CONC_LIMIT uploadId s)
  end.

(** The state check of an NFS entry starts: it throws, or its request is
    in flight. *)
Definition start_check (n : nat)
    (r : Sync (Request * Arg (MpuAction NextCall))) (s : State) : State :=
  match r with
  | Threw x => crash x s
  | Returned (req, cb) => set_part n (Checking cb) (emit [Sent req] s)
  end.

(** [res] in the callback of a part: the element of the body of
    complete-MPU, with [NumberSubParts] for an Azure endpoint. *)
Definition part_res (cfg : Config) (data : PartData) : PartRes :=
  {| res_PartNumber := [partNumber data];
     res_ETag := [ETag data];
     res_NumberSubParts :=
       if isAzure cfg then Some [numberSubParts data] else None |}.

(** The callback [_completeRangedMPU] gives to [_getRangeAndPutMPUPart],
    called with the outcome of part [n] once the retry runner gives up or
    succeeds. *)
Definition deliver (cfg : Config) (sourceEntry : ObjectQueueEntry)
    (uploadId : string) (n : nat) (r : Response PartData) (s : State)
    : State :=
  match r with
  | Fail err =>
      if getReplicationIsNFS sourceEntry then
        let putPartErr := err in
        start_check n
          (_checkMPUState sourceEntry uploadId (fun err =>
             match err with
             | Some err => (Some err, None)
             | None => (Some putPartErr, None)
             end)) s
      else next n (Some err, None) uploadId s
  | Succeed data =>
      let res := part_res cfg data in
      if getReplicationIsNFS sourceEntry then
        start_check n
          (_checkMPUState sourceEntry uploadId (fun err => (err, Some res))) s
      else next n (None, Some res) uploadId s
  end.

(** How an attempt on a part ends, as [_putMPUPart] hands it to
    [doneOnce]; a part of size 0 has no source request. *)
Definition _putMPUPart (size : Z) (r : PartAttempt)
    : option (list Event * Response PartData) :=
  match r with
  | Source_request_error err =>
      if (size =? 0)%Z then None else Some ([], Fail (on_sourceReq_error err))
  | Source_stream_error err =>
      if (size =? 0)%Z then None
      else Some ([], Fail (on_incomingMsg_error err))
  | Dest_answer r => Some (_putMPUPart_send size r)
  end.

(** [_sendInitiateMPU]: [_initiateMPU] sends the request, or for an Azure
    endpoint makes up an upload id without a request. *)
Definition _sendInitiateMPU (cfg : Config) (s : State) : State :=
  set_phase AwaitInit
    (emit (if isAzure cfg then [] else [Sent multipleBackendInitiateMPU]) s).

Definition init : State :=
  {| phase := AwaitInit; ranges := []; parts := []; called_back := false;
     trace := [] |}.

(** [_getAndPutMultipartUploadOnce]. *)
Definition _getAndPutMultipartUploadOnce (cfg : Config)
    (sourceEntry : ObjectQueueEntry) : State :=
  if getReplicationIsNFS sourceEntry then
    match _checkObjectState sourceEntry (fun err =>
            match err with
            | Some err => Pre_doneOnce (Some err)
            | None => Pre_sendInitiateMPU
            end) with
    | Threw x => crash x init
    | Returned (req, cb) => set_phase (PreChecking cb) (emit [Sent req] init)
    end
  else _sendInitiateMPU cfg init.

(** One answer arrives. [None]: the answer is none the state waits for
    (or the planner ran out of fuel). *)
Definition step (cfg : Config) (sourceEntry : ObjectQueueEntry) (s : State)
    (i : Input) : option State :=
  match phase s, i with
  | PreChecking cb, Metadata_answer None r =>
      let s := emit [Received i] s in
      match _fetchSourceMD_answer cb r with
      | Threw x => Some (crash x s)
      | Returned (Pre_doneOnce err) =>
          Some (set_phase Ended (emit [Callback err] s))
      | Returned Pre_sendInitiateMPU => Some (_sendInitiateMPU cfg s)
      end
  | AwaitInit, Initiate_answer r =>
      let s := emit [Received i] s in
      match _initiateMPU_send r with
      | Fail err =>
          if isAzure cfg then None
          else Some (set_phase Ended (emit [Callback (Some err)] s))
      | Succeed uploadId =>
          let contentLength := getContentLength sourceEntry in
          rs ← _getRanges (planner_fuel contentLength) contentLength
                 (isGCP cfg);
          let s :=
            {| phase := Uploading uploadId; ranges := rs; parts := [];
               called_back := false;
               trace := trace s ++
                        [Metrics (metricsTypeQueued contentLength)] |} in
          Some (finish uploadId (replenish MPU_CONC_LIMIT uploadId s))
      end
  | Uploading uploadId, Part_answer n r =>
      match parts s !! n, ranges s !! n with
      | Some (Putting attempt), Some range =>
          '(evs, res) ← _putMPUPart (size_of range) r;
          let s := emit (Received i :: evs) s in
          match res with
          | Fail err =>
              if retries cfg err attempt
              then Some (set_part n (Putting (S attempt))
                           (emit (attempt_requests range n uploadId) s))
              else Some (deliver cfg sourceEntry uploadId n res s)
          | Succeed _ => Some (deliver cfg sourceEntry uploadId n res s)
          end
      | _, _ => None
      end
  | Uploading uploadId, Metadata_answer (Some n) r =>
      match parts s !! n with
      | Some (Checking cb) =>
          let s := emit [Received i] s in
          match _fetchSourceMD_answer cb r with
          | Threw x => Some (crash x s)
          | Returned (Continue call) => Some (next n call uploadId s)
          | Returned (Abort_then u call) =>
              Some (set_part n (Aborting 0 call)
                      (emit [Sent (multipleBackendAbortMPU u)] s))
          end
      | _ => None
      end
  | Uploading uploadId, Abort_answer n r =>
      match parts s !! n with
      | Some (Aborting attempt call) =>
          let s := emit [Received i] s in
          match _multipleBackendAbortMPUOnce_send r with
          | Some err =>
              if retries cfg err attempt
              then Some (set_part n (Aborting (S attempt) call)
                           (emit [Sent (multipleBackendAbortMPU uploadId)] s))
              else Some (next n call uploadId s)
          | None => Some (next n call uploadId s)
          end
      | _ => None
      end
  | Completing uploadId, Complete_answer r =>
      let '(evs, err) := _completeMPU_send r in
      Some (set_phase Ended (emit (Received i :: evs ++ [Callback err]) s))
  | _, _ => None
  end.

(** The answers arrive one after the other. *)
Fixpoint run (cfg : Config) (sourceEntry : ObjectQueueEntry) (s : State)
    (inputs : list Input) : option State :=
  match inputs with
  | [] => Some s
  | i :: inputs' =>
      s' ← step cfg sourceEntry s i;
      run cfg sourceEntry s' inputs'
  end.

#[global] Arguments replenish : simpl never.
#[global] Arguments finish : simpl never.
#[global] Arguments next : simpl never.
#[global] Arguments deliver : simpl never.

(** *** Properties of a trace *)

(** Each [multipleBackendPutMPUPart] follows the answer of init-MPU that
    brought its upload id. *)
Definition init_before_parts (t : list Event) : Prop :=
  forall pre n uploadId size post,
    t = pre ++ Sent (multipleBackendPutMPUPart n uploadId size) :: post ->
    In (Received (Initiate_answer (Succeed uploadId))) pre.

(** Each [multipleBackendCompleteMPU] follows, for every one of the
    [planned] parts, an answer that the part was put. *)
Definition parts_before_complete (planned : nat) (t : list Event) : Prop :=
  forall pre uploadId body post,
    t = pre ++ Sent (multipleBackendCompleteMPU uploadId body) :: post ->
    forall n, (n < planned)%nat ->
      exists data,
        In (Received (Part_answer n (Dest_answer (Succeed data)))) pre.

Definition no_abort (t : list Event) : Prop :=
  forall uploadId, ~ In (Sent (multipleBackendAbortMPU uploadId)) t.

Definition no_metadata_request (t : list Event) : Prop :=
  forall bucket objectKey encodedVersionId,
    ~ In (Sent (getMetadata bucket objectKey encodedVersionId)) t.

(** The third part of claim C3: when the task has called back and a part
    had failed with an error that is not retryable, abort-MPU was sent. *)
Definition abort_on_part_failure (t : list Event) : Prop :=
  forall n err cb,
    In (Received (Part_answer n (Dest_answer (Fail err)))) t ->
    retryable err = false ->
    In (Callback cb) t ->
    exists uploadId, In (Sent (multipleBackendAbortMPU uploadId)) t.

(** *** The steps that occur *)

(** The steps of [step] from a state without a state check in flight,
    case by case. *)
Inductive Step (cfg : Config) (sourceEntry : ObjectQueueEntry)
    : State -> Input -> State -> Prop :=
  | Step_init_failed s err :
      phase s = AwaitInit ->
      Step cfg sourceEntry s (Initiate_answer (Fail err))
        (set_phase Ended
           (emit [Callback (Some (set_origin source err))]
              (emit [Received (Initiate_answer (Fail err))] s)))
  | Step_init_succeeded s uploadId rs :
      phase s = AwaitInit ->
      _getRanges (planner_fuel (getContentLength sourceEntry))
        (getContentLength sourceEntry) (isGCP cfg) = Some rs ->
      Step cfg sourceEntry s (Initiate_answer (Succeed uploadId))
        (finish uploadId
           (replenish MPU_CONC_LIMIT uploadId
              {| phase := Uploading uploadId; ranges := rs; parts := [];
                 called_back := false;
                 trace :=
                   (trace s ++ [Received (Initiate_answer (Succeed uploadId))])
                   ++ [Metrics (metricsTypeQueued
                                  (getContentLength sourceEntry))] |}))
  | Step_part_retried s uploadId n attempt range r evs err :
      phase s = Uploading uploadId ->
      parts s !! n = Some (Putting attempt) ->
      ranges s !! n = Some range ->
      _putMPUPart (size_of range) r = Some (evs, Fail err) ->
      retries cfg err attempt = true ->
      Step cfg sourceEntry s (Part_answer n r)
        (set_part n (Putting (S attempt))
           (emit (attempt_requests range n uploadId)
              (emit (Received (Part_answer n r) :: evs) s)))
  | Step_part_crashed s uploadId n attempt range r evs res :
      phase s = Uploading uploadId ->
      parts s !! n = Some (Putting attempt) ->
      ranges s !! n = Some range ->
      _putMPUPart (size_of range) r = Some (evs, res) ->
      (forall err, res = Fail err -> retries cfg err attempt = false) ->
      getReplicationIsNFS sourceEntry = true ->
      Step cfg sourceEntry s (Part_answer n r)
        (crash TypeError (emit (Received (Part_answer n r) :: evs) s))
  | Step_part_failed s uploadId n attempt range r evs err :
      phase s = Uploading uploadId ->
      parts s !! n = Some (Putting attempt) ->
      ranges s !! n = Some range ->
      _putMPUPart (size_of range) r = Some (evs, Fail err) ->
      retries cfg err attempt = false ->
      getReplicationIsNFS sourceEntry = false ->
      Step cfg sourceEntry s (Part_answer n r)
        (next n (Some err, None) uploadId
           (emit (Received (Part_answer n r) :: evs) s))
  | Step_part_succeeded s uploadId n attempt range r evs data :
      phase s = Uploading uploadId ->
      parts s !! n = Some (Putting attempt) ->
      ranges s !! n = Some range ->
      _putMPUPart (size_of range) r = Some (evs, Succeed data) ->
      getReplicationIsNFS sourceEntry = false ->
      Step cfg sourceEntry s (Part_answer n r)
        (next n (None, Some (part_res cfg data)) uploadId
           (emit (Received (Part_answer n r) :: evs) s))
  | Step_completed s uploadId r :
      phase s = Completing uploadId ->
      Step cfg sourceEntry s (Complete_answer r)
        (set_phase Ended
           (emit (Received (Complete_answer r)
                    :: fst (_completeMPU_send r)
                    ++ [Callback (snd (_completeMPU_send r))]) s)).

(** The requests [async.timesLimit] sends when it starts iteratees. *)
Definition part_request (uploadId : string) (ev : Event) : Prop :=
  (exists range, ev = Sent (getObject range None)) \/
  (exists n size, ev = Sent (multipleBackendPutMPUPart n uploadId size)).

(** An event that is no request. *)
Definition quiet (ev : Event) : Prop :=
  match ev with
  | Sent _ => False
  | _ => True
  end.

(** No state check is in flight. *)
Definition plain (st : PartStatus) : Prop :=
  match st with
  | Checking _ | Aborting _ _ => False
  | Putting _ | Succeeded _ | Failed _ => True
  end.

Definition no_check (s : State) : Prop :=
  (forall cb, phase s <> PreChecking cb) /\ Forall plain (parts s).

(** What holds of every state a run reaches. *)
Record Inv (cfg : Config) (sourceEntry : ObjectQueueEntry) (s : State)
    : Prop := {
  inv_no_check : no_check s;
  inv_init_before_parts : init_before_parts (trace s);
  inv_init_known :
    forall uploadId,
      phase s = Uploading uploadId \/ phase s = Completing uploadId ->
      In (Received (Initiate_answer (Succeed uploadId))) (trace s);
  inv_no_abort : no_abort (trace s);
  inv_no_metadata : no_metadata_request (trace s);
  inv_succeeded :
    forall n res,
      parts s !! n = Some (Succeeded res) ->
      exists data,
        In (Received (Part_answer n (Dest_answer (Succeed data)))) (trace s);
  inv_failed :
    called_back s = false ->
    forall n err, parts s !! n <> Some (Failed err);
  inv_parts_before_complete :
    parts_before_complete (length (ranges s)) (trace s);
  inv_await :
    phase s = AwaitInit ->
    forall uploadId body,
      ~ In (Sent (multipleBackendCompleteMPU uploadId body)) (trace s);
  inv_planned :
    ((forall uploadId body,
        ~ In (Sent (multipleBackendCompleteMPU uploadId body)) (trace s)) /\
     (forall uploadId, phase s <> Uploading uploadId)) \/
    _getRanges (planner_fuel (getContentLength sourceEntry))
      (getContentLength sourceEntry) (isGCP cfg) = Some (ranges s)
}.

End MultipleBackendTask.

(** ** Metadata mirror (MongoQueueProcessor) *)

Module MongoQueueProcessor.
Import Js Errors Entry.

(** A call on the document-database client; [params] is the argument the
    code passes for the version parameters. *)
Inductive MongoCall : Type :=
  | putObject (bucket key : string) (objVal : ObjectQueueEntry)
      (params : Value)
  | deleteObject (bucket key : string) (params : Value).

(** How [processKafkaEntry] calls [done]: [Some err] for [done(err)],
    [None] for [done()]. *)
Abbreviation Done := (option Err).

(** The function [_manipulateLocation] maps over the locations. *)
Definition editLocation (entry : ObjectQueueEntry) (location : Object)
    : Object :=
  let newValues : Object :=
    <["key" := VString (getObjectKey entry)]>
      (<["dataStoreName" := VString "philz-ring"]>
         (<["dataStoreType" := VString "aws_s3"]> ∅)) in
  let newValues : Object :=
    if truthy (getVersionId entry)
    then <["dataStoreVersionId" := getEncodedVersionId entry]> newValues
    else newValues in
  assign location newValues.

Definition _manipulateLocation (entry : ObjectQueueEntry)
    : ObjectQueueEntry :=
  let locations := getLocation entry in
  let editLocations := map (editLocation entry) locations in
  setLocation editLocations entry.

Definition _manipulateOwner (entry : ObjectQueueEntry) : ObjectQueueEntry :=
  setOwnerId
    "117d39428f838cb5ac64ffd998f27e44167047a46e6504057b50ed484ae6c5de"
    (setOwnerDisplayName "felipe" entry).

(** [processKafkaEntry]: the calls issued on the database client and the
    call of [done]. [answer] is the error the client hands to its callback
    ([None] on success); it is read only when a call was issued. *)
Definition processKafkaEntry (sourceEntry : QueueEntry)
    (answer : option Err) : list MongoCall * Done :=
  match sourceEntry with
  | EntryError => ([], Some (errors TInternalError))
  | IsDeleteOp sourceEntry =>
      let bucket := del_getBucket sourceEntry in
      let key := del_getObjectVersionedKey sourceEntry in
      ([deleteObject bucket key VUndefined], answer)
  | IsObject sourceEntry =>
      let bucket := getBucket sourceEntry in
      let key := getObjectVersionedKey sourceEntry in
      let sourceEntry := _manipulateLocation sourceEntry in
      let sourceEntry := _manipulateOwner sourceEntry in
      let objVal := sourceEntry in
      ([putObject bucket key objVal VUndefined], answer)
  | IsBucketMd | IsBucket | IsOther => ([], None)
  end.

(** The document database: metadata values under (bucket, key). *)
Abbreviation Database := (gmap (string * string) ObjectQueueEntry).

(** Modelled from the spec: the database client (arsenal's
    [MongoClientInterface]) is not part of the sources; with the version
    parameters undefined its [putObject] and [deleteObject] are
    [putObjectNoVer] and [deleteObjectNoVer], which put or delete the value
    under the key without further action. *)
Definition mongo_apply (c : MongoCall) (db : Database) : Database :=
  match c with
  | putObject bucket key objVal _ => <[(bucket, key) := objVal]> db
  | deleteObject bucket key _ => delete (bucket, key) db
  end.

(** The database after the calls [cs], in order. *)
Definition mongo_run (cs : list MongoCall) (db : Database) : Database :=
  fold_left (fun db c => mongo_apply c db) cs db.

End MongoQueueProcessor.

(** ** RaftLogEntry *)

Module RaftLogEntry.
Import Js.

Section Constructors.

(** [usersBucket] of arsenal's constants, the type of an object's metadata
    ([objectMd.res]) with [JSON.stringify] on it, and the type of a bucket's
    info with its [serialize] method: none of them is part of the
    sources. *)
Variable usersBucket : string.
Variable Metadata : Type.
Variable JSON_stringify : Metadata -> string.
Variable BucketInfo : Type.
Variable serialize : BucketInfo -> string.
Variable _name : BucketInfo -> string.

Record ObjectMd : Type := {
  bucketName : string;
  objectKey : string;
  res : Metadata
}.

(** The entry the three methods build; [value] is [None] for [null]. *)
Record LogEntry : Type := {
  type : string;
  bucket : string;
  key : string;
  value : option string
}.

(** A template literal [`${a}-${b}`] of two strings is their
    concatenation around ["-"]. *)
Definition createPutEntry (objectMd : ObjectMd) (bucketPrefix : string)
    : LogEntry :=
  {| type := "put";
     bucket := bucketPrefix +:+ "-" +:+ bucketName objectMd;
     key := objectKey objectMd;
     value := Some (JSON_stringify (res objectMd)) |}.

(** [bucket] is interpolated into the key: it is the bucket's name. *)
Definition createPutBucketEntry (bucket : string) (bucketPrefix : string)
    : LogEntry :=
  {| type := "put";
     bucket := usersBucket;
     key := bucketPrefix +:+ "-" +:+ bucket;
     value := None |}.

Definition createPutBucketMdEntry (bucket : BucketInfo)
    (bucketPrefix : string) : LogEntry :=
  {| type := "put";
     bucket := bucketPrefix +:+ "-" +:+ _name bucket;
     key := bucketPrefix +:+ "-" +:+ _name bucket;
     value := Some (serialize bucket) |}.

End Constructors.

End RaftLogEntry.

(** ** Sample data *)

Module Samples.
Import Js Errors Entry MultipleBackendTask.

(** An error of the service client: retryable, with no arsenal type. *)
Definition service_unavailable : Err :=
  {| code := CodeString "ServiceUnavailable"; statusCode := Some 503%Z;
     retryable := true; origin := None; description := NoDescription;
     BadRole := false; NoSuchEntity := false; AccessDenied := false;
     ObjNotFound := false; InvalidObjectState := false;
     InternalError := false; PreconditionFailed := false |}.

(** An error of the service client that is not retryable. *)
Definition bad_request : Err :=
  {| code := CodeString "BadRequest"; statusCode := Some 400%Z;
     retryable := false; origin := None;
     description := DescribedAs "bad request";
     BadRole := false; NoSuchEntity := false; AccessDenied := false;
     ObjNotFound := false; InvalidObjectState := false;
     InternalError := false; PreconditionFailed := false |}.

(** The error of a read stream whose object is gone. *)
Definition not_found_on_stream : Err :=
  {| code := CodeString "NotFound"; statusCode := Some 404%Z;
     retryable := false; origin := None; description := NoDescription;
     BadRole := false; NoSuchEntity := false; AccessDenied := false;
     ObjNotFound := false; InvalidObjectState := false;
     InternalError := false; PreconditionFailed := false |}.

Definition access_denied_at_source : Err :=
  {| code := CodeString "AccessDenied"; statusCode := Some 403%Z;
     retryable := false; origin := Some source;
     description := NoDescription;
     BadRole := false; NoSuchEntity := false; AccessDenied := false;
     ObjNotFound := false; InvalidObjectState := false;
     InternalError := false; PreconditionFailed := false |}.

(** A part location with and without [dataStoreETag]. *)
Definition part_with_etag : Object :=
  <["key" := VString "d4f1"]>
    (<["size" := VNumber 1024]>
       (<["dataStoreName" := VString "us-east-1"]>
          (<["dataStoreETag" := VString "1:e"]> ∅))).

Definition part_without_etag : Object :=
  <["key" := VString "d4f1"]> (<["size" := VNumber 1024]> ∅).

(** An object of [contentLength] bytes in bucket [b] under key [k], with
    the given part locations. *)
Definition object_entry (contentLength : Z) (isNFS : bool)
    (versionId : Value) (location : list Object) : ObjectQueueEntry :=
  {| getBucket := "b"; getObjectKey := "k";
     getObjectVersionedKey := "k"; getVersionId := versionId;
     getEncodedVersionId := versionId;
     getContentLength := contentLength; getContentMd5 := "9a0364b9";
     getIsDeleteMarker := false; getLocation := location;
     getReducedLocations := location;
     getOwnerDisplayName := "owner"; getOwnerId := "79a59df9";
     getReplicationIsNFS := isNFS; getReplicationContent := ["DATA"];
     getReplicationStorageType := "aws_s3";
     getDataStoreName := "us-east-1" |}.

Definition aws_site : Config :=
  {| site := "aws-site"; _getReplicationEndpointType := "aws_s3";
     maxRetries := 2 |}.

Definition part_data : PartData :=
  {| partNumber := VNumber 1; ETag := VString "e";
     numberSubParts := VUndefined |}.

Definition two_hosts : DestState :=
  {| hosts := 2; picked := 0; client_host := 0 |}.

(** The answers of a run in which the only part fails for good. *)
Definition part_fails : list Input :=
  [Initiate_answer (Succeed "upload-1");
   Part_answer 0 (Dest_answer (Fail bad_request))].

(** The answers of a run up to the answer that the only part is put. *)
Definition part_is_put : list Input :=
  [Initiate_answer (Succeed "upload-1");
   Part_answer 0 (Dest_answer (Succeed part_data))].

(** The answers of a run in which the only part is put, and the upload
    completed. *)
Definition part_succeeds : list Input :=
  [Initiate_answer (Succeed "upload-1");
   Part_answer 0 (Dest_answer (Succeed part_data));
   Complete_answer (Succeed (VString "v2"))].

End Samples.

(** ** The flow of a replication (MultipleBackendTask) *)

Module TaskFlow.
Import Js Errors Entry MultipleBackendTask.

(** An element of [destConfig.bootstrapList]. *)
Record Endpoint : Type := { ep_site : string; ep_type : string }.

(** [_getReplicationEndpointType]: the [type] of what
    [bootstrapList.find] returns; reading [type] of [undefined] throws. *)
Definition endpointType (bootstrapList : list Endpoint) (site : string)
    : Sync string :=
  match List.find (fun endpoint => String.eqb (ep_site endpoint) site)
          bootstrapList with
  | Some replicationEndpoint => Returned (ep_type replicationEndpoint)
  | None => Threw TypeError
  end.

(** A rule of a bucket's replication configuration. *)
Record Rule : Type := { Status : string; Prefix : string }.

(** The callback of [req.send] in
    [_getBucketReplicationConfigurationOnce]: the error handed to [cb], if
    any. [startsWith] is [String.prefix]. *)
Definition _getBucketReplicationConfigurationOnce
    (entry : ObjectQueueEntry) (answer : Response (list Rule))
    : option Err :=
  match answer with
  | Fail err => Some (set_origin source err)
  | Succeed rules =>
      let replicationEnabled :=
        existsb (fun rule =>
                   String.eqb (Status rule) "Enabled" &&
                   String.prefix (Prefix rule) (getObjectKey entry)) rules in
      if negb replicationEnabled then
        let errMessage := "replication disabled for object" in
        Some (customizeDescription TPreconditionFailed errMessage)
      else None
  end.

(** The body of the answer to the metadata request of
    [_processReplicationEntry]: it does not parse, or it parses to metadata
    whose [getReplicationSiteStatus(site)] is [siteStatus]. *)
Inductive MdBlob : Type :=
  | BadBlob
  | GoodBlob (siteStatus : Value).

(** The second step of the waterfall of [_processReplicationEntry]:
    [_fetchSourceMD] with the callback given there. *)
Definition fetch_step (sourceEntry : ObjectQueueEntry)
    (answer : Response MdBlob) : Response Value :=
  let fetched :=
    match answer with
    | Fail err => Fail err
    | Succeed BadBlob =>
        Fail (customizeDescription TInternalError
                "error parsing metadata blob")
    | Succeed (GoodBlob siteStatus) => Succeed siteStatus
    end in
  match fetched with
  | Fail err =>
      if code_is err "ObjNotFound" &&
         getReplicationIsNFS sourceEntry &&
         negb (getIsDeleteMarker sourceEntry)
      then Fail (errors TInvalidObjectState)
      else Fail err
  | Succeed res => Succeed res
  end.

(** The operation the third step of the waterfall starts. *)
Inductive Operation : Type :=
  | op_putDeleteMarker
  | op_getAndPutMultipartUpload
  | op_putObjectTagging
  | op_deleteObjectTagging
  | op_getAndPutData.

(** [content.includes(s)]. *)
Definition includes (content : list string) (s : string) : bool :=
  existsb (String.eqb s) content.

(** [status === 'COMPLETED']. *)
Definition is_COMPLETED (status : Value) : bool :=
  match status with
  | VString s => String.eqb s "COMPLETED"
  | _ => false
  end.

(** The third step of the waterfall: an error for [next], or the
    operation started. *)
Definition dispatch (cfg : Config) (sourceEntry : ObjectQueueEntry)
    (status : Value) : Err + Operation :=
  let content := getReplicationContent sourceEntry in
  if getIsDeleteMarker sourceEntry then inr op_putDeleteMarker
  else if is_COMPLETED status && includes content "DATA" then
    let errMessage :=
      "skipping replication: " +:+
      "replication status is already COMPLETED " +:+
      ("on the location " +:+ site cfg) in
    inl (customizeDescription TInvalidObjectState errMessage)
  else if includes content "MPU" then inr op_getAndPutMultipartUpload
  else if includes content "PUT_TAGGING" then inr op_putObjectTagging
  else if includes content "DELETE_TAGGING" then inr op_deleteObjectTagging
  else inr op_getAndPutData.

(** [_processReplicationEntry]: [policy] is what the check of the
    replication configuration ends with, [md] the answer to the metadata
    request, [outcome op] what the operation [op] calls back with (an
    operation that throws instead, as the state check of an entry on NFS
    does, never reaches [_handleReplicationOutcome]). The result is the
    operation started, if any, and what [_handleReplicationOutcome]
    does. *)
Definition _processReplicationEntry (cfg : Config)
    (sourceEntry : ObjectQueueEntry) (policy : option Err)
    (md : Response MdBlob) (outcome : Operation -> option Err)
    : option Operation * (list Publication * DoneCall) :=
  match policy with
  | Some err => (None, _handleReplicationOutcome (Some err) sourceEntry)
  | None =>
      match fetch_step sourceEntry md with
      | Fail err => (None, _handleReplicationOutcome (Some err) sourceEntry)
      | Succeed status =>
          match dispatch cfg sourceEntry status with
          | inl err =>
              (None, _handleReplicationOutcome (Some err) sourceEntry)
          | inr op =>
              (Some op, _handleReplicationOutcome (outcome op) sourceEntry)
          end
      end
  end.

(** The callback of [destReq.send] in [_putObjectTaggingOnce] and in
    [_deleteObjectTaggingOnce]: the error is handed on as it is. *)
Definition tagging_send (r : Response Value) : list Event * option Err :=
  match r with
  | Fail err => ([], Some err)
  | Succeed versionId => ([SetDataStoreVersionId versionId], None)
  end.

(** The callback of [destReq.send] in [_sendMultipleBackendDeleteObject]. *)
Definition _sendMultipleBackendDeleteObject_send (r : Response unit)
    : option Err :=
  match r with
  | Fail err => Some (set_origin source err)
  | Succeed _ => None
  end.

(** What the callback of the state check of [_putDeleteMarkerOnce] goes
    on to do. *)
Inductive DeleteAction : Type :=
  | Delete_doneOnce (err : Err)
  | Delete_send.

(** How [_putDeleteMarkerOnce] starts: with
    [multipleBackendDeleteObject] sent, with the metadata request of the
    state check sent, or with an exception. *)
Inductive DeleteStart : Type :=
  | Delete_sent
  | Delete_checking (req : Request) (cb : Arg DeleteAction)
  | Delete_threw (x : Exception).

Definition _putDeleteMarkerOnce (sourceEntry : ObjectQueueEntry)
    : DeleteStart :=
  if getReplicationIsNFS sourceEntry then
    match _checkObjectState sourceEntry (fun err =>
            match err with
            | Some err =>
                if negb (code_is err "ObjNotFound") then Delete_doneOnce err
                else Delete_send
            | None => Delete_send
            end) with
    | Threw x => Delete_threw x
    | Returned (req, cb) => Delete_checking req cb
    end
  else Delete_sent.

(** The [multipleBackendPutObject] requests among some events. *)
Definition is_putObject (ev : Event) : bool :=
  match ev with
  | Sent (multipleBackendPutObject _ _) => true
  | _ => false
  end.

Definition putObjects (evs : list Event) : nat :=
  length (List.filter is_putObject evs).

End TaskFlow.

(** ** The shape of a run with MPU *)

Module MpuShape.
Import Planner Js Errors Entry MultipleBackendTask.

Definition is_callback (ev : Event) : bool :=
  match ev with
  | Callback _ => true
  | _ => false
  end.

(** How often the task has called [doneOnce]. *)
Definition callbacks (t : list Event) : nat :=
  length (List.filter is_callback t).

(** An event that is neither a call of [doneOnce] nor init-MPU nor
    complete-MPU. *)
Definition silent (ev : Event) : Prop :=
  match ev with
  | Callback _ | Sent multipleBackendInitiateMPU
  | Sent (multipleBackendCompleteMPU _ _) => False
  | _ => True
  end.

Definition is_init (ev : Event) : bool :=
  match ev with
  | Sent multipleBackendInitiateMPU => true
  | _ => false
  end.

Definition is_complete (ev : Event) : bool :=
  match ev with
  | Sent (multipleBackendCompleteMPU _ _) => true
  | _ => false
  end.

(** How often init-MPU and complete-MPU have been sent. *)
Definition inits (t : list Event) : nat := length (List.filter is_init t).

Definition completes (t : list Event) : nat :=
  length (List.filter is_complete t).

(** The calls of [doneOnce] so far, phase by phase. *)
Definition called_as_phase (s : State) : Prop :=
  match phase s with
  | PreChecking _ | AwaitInit | Completing _ => callbacks (trace s) = 0%nat
  | Uploading _ =>
      callbacks (trace s) = if called_back s then 1%nat else 0%nat
  | Ended => callbacks (trace s) = 1%nat
  | Crashed => (callbacks (trace s) <= 1)%nat
  end.

(** [b] is the element of the body built from an answer to the put of
    the part of iteratee [n]. *)
Definition put_as (cfg : Config) (t : list Event) (n : nat) (b : PartRes)
    : Prop :=
  exists data,
    b = part_res cfg data /\
    In (Received (Part_answer n (Dest_answer (Succeed data)))) t.

(** While the upload runs and no part has failed, the limit is reached
    or every part has been started. *)
Definition saturated (s : State) : Prop :=
  forall uploadId,
    phase s = Uploading uploadId -> called_back s = false ->
    (running s < MPU_CONC_LIMIT)%nat ->
    length (parts s) = length (ranges s).

(** The bytes of the parts put, as the metrics of type completed tell
    them. *)
Definition completed_of (ev : Event) : Z :=
  match ev with
  | Metrics (metricsTypeCompleted (VNumber bytes)) => bytes
  | _ => 0%Z
  end.

Definition completed_bytes (t : list Event) : Z :=
  fold_right (fun ev acc => (completed_of ev + acc)%Z) 0%Z t.

Definition is_put (st : PartStatus) : bool :=
  match st with
  | Succeeded _ => true
  | _ => false
  end.

(** The sizes of the ranges whose part is put. *)
Fixpoint put_bytes (rs : list (option Range)) (ps : list PartStatus) : Z :=
  match rs, ps with
  | r :: rs', Succeeded _ :: ps' => (size_of r + put_bytes rs' ps')%Z
  | _ :: rs', _ :: ps' => put_bytes rs' ps'
  | _, _ => 0%Z
  end.

(** An event that, if it is a put of a part, is the put of the part of
    iteratee [n] with the size of [range]. *)
Definition part_put (n : nat) (range : option Range) (ev : Event) : Prop :=
  match ev with
  | Sent (multipleBackendPutMPUPart pn _ size) =>
      pn = S n /\ size = size_of range
  | _ => True
  end.

Record Shape (cfg : Config) (s : State) : Prop := {
  shape_limit : (running s <= MPU_CONC_LIMIT)%nat;
  shape_started : (length (parts s) <= length (ranges s))%nat;
  shape_called : called_as_phase s;
  shape_succeeded :
    forall n res,
      parts s !! n = Some (Succeeded res) ->
      exists b, res = Some b /\ put_as cfg (trace s) n b;
  shape_body :
    forall uploadId body,
      In (Sent (multipleBackendCompleteMPU uploadId body)) (trace s) ->
      (phase s = Completing uploadId \/ phase s = Ended) /\
      length body = length (ranges s) /\
      forall n b,
        body !! n = Some b -> parts s !! n = Some (Succeeded (Some b));
  shape_bytes :
    phase s <> Crashed ->
    completed_bytes (trace s) = put_bytes (ranges s) (parts s);
  shape_await : phase s = AwaitInit -> parts s = [];
  shape_inits : inits (trace s) = if isAzure cfg then 0%nat else 1%nat;
  shape_completes : (completes (trace s) <= 1)%nat;
  shape_requests :
    forall pn u size,
      In (Sent (multipleBackendPutMPUPart pn u size)) (trace s) ->
      exists n range,
        pn = S n /\ (n < length (parts s))%nat /\
        ranges s !! n = Some range /\ size = size_of range;
  shape_unplanned : phase s = AwaitInit -> ranges s = []
}.

(** The ranges of the state are none yet, or the ones of the planner for
    the content length of the entry. *)
Definition planned (cfg : Config) (sourceEntry : ObjectQueueEntry)
    (s : State) : Prop :=
  ranges s = [] \/
  _getRanges (planner_fuel (getContentLength sourceEntry))
    (getContentLength sourceEntry) (isGCP cfg) = Some (ranges s).

(** The state of a run for a 1-byte object once init-MPU is answered:
    the only part is being put. *)
Definition one_part_uploading : State :=
  default init
    (run Samples.aws_site (Samples.object_entry 1 false VUndefined [])
       (_sendInitiateMPU Samples.aws_site init)
       [Initiate_answer (Succeed "upload-1")]).

End MpuShape.

(** ** Metrics consumer (MetricsConsumer) *)

Module MetricsConsumer.
Import Js Errors.

(** The string of a value in a template literal; numbers are the
    integers of the model. *)
Definition to_string (v : Value) : string :=
  match v with
  | VUndefined => "undefined"
  | VNull => "null"
  | VBool true => "true"
  | VBool false => "false"
  | VNumber n => pretty n
  | VString s => s
  end.

(** [v === s] for a string [s]. *)
Definition is_string (v : Value) (s : string) : bool :=
  match v with
  | VString s' => String.eqb s' s
  | _ => false
  end.

(** The object a metrics entry parses to: the properties the consumer
    reads. *)
Record Data : Type := {
  type : Value;
  site : Value;
  ops : Value;
  bytes : Value;
  extension : Value;
  bucketName : Value;
  objectKey : Value;
  versionId : Value
}.

(** A call on the stats client. *)
Inductive StatsCall : Type :=
  | decrementKey (key : string) (value : Value)
  | incrementKey (key : string) (value : Value)
  | reportNewRequest (key : string) (value : Value).

(** How [processKafkaEntry] ends: it calls [done()], or an exception
    leaves it before. *)
Inductive Outcome : Type :=
  | Done
  | Thrown (err : Err).

Section Constants.

(** [metricsExtension] and [redisKeys] of the constants of the
    replication and of the ingestion extension: none of them is part of the
    sources. *)
Variable crrExtension : string.
Variable ingestionExtension : string.
Variable crrRedisKeys : Object.
Variable ingestionRedisKeys : Object.

(** [_getRedisKeys]: the keys, or the error thrown. *)
Definition _getRedisKeys (extension : Value) : Err + Object :=
  if is_string extension crrExtension then inr crrRedisKeys
  else if is_string extension ingestionExtension then inr ingestionRedisKeys
  else
    inl (customizeDescription TInternalError
           (to_string extension +:+ " is not a valid extension")).

(** [value || 0]. *)
Definition or_zero (value : Value) : Value :=
  if truthy value then value else VNumber 0.

(** [_sendRequest]: [action] is the method of the stats client called;
    [redisKeys[keyType]] of a missing property is [undefined]. *)
Definition _sendRequest (action : string -> Value -> StatsCall)
    (site : Value) (redisKeys : Object) (keyType : string) (value : Value)
    : list StatsCall :=
  let name := default VUndefined (redisKeys !! keyType) in
  if truthy name
  then [action (to_string site +:+ ":" +:+ to_string name) (or_zero value)]
  else [].

(** [_sendObjectRequest]. *)
Definition _sendObjectRequest (key : string) (value : Value)
    : list StatsCall :=
  [reportNewRequest key value].

(** [_sendSiteLevelRequests]: the calls on the stats client. *)
Definition _sendSiteLevelRequests (data : Data) : list StatsCall :=
  match _getRedisKeys (extension data) with
  | inl err => []
  | inr redisKeys =>
      if is_string (type data) "completed" then
        _sendRequest decrementKey (site data) redisKeys "opsPending"
          (ops data) ++
        _sendRequest decrementKey (site data) redisKeys "bytesPending"
          (bytes data) ++
        _sendRequest reportNewRequest (site data) redisKeys "opsDone"
          (ops data) ++
        _sendRequest reportNewRequest (site data) redisKeys "bytesDone"
          (bytes data)
      else if is_string (type data) "failed" then
        _sendRequest decrementKey (site data) redisKeys "opsPending"
          (ops data) ++
        _sendRequest decrementKey (site data) redisKeys "bytesPending"
          (bytes data) ++
        _sendRequest reportNewRequest (site data) redisKeys "opsFail"
          (ops data) ++
        _sendRequest reportNewRequest (site data) redisKeys "bytesFail"
          (bytes data)
      else if is_string (type data) "queued" then
        _sendRequest incrementKey (site data) redisKeys "opsPending"
          (ops data) ++
        _sendRequest incrementKey (site data) redisKeys "bytesPending"
          (bytes data) ++
        _sendRequest reportNewRequest (site data) redisKeys "ops"
          (ops data) ++
        _sendRequest reportNewRequest (site data) redisKeys "bytes"
          (bytes data)
      else []
  end.

(** The key of an object-level request. *)
Definition object_key (data : Data) (name : Value) : string :=
  to_string (site data) +:+ ":" +:+ to_string (bucketName data) +:+ ":" +:+
  to_string (objectKey data) +:+ ":" +:+
  to_string (versionId data) +:+ ":" +:+ to_string name.

(** [_sendObjectLevelRequests]: the calls on the stats client, or the
    error [_getRedisKeys] throws. *)
Definition _sendObjectLevelRequests (data : Data) : Err + list StatsCall :=
  match _getRedisKeys (extension data) with
  | inl err => inl err
  | inr redisKeys =>
      if is_string (type data) "completed" then
        let key :=
          object_key data
            (default VUndefined (redisKeys !! "objectBytesDone")) in
        inr (_sendObjectRequest key (bytes data))
      else if is_string (type data) "queued" then
        let key :=
          object_key data (default VUndefined (redisKeys !! "objectBytes")) in
        inr (_sendObjectRequest key (bytes data))
      else inr []
  end.

(** [processKafkaEntry] of a consumer with identifier [_id]: [parsed] is
    the object the entry's value parses to, [None] when [JSON.parse]
    throws. The result is the calls on the stats client and how the method
    ends. *)
Definition processKafkaEntry (_id : string) (parsed : option Data)
    : list StatsCall * Outcome :=
  match parsed with
  | None => ([], Done)
  | Some data =>
      if negb (is_string (extension data) _id) then ([], Done)
      else
        let operationTypes := ["completed"; "failed"; "queued"] in
        let isValidType :=
          existsb (is_string (type data)) operationTypes in
        if negb isValidType then ([], Done)
        else if truthy (bucketName data) && truthy (objectKey data) &&
                truthy (versionId data)
        then
          match _sendObjectLevelRequests data with
          | inl err => ([], Thrown err)
          | inr calls => (calls, Done)
          end
        else (_sendSiteLevelRequests data, Done)
  end.

End Constants.

(** The pending counters a list of calls adds to and takes from. *)
Definition increments (calls : list StatsCall) : list (string * Value) :=
  omap (fun c => match c with
                 | incrementKey key value => Some (key, value)
                 | _ => None
                 end) calls.

Definition decrements (calls : list StatsCall) : list (string * Value) :=
  omap (fun c => match c with
                 | decrementKey key value => Some (key, value)
                 | _ => None
                 end) calls.

(** The entry [data] with another [type]. *)
Definition with_type (t : string) (data : Data) : Data :=
  {| type := VString t; site := site data; ops := ops data;
     bytes := bytes data; extension := extension data;
     bucketName := bucketName data; objectKey := objectKey data;
     versionId := versionId data |}.

End MetricsConsumer.

(** ** Replaying entries on the metadata mirror *)

Module MirrorReplay.
Import Js Errors Entry MongoQueueProcessor.

(** The bucket and key an entry is written or deleted under. *)
Definition target (e : QueueEntry) : option (string * string) :=
  match e with
  | IsObject o => Some (getBucket o, getObjectVersionedKey o)
  | IsDeleteOp d => Some (del_getBucket d, del_getObjectVersionedKey d)
  | _ => None
  end.

(** What the database holds under the target once the entry is
    processed. *)
Definition written (e : QueueEntry) : option ObjectQueueEntry :=
  match e with
  | IsObject o => Some (_manipulateOwner (_manipulateLocation o))
  | _ => None
  end.

Definition touches (bk : string * string) (e : QueueEntry) : bool :=
  bool_decide (target e = Some bk).

(** The database after [processKafkaEntry] has processed the entries in
    order, every call on the client succeeding. *)
Definition mirror_all (entries : list QueueEntry) (db : Database)
    : Database :=
  fold_left (fun db e => mongo_run (fst (processKafkaEntry e None)) db)
    entries db.

End MirrorReplay.

(** ** The shape of the planner's ranges *)

Module PlannerShape.
Import Planner.
Local Open Scope Z_scope.

(** Every range but the last is [size] bytes long, and the last is
    between 1 and [size] bytes long. *)
Fixpoint uniform (size : Z) (rs : list Range) : Prop :=
  match rs with
  | [] => True
  | [r] => 1 <= range_size r <= size
  | r :: rs' => range_size r = size /\ uniform size rs'
  end.

(** The part size [_getRanges] works with. *)
Definition part_size (fuel : nat) (L : Z) (isGCP : bool) : option Z :=
  if isGCP then _getGCPRangeSize fuel L else _getRangeSize fuel L.

End PlannerShape.

Import Planner.
Local Open Scope Z_scope.

(** ** Facts about the range planner *)

Section PlannerFacts.

Lemma quot_gt_pos (a b k : Z) : 0 < b -> quot_gt a b k = true <-> k * b < a.
Proof.
  intros Hb. unfold quot_gt.
  destruct (Z.ltb_spec 0 b) as [_|]; [|lia].
  apply Z.ltb_lt.
Qed.

Lemma quot_gt_pos_false (a b k : Z) :
  0 < b -> quot_gt a b k = false <-> a <= k * b.
Proof.
  intros Hb. unfold quot_gt.
  destruct (Z.ltb_spec 0 b) as [_|]; [|lia].
  apply Z.ltb_ge.
Qed.

Lemma ceil_div_ge (a b : Z) : 0 < b -> a <= b * ceil_div a b.
Proof.
  intros Hb. unfold ceil_div.
  pose proof (Z.div_mod (a + b - 1) b ltac:(lia)) as Hdm.
  pose proof (Z.mod_pos_bound (a + b - 1) b Hb) as Hm.
  lia.
Qed.

Lemma ceil_div_pos (a b : Z) : 0 < b -> 0 < a -> 1 <= ceil_div a b.
Proof.
  intros Hb Ha. unfold ceil_div.
  apply Z.div_le_lower_bound; lia.
Qed.

Lemma ceil_log2_ge (n : Z) : 1 <= n -> n <= 2 ^ ceil_log2 n.
Proof.
  intros Hn. unfold ceil_log2.
  destruct (Z.eq_dec n 1) as [->|Hne]; [reflexivity|].
  apply (Z.log2_up_spec n). lia.
Qed.

(** The first loop stops after at most [n] doublings when
    [512 MiB <= rangeSize * 2 ^ n]. *)
Lemma grow_to_1000_returns (L : Z) (n : nat) :
  forall (fuel : nat) (rs : Z),
    0 < rs -> 512 * MiB <= rs * 2 ^ Z.of_nat n -> (n < fuel)%nat ->
    exists rs', grow_to_1000 fuel L rs = Some rs' /\ rs <= rs'.
Proof.
  induction n as [|n IH]; intros fuel rs Hrs Hbig Hfuel.
  - destruct fuel as [|fuel]; [lia|]. simpl.
    destruct (quot_gt L rs 1000); [|exists rs; split; [reflexivity|lia]].
    destruct (Z.leb_spec (512 * MiB) rs); [|simpl in Hbig; lia].
    exists rs. split; [reflexivity|lia].
  - destruct fuel as [|fuel]; [lia|]. simpl.
    destruct (quot_gt L rs 1000); [|exists rs; split; [reflexivity|lia]].
    destruct (Z.leb_spec (512 * MiB) rs).
    + exists rs. split; [reflexivity|lia].
    + destruct (IH fuel (rs * 2)) as (rs' & Heq & Hle); [lia| |lia|].
      * rewrite Nat2Z.inj_succ, Z.pow_succ_r in Hbig by lia. lia.
      * exists rs'. split; [exact Heq|lia].
Qed.

(** The second loop stops after at most [n] doublings when
    [L <= 10000 * rangeSize * 2 ^ n], and on exit at most 10000 parts are
    needed. *)
Lemma grow_to_10000_returns (L : Z) (n : nat) :
  forall (fuel : nat) (rs : Z),
    0 < rs -> L <= 10000 * rs * 2 ^ Z.of_nat n -> (n < fuel)%nat ->
    exists rs', grow_to_10000 fuel L rs = Some rs' /\ rs <= rs' /\
                L <= 10000 * rs'.
Proof.
  induction n as [|n IH]; intros fuel rs Hrs Hbig Hfuel;
    (destruct fuel as [|fuel]; [lia|]); simpl;
    destruct (quot_gt L rs 10000) eqn:Hq.
  - apply quot_gt_pos in Hq; [|exact Hrs]. simpl in Hbig. lia.
  - apply quot_gt_pos_false in Hq; [|exact Hrs].
    exists rs. repeat split; [lia|exact Hq].
  - destruct (IH fuel (rs * 2)) as (rs' & Heq & Hle & Hdone); [lia| |lia|].
    + rewrite Nat2Z.inj_succ, Z.pow_succ_r in Hbig by lia. lia.
    + exists rs'. repeat split; [exact Heq|lia|exact Hdone].
  - apply quot_gt_pos_false in Hq; [|exact Hrs].
    exists rs. repeat split; [lia|exact Hq].
Qed.

Lemma planner_fuel_log (L : Z) :
  1 <= L -> L <= 2 ^ Z.of_nat (Z.to_nat (Z.log2_up L)).
Proof.
  intros HL. rewrite Z2Nat.id by apply Z.log2_up_nonneg.
  exact (ceil_log2_ge L HL).
Qed.

Lemma getRangeSize_returns (L : Z) (fuel : nat) :
  1 <= L -> (planner_fuel L <= fuel)%nat ->
  exists rs, _getRangeSize fuel L = Some rs /\ 1 <= rs /\ L <= 10000 * rs.
Proof.
  intros HL Hfuel. unfold planner_fuel in Hfuel. unfold _getRangeSize.
  pose proof (Z.log2_up_nonneg L) as Hlog0.
  destruct (Z.leb_spec L (16 * MiB)) as [Hsmall|Hlarge].
  - exists L. repeat split; lia.
  - destruct (grow_to_1000_returns L 5 fuel (16 * MiB)) as (r1 & H1 & Hr1);
      [reflexivity|reflexivity|lia|].
    assert (0 < r1) by (unfold MiB in *; lia).
    destruct (grow_to_10000_returns L (Z.to_nat (Z.log2_up L)) fuel r1)
      as (r2 & H2 & Hr2 & Hdone); [lia| |lia|].
    { pose proof (planner_fuel_log L HL) as Hlog.
      assert (0 < 2 ^ Z.of_nat (Z.to_nat (Z.log2_up L))) by lia.
      unfold MiB in *. nia. }
    exists r2. rewrite H1. simpl. repeat split; [exact H2|lia|exact Hdone].
Qed.

Lemma getGCPRangeSize_returns (L : Z) (fuel : nat) :
  1 <= L -> (planner_fuel L <= fuel)%nat ->
  exists rs, _getGCPRangeSize fuel L = Some rs /\ 1 <= rs /\
             L <= 10000 * rs /\ L <= 1024 * rs.
Proof.
  intros HL Hfuel. unfold _getGCPRangeSize.
  destruct (getRangeSize_returns L fuel HL Hfuel) as (rs & Heq & Hpos & Hdone).
  rewrite Heq. simpl.
  destruct (quot_gt L rs MPU_GCP_MAX_PARTS) eqn:Hq.
  - pose proof (ceil_log2_ge L HL) as Hpow.
    pose proof (ceil_div_ge (2 ^ ceil_log2 L) MPU_GCP_MAX_PARTS) as Hge.
    pose proof (ceil_div_pos (2 ^ ceil_log2 L) MPU_GCP_MAX_PARTS) as Hcp.
    unfold MPU_GCP_MAX_PARTS in *.
    eexists. split; [reflexivity|]. lia.
  - apply quot_gt_pos_false in Hq; [|lia]. unfold MPU_GCP_MAX_PARTS in Hq.
    exists rs. split; [reflexivity|]. lia.
Qed.

Lemma tiles_from_app (a b c : Z) (rs rs' : list Range) :
  tiles_from a rs b -> tiles_from b rs' c -> tiles_from a (rs ++ rs') c.
Proof.
  revert a. induction rs as [|r rs IH]; simpl; intros a H H'.
  - subst. exact H'.
  - destruct H as (Hs & Hne & Hrest). auto.
Qed.


(** Every byte of the tiled interval lies in one of the ranges. *)
Lemma tiles_from_cover (rs : list Range) :
  forall a b x, tiles_from a rs b -> a <= x < b ->
    exists r, In r rs /\ start r <= x <= end_ r.
Proof.
  induction rs as [|r rs IH]; simpl; intros a b x H Hx.
  - lia.
  - destruct H as (Hs & Hne & Hrest).
    destruct (Z_le_gt_dec x (end_ r)) as [Hin|Hout].
    + exists r. split; [left; reflexivity|lia].
    + destruct (IH _ _ x Hrest) as (r' & Hr' & Hb); [lia|].
      exists r'. split; [right; exact Hr'|exact Hb].
Qed.

(** The loop of [_getRanges] returns when the range size is positive: it
    keeps [start = size * (number of ranges pushed)], the ranges pushed
    tile [[0, start - 1]], and on exit [start] is at most [L - 1] and the
    last range is no longer than [size]. *)
Lemma ranges_loop_returns (L size : Z) :
  1 <= size ->
  forall (fuel : nat) (ranges : list Range) (start end_ : Z),
    0 <= start <= L - 1 ->
    tiles_from 0 ranges start ->
    start = size * Z.of_nat (length ranges) ->
    (L - 1 <= end_ -> L <= start + size) ->
    (Z.to_nat ((L - 1 - start) / size) + 1 < fuel)%nat ->
    exists ranges' start',
      ranges_loop fuel L size ranges start end_ = Some (ranges', start') /\
      0 <= start' <= L - 1 /\ L <= start' + size /\
      tiles_from 0 ranges' start' /\
      start' = size * Z.of_nat (length ranges').
Proof.
  intros Hsize. induction fuel as [|fuel IH];
    intros ranges start end_ Hstart Htiles Hlen Hend Hfuel; [lia|].
  simpl. destruct (Z.ltb_spec end_ (L - 1)) as [Hgo|Hstop].
  - destruct (Z.ltb_spec (start + size - 1) (L - 1)) as [Hpush|Hlast].
    + assert (Hdiv : (L - 1 - (start + size - 1 + 1)) / size
                     = (L - 1 - start) / size - 1).
      { replace (L - 1 - (start + size - 1 + 1))
          with (L - 1 - start + (-1) * size) by lia.
        rewrite Z.div_add by lia. lia. }
      assert (0 <= (L - 1 - (start + size - 1 + 1)) / size)
        by (apply Z.div_pos; lia).
      apply IH.
      * lia.
      * apply (tiles_from_app 0 start); [exact Htiles|].
        simpl. repeat split; lia.
      * rewrite length_app. simpl length. lia.
      * lia.
      * lia.
    + destruct fuel as [|fuel]; [lia|]. simpl.
      destruct (Z.ltb_spec (start + size - 1) (L - 1)) as [|_]; [lia|].
      exists ranges, start. repeat split; try assumption; lia.
  - exists ranges, start. repeat split; try assumption; lia.
Qed.

(** *** More fuel does not change a result *)

Lemma grow_to_1000_more (L : Z) (fuel fuel' : nat) :
  (fuel <= fuel')%nat ->
  forall rs r, grow_to_1000 fuel L rs = Some r ->
               grow_to_1000 fuel' L rs = Some r.
Proof.
  revert fuel'. induction fuel as [|fuel IH]; intros fuel' Hle rs r H;
    [discriminate|].
  destruct fuel' as [|fuel']; [lia|]. simpl in *.
  destruct (quot_gt L rs 1000); [|exact H].
  destruct (512 * MiB <=? rs); [exact H|].
  apply IH; [lia|exact H].
Qed.

Lemma grow_to_10000_more (L : Z) (fuel fuel' : nat) :
  (fuel <= fuel')%nat ->
  forall rs r, grow_to_10000 fuel L rs = Some r ->
               grow_to_10000 fuel' L rs = Some r.
Proof.
  revert fuel'. induction fuel as [|fuel IH]; intros fuel' Hle rs r H;
    [discriminate|].
  destruct fuel' as [|fuel']; [lia|]. simpl in *.
  destruct (quot_gt L rs 10000); [|exact H].
  apply IH; [lia|exact H].
Qed.

Lemma ranges_loop_more (L size : Z) (fuel fuel' : nat) :
  (fuel <= fuel')%nat ->
  forall ranges start end_ r,
    ranges_loop fuel L size ranges start end_ = Some r ->
    ranges_loop fuel' L size ranges start end_ = Some r.
Proof.
  revert fuel'. induction fuel as [|fuel IH];
    intros fuel' Hle ranges start end_ r H; [discriminate|].
  destruct fuel' as [|fuel']; [lia|]. simpl in *.
  destruct (end_ <? L - 1); [|exact H].
  destruct (start + size - 1 <? L - 1); (apply IH; [lia|exact H]).
Qed.

Lemma getRangeSize_more (L : Z) (fuel fuel' : nat) (r : Z) :
  (fuel <= fuel')%nat ->
  _getRangeSize fuel L = Some r -> _getRangeSize fuel' L = Some r.
Proof.
  intros Hle. unfold _getRangeSize.
  destruct (L <=? 16 * MiB); [trivial|].
  destruct (grow_to_1000 fuel L (16 * MiB)) as [r1|] eqn:H1;
    [|discriminate].
  simpl. intros H2.
  rewrite (grow_to_1000_more L fuel fuel' Hle _ _ H1). simpl.
  exact (grow_to_10000_more L fuel fuel' Hle _ _ H2).
Qed.

Lemma getGCPRangeSize_more (L : Z) (fuel fuel' : nat) (r : Z) :
  (fuel <= fuel')%nat ->
  _getGCPRangeSize fuel L = Some r -> _getGCPRangeSize fuel' L = Some r.
Proof.
  intros Hle. unfold _getGCPRangeSize.
  destruct (_getRangeSize fuel L) as [r1|] eqn:H1; [|discriminate].
  rewrite (getRangeSize_more L fuel fuel' r1 Hle H1). trivial.
Qed.

(** The result of the planner does not depend on the fuel, once there is
    enough of it. *)
Lemma getRanges_more (L : Z) (isGCP : bool) (fuel fuel' : nat)
    (r : list (option Range)) :
  (fuel <= fuel')%nat ->
  _getRanges fuel L isGCP = Some r -> _getRanges fuel' L isGCP = Some r.
Proof.
  intros Hle. unfold _getRanges. destruct (L =? 0); [trivial|].
  destruct (if isGCP then _getGCPRangeSize fuel L else _getRangeSize fuel L)
    as [size|] eqn:Hsize; [|discriminate].
  assert (Hsize' : (if isGCP then _getGCPRangeSize fuel' L
                    else _getRangeSize fuel' L) = Some size).
  { destruct isGCP;
      [exact (getGCPRangeSize_more L fuel fuel' size Hle Hsize)
      |exact (getRangeSize_more L fuel fuel' size Hle Hsize)]. }
  rewrite Hsize'. simpl.
  destruct (ranges_loop fuel L size [] 0 0) as [[rs st]|] eqn:Hloop;
    [|discriminate].
  rewrite (ranges_loop_more L size fuel fuel' Hle _ _ _ _ Hloop). trivial.
Qed.

End PlannerFacts.




(** *** The planner against the specification's part-size algorithm *)








Example getRanges_0 : _getRanges 0 0 true = Some [None].
Proof. reflexivity. Qed.

Example getRanges_1 : _getRanges 5 1 false = Some [Some {| start := 0; end_ := 0 |}].
Proof. reflexivity. Qed.

Example getRanges_40MiB :
  _getRanges 5 (40 * MiB) false =
  Some [Some {| start := 0; end_ := 16 * MiB - 1 |};
        Some {| start := 16 * MiB; end_ := 32 * MiB - 1 |};
        Some {| start := 32 * MiB; end_ := 40 * MiB - 1 |}].
Proof. vm_compute. reflexivity. Qed.

Example getRangeSize_64GiB : _getRangeSize 10 (64 * 1024 * MiB) = Some (128 * MiB).
Proof. vm_compute. reflexivity. Qed.

Example getGCP_5TiB : _getGCPRangeSize 20 (5 * MiB * MiB) = Some (8 * 1024 * MiB).
Proof. vm_compute. reflexivity. Qed.

(** ** Facts about the outcome of a replication *)

Section OutcomeFacts.
Import Errors Entry MultipleBackendTask.

Lemma code_is_true (err : Err) (name : string) :
  code_is err name = true <-> code err = CodeString name.
Proof.
  unfold code_is. destruct (code err) as [|c|t]; try (split; discriminate).
  rewrite String.eqb_eq. split; [intros ->; reflexivity|congruence].
Qed.

Lemma named_true (err : Err) (flag : Err -> bool) (name : string) :
  flag err || code_is err name = true <-> named err flag name.
Proof.
  unfold named. rewrite orb_true_iff, code_is_true. reflexivity.
Qed.

Lemma permanent_source_test (err : Err) :
  BadRole err ||
  (match origin err with Some source => true | _ => false end &&
   (NoSuchEntity err || code_is err "NoSuchEntity" ||
    AccessDenied err || code_is err "AccessDenied")) = true
  <-> PermanentSource err.
Proof.
  unfold PermanentSource.
  rewrite orb_true_iff, andb_true_iff, <- orb_assoc, orb_true_iff.
  rewrite !named_true.
  assert (Ho : match origin err with Some source => true | _ => false end
               = true <-> origin err = Some source).
  { destruct (origin err) as [[|]|]; split; congruence. }
  rewrite Ho. reflexivity.
Qed.

Lemma skipped_state_test (err : Err) :
  (ObjNotFound err || code_is err "ObjNotFound") ||
  (InvalidObjectState err || code_is err "InvalidObjectState") = true
  <-> SkippedState err.
Proof.
  unfold SkippedState. rewrite orb_true_iff, !named_true. reflexivity.
Qed.

End OutcomeFacts.

(** C2. [_handleReplicationOutcome] maps the end of a replication as the
    specification says: without an error it publishes COMPLETED and calls
    [done] with [{ committable: false }]; with an error that is BadRole, or
    NoSuchEntity or AccessDenied of origin source, and with an error that is
    ObjNotFound or InvalidObjectState, it publishes nothing and calls
    [done()]; with any other error it publishes FAILED with the error's
    description and calls [done] with [{ committable: false }]. *)
Theorem handleReplicationOutcome_cases
    (sourceEntry : Entry.ObjectQueueEntry) :
  let handle err := MultipleBackendTask._handleReplicationOutcome err sourceEntry in
  handle None =
    ([{| MultipleBackendTask.pub_entry := sourceEntry;
         MultipleBackendTask.pub_status := MultipleBackendTask.COMPLETED;
         MultipleBackendTask.pub_reason := None |}],
     MultipleBackendTask.done_not_committable) /\
  (forall err, MultipleBackendTask.PermanentSource err ->
     handle (Some err) = ([], MultipleBackendTask.done_committable)) /\
  (forall err, MultipleBackendTask.SkippedState err ->
     handle (Some err) = ([], MultipleBackendTask.done_committable)) /\
  (forall err,
     ~ MultipleBackendTask.PermanentSource err ->
     ~ MultipleBackendTask.SkippedState err ->
     handle (Some err) =
       ([{| MultipleBackendTask.pub_entry := sourceEntry;
            MultipleBackendTask.pub_status := MultipleBackendTask.FAILED;
            MultipleBackendTask.pub_reason :=
              Some (Errors.description err) |}],
        MultipleBackendTask.done_not_committable)).
Proof.
  intros handle. subst handle. unfold MultipleBackendTask._handleReplicationOutcome.
  split; [reflexivity|].
  split; [|split].
  - intros err Hp. apply permanent_source_test in Hp. rewrite Hp. reflexivity.
  - intros err Hs. apply skipped_state_test in Hs.
    destruct (_ || _ && _); [reflexivity|].
    destruct (Errors.ObjNotFound err || Errors.code_is err "ObjNotFound");
      [reflexivity|].
    simpl in Hs. rewrite Hs. reflexivity.
  - intros err Hp Hs.
    rewrite <- permanent_source_test in Hp. rewrite <- skipped_state_test in Hs.
    apply not_true_is_false in Hp. apply not_true_is_false in Hs.
    rewrite Hp. apply orb_false_iff in Hs. destruct Hs as [-> ->]. reflexivity.
Qed.

Lemma handleReplicationOutcome_cases_witness :
  let sourceEntry := Samples.object_entry 1024 false Js.VUndefined [] in
  let handle err := MultipleBackendTask._handleReplicationOutcome err sourceEntry in
  handle (Some Samples.access_denied_at_source)
    = ([], MultipleBackendTask.done_committable) /\
  handle (Some (Errors.errors Errors.TInvalidObjectState))
    = ([], MultipleBackendTask.done_committable) /\
  handle (Some Samples.bad_request) =
    ([{| MultipleBackendTask.pub_entry := sourceEntry;
         MultipleBackendTask.pub_status := MultipleBackendTask.FAILED;
         MultipleBackendTask.pub_reason :=
           Some (Errors.DescribedAs "bad request") |}],
     MultipleBackendTask.done_not_committable).
Proof.
  intros sourceEntry handle.
  destruct (handleReplicationOutcome_cases sourceEntry)
    as (_ & Hperm & Hskip & Hother).
  split; [|split].
  - apply Hperm. right. split; [reflexivity|].
    right. right. reflexivity.
  - apply Hskip. right. left. reflexivity.
  - apply (Hother Samples.bad_request).
    + intros [H | (H & _)]; discriminate.
    + intros [[H | H] | [H | H]]; discriminate.
Defined.

(** ** Facts about the tagging of errors *)

(** C7, as stated, fails: the error of a failed
    [multipleBackendPutObject] surfaces with origin source, not target, and
    the [onRetryFunc] of [_getAndPutPart] then leaves the host picked and
    the client as they are, where an error of origin target would move them. *)
Lemma dest_error_origin_counterexample :
  let surfaced :=
    snd (MultipleBackendTask._sendMultipleBackendPutObject_send
           (Js.VNumber 1024) (Errors.Fail Samples.service_unavailable)) in
  (exists err, surfaced = Some err /\
     Errors.origin err = Some Errors.source /\
     Errors.origin err <> Some Errors.target /\
     MultipleBackendTask.onRetryFunc err Samples.two_hosts
       = Samples.two_hosts /\
     MultipleBackendTask.onRetryFunc
       (Errors.set_origin Errors.target err) Samples.two_hosts
       <> Samples.two_hosts) /\
  ~ (forall (size : Js.Value) (err : Errors.Err),
       exists err',
         snd (MultipleBackendTask._sendMultipleBackendPutObject_send size
                (Errors.Fail err)) = Some err' /\
         Errors.origin err' = Some Errors.target).
Proof.
  split.
  - eexists. split; [reflexivity|]. repeat split; try discriminate.
  - intros Hall.
    destruct (Hall (Js.VNumber 1024) Samples.service_unavailable)
      as (err' & Heq & Ho).
    simpl in Heq. injection Heq as <-. discriminate.
Qed.

(** C7, amended. Every error that surfaces from a destination-gateway
    operation ([multipleBackendPutMPUPart], [multipleBackendCompleteMPU],
    [multipleBackendPutObject]) carries origin source, so on a retry the
    [onRetryFunc] of [_getAndPutPart], which acts on origin target only,
    leaves the destination host and client as they are. An [error] event
    of a source request, and one of its read stream whose status is not 404,
    surface with origin source; a 404 on the read stream surfaces as
    [errors.ObjNotFound], to which no origin is assigned. *)
Theorem dest_errors_tagged_source (err : Errors.Err) :
  (forall size,
     snd (MultipleBackendTask._putMPUPart_send size (Errors.Fail err))
       = Errors.Fail (Errors.set_origin Errors.source err)) /\
  snd (MultipleBackendTask._completeMPU_send (Errors.Fail err))
    = Some (Errors.set_origin Errors.source err) /\
  (forall size,
     snd (MultipleBackendTask._sendMultipleBackendPutObject_send size
            (Errors.Fail err))
       = Some (Errors.set_origin Errors.source err)) /\
  Errors.origin (Errors.set_origin Errors.source err)
    = Some Errors.source /\
  (forall d,
     MultipleBackendTask.onRetryFunc
       (Errors.set_origin Errors.source err) d = d) /\
  Errors.origin (MultipleBackendTask.on_sourceReq_error err)
    = Some Errors.source /\
  (Errors.statusCode err <> Some 404 ->
   Errors.origin (MultipleBackendTask.on_incomingMsg_error err)
     = Some Errors.source) /\
  (Errors.statusCode err = Some 404 ->
   MultipleBackendTask.on_incomingMsg_error err
     = Errors.errors Errors.TObjNotFound).
Proof.
  repeat split.
  - intros Hne. unfold MultipleBackendTask.on_incomingMsg_error.
    destruct (Errors.statusCode err) as [z|]; [|reflexivity].
    destruct (Z.eq_dec z 404) as [->|Hz]; [congruence|].
    destruct z as [|p|p]; try reflexivity.
    do 9 (destruct p as [p|p|]; try reflexivity). congruence.
  - intros Heq. unfold MultipleBackendTask.on_incomingMsg_error.
    rewrite Heq. reflexivity.
Qed.

Lemma dest_errors_tagged_source_witness :
  Errors.origin
    (MultipleBackendTask.on_incomingMsg_error Samples.service_unavailable)
    = Some Errors.source /\
  MultipleBackendTask.on_incomingMsg_error Samples.not_found_on_stream
    = Errors.errors Errors.TObjNotFound.
Proof.
  split.
  - apply (dest_errors_tagged_source Samples.service_unavailable).
    vm_compute. discriminate.
  - apply (dest_errors_tagged_source Samples.not_found_on_stream).
    reflexivity.
Defined.

(** ** Facts about data replication without MPU *)

Section DataFacts.
Import Js Errors Entry MultipleBackendTask.

Lemma getAndPutPartOnce_end (e : ObjectQueueEntry) (part : option Object) :
  (forall err, snd (_getAndPutPartOnce e part) <> Called err) /\
  fst (_getAndPutPartOnce e part) <> [].
Proof.
  unfold _getAndPutPartOnce.
  destruct (getReplicationIsNFS e).
  - destruct (_checkObjectState e _) as [[req cb]|x]; simpl;
      (split; [discriminate|]); intros H; apply app_eq_nil in H;
      destruct H; discriminate.
  - simpl. split; [discriminate|]. intros H; apply app_eq_nil in H.
    destruct H; discriminate.
Qed.

Lemma start_parts_end (e : ObjectQueueEntry) (parts : list Object) :
  forall err, snd (start_parts e parts) <> Called err.
Proof.
  induction parts as [|part parts IH]; intros err; simpl; [discriminate|].
  pose proof (proj1 (getAndPutPartOnce_end e (Some part))) as Hp.
  destruct (_getAndPutPartOnce e (Some part)) as [evs [| err' | x]]; simpl.
  - destruct (start_parts e parts) as [evs' e']. apply IH.
  - exfalso. apply (Hp err'). reflexivity.
  - discriminate.
Qed.

Lemma existsb_undefined (l : list Object) (k : string) :
  existsb (fun part => is_undefined part k) l = true <->
  exists part, In part l /\ is_undefined part k = true.
Proof. apply existsb_exists. Qed.

End DataFacts.

(** C6. When a part of [location] has no [dataStoreETag],
    [_getAndPutData] calls back with an InternalError before it issues any
    request; the error is not retryable, and [_handleReplicationOutcome]
    publishes FAILED for it. When every part has a [dataStoreETag], the
    function does not call back with an error by itself: it goes on to the
    requests. *)
Theorem getAndPutData_dataStoreETag (sourceEntry : Entry.ObjectQueueEntry) :
  let missing part := Js.is_undefined part "dataStoreETag" = true in
  let failure :=
    Errors.customizeDescription Errors.TInternalError
      "cannot replicate object without dataStoreETag property" in
  ((exists part, In part (Entry.getLocation sourceEntry) /\ missing part) ->
   MultipleBackendTask._getAndPutData sourceEntry
     = ([], MultipleBackendTask.Called (Some failure)) /\
   Errors.InternalError failure = true /\
   Errors.retryable failure = false /\
   MultipleBackendTask._handleReplicationOutcome (Some failure) sourceEntry
     = ([{| MultipleBackendTask.pub_entry := sourceEntry;
            MultipleBackendTask.pub_status := MultipleBackendTask.FAILED;
            MultipleBackendTask.pub_reason :=
              Some (Errors.description failure) |}],
        MultipleBackendTask.done_not_committable)) /\
  ((forall part, In part (Entry.getLocation sourceEntry) -> ~ missing part) ->
   (forall err,
      snd (MultipleBackendTask._getAndPutData sourceEntry)
        <> MultipleBackendTask.Called err) /\
   fst (MultipleBackendTask._getAndPutData sourceEntry) <> []).
Proof.
  intros missing failure. subst missing. split.
  - intros Hmiss. apply existsb_undefined in Hmiss.
    unfold MultipleBackendTask._getAndPutData. rewrite Hmiss.
    repeat split; reflexivity.
  - intros Hall.
    assert (Hnone : existsb (fun part => Js.is_undefined part "dataStoreETag")
                      (Entry.getLocation sourceEntry) = false).
    { apply not_true_is_false. intros H. apply existsb_undefined in H.
      destruct H as (part & Hin & Hm). exact (Hall part Hin Hm). }
    unfold MultipleBackendTask._getAndPutData. rewrite Hnone.
    destruct (length (Entry.getReducedLocations sourceEntry) =? 0)%nat.
    + apply getAndPutPartOnce_end.
    + pose proof (start_parts_end sourceEntry
        (take MultipleBackendTask.MPU_CONC_LIMIT
           (Entry.getReducedLocations sourceEntry))) as Hend.
      destruct (MultipleBackendTask.start_parts sourceEntry _) as [evs e].
      simpl in *. split; [exact Hend|discriminate].
Qed.

Lemma getAndPutData_dataStoreETag_witness :
  MultipleBackendTask._getAndPutData
    (Samples.object_entry 2048 false Js.VUndefined
       [Samples.part_with_etag; Samples.part_without_etag])
    = ([], MultipleBackendTask.Called
             (Some (Errors.customizeDescription Errors.TInternalError
                      "cannot replicate object without dataStoreETag property")))
  /\
  fst (MultipleBackendTask._getAndPutData
         (Samples.object_entry 2048 false Js.VUndefined
            [Samples.part_with_etag; Samples.part_with_etag])) <> [].
Proof.
  split.
  - apply (getAndPutData_dataStoreETag
             (Samples.object_entry 2048 false Js.VUndefined
                [Samples.part_with_etag; Samples.part_without_etag])).
    exists Samples.part_without_etag. split.
    + right. left. reflexivity.
    + vm_compute. reflexivity.
  - apply (getAndPutData_dataStoreETag
             (Samples.object_entry 2048 false Js.VUndefined
                [Samples.part_with_etag; Samples.part_with_etag])).
    intros part [<- | [<- | []]]; vm_compute; discriminate.
Defined.

(** ** Facts about the metadata mirror *)

Section MirrorFacts.
Import Js Errors Entry MongoQueueProcessor.



End MirrorFacts.



(** C10. For a bucket entry and for a bucket-metadata entry
    [processKafkaEntry] issues no call on the database client and calls
    [done] without an error: the database stays as it is. *)
Theorem mirror_skips_bucket_entries (sourceEntry : Entry.QueueEntry)
    (answer : option Errors.Err) (db : MongoQueueProcessor.Database) :
  sourceEntry = Entry.IsBucket \/ sourceEntry = Entry.IsBucketMd ->
  MongoQueueProcessor.processKafkaEntry sourceEntry answer = ([], None) /\
  MongoQueueProcessor.mongo_run
    (fst (MongoQueueProcessor.processKafkaEntry sourceEntry answer)) db = db.
Proof. intros [-> | ->]; split; reflexivity. Qed.

Lemma mirror_skips_bucket_entries_witness :
  MongoQueueProcessor.processKafkaEntry Entry.IsBucketMd
    (Some Samples.service_unavailable) = ([], None) /\
  MongoQueueProcessor.mongo_run
    (fst (MongoQueueProcessor.processKafkaEntry Entry.IsBucketMd
            (Some Samples.service_unavailable))) ∅ = ∅.
Proof.
  apply (mirror_skips_bucket_entries Entry.IsBucketMd
           (Some Samples.service_unavailable) ∅).
  right. reflexivity.
Defined.

(** ** Facts about RaftLogEntry *)

Section RaftFacts.
Import RaftLogEntry.

Variable usersBucket : string.
Variable Metadata : Type.
Variable JSON_stringify : Metadata -> string.
Variable BucketInfo : Type.
Variable serialize : BucketInfo -> string.
Variable _name : BucketInfo -> string.

(** C9. The three constructors build entries of type put:
    [createPutEntry] with the prefixed bucket name as bucket, the object
    key as key and the serialized metadata as value; [createPutBucketEntry]
    with [usersBucket] as bucket, the prefixed bucket name as key and
    [null] as value; [createPutBucketMdEntry] with the prefixed bucket name
    as bucket and as key and the serialized bucket as value. *)
Theorem raft_log_entries (bucketPrefix : string) :
  (forall objectMd : ObjectMd Metadata,
     createPutEntry Metadata JSON_stringify objectMd bucketPrefix
     = {| type := "put";
          bucket := bucketPrefix +:+ "-" +:+ bucketName Metadata objectMd;
          key := objectKey Metadata objectMd;
          value := Some (JSON_stringify (res Metadata objectMd)) |}) /\
  (forall bucket : string,
     createPutBucketEntry usersBucket bucket bucketPrefix
     = {| type := "put"; bucket := usersBucket;
          key := bucketPrefix +:+ "-" +:+ bucket; value := None |}) /\
  (forall bucket : BucketInfo,
     let entry :=
       createPutBucketMdEntry BucketInfo serialize _name bucket
         bucketPrefix in
     entry
     = {| type := "put";
          bucket := bucketPrefix +:+ "-" +:+ _name bucket;
          key := bucketPrefix +:+ "-" +:+ _name bucket;
          value := Some (serialize bucket) |} /\
     RaftLogEntry.bucket entry = RaftLogEntry.key entry).
Proof.
  split; [reflexivity|]. split; [reflexivity|].
  intros bucket entry. subst entry. split; reflexivity.
Qed.

End RaftFacts.

(** ** Facts about replication with MPU *)

Section MpuFacts.
Import Js Errors Entry MultipleBackendTask.

Variable cfg : Config.
Variable sourceEntry : ObjectQueueEntry.

(** The state check throws before it issues its request: the first
    argument of the call of [_fetchSourceMD] is the bucket's name, a
    string, on which [getBucket] is called. *)
Lemma checkObjectState_throws (A : Type) (e : ObjectQueueEntry)
    (cb : option Err -> A) :
  _checkObjectState e cb = Threw TypeError.
Proof. reflexivity. Qed.

Lemma checkMPUState_throws (A : Type) (e : ObjectQueueEntry)
    (uploadId : string) (cb : option Err -> A) :
  _checkMPUState e uploadId cb = Threw TypeError.
Proof. reflexivity. Qed.

Lemma step_Step (s s' : State) (i : Input) :
  no_check s -> step cfg sourceEntry s i = Some s' ->
  Step cfg sourceEntry s i s'.
Proof.
  intros [Hphase Hparts] Hstep. unfold step in Hstep.
  destruct (phase s) as [cb| |uploadId|uploadId| |] eqn:Hp.
  - exfalso. exact (Hphase cb eq_refl).
  - destruct i as [r| | | |]; try discriminate.
    destruct r as [err|uploadId]; simpl in Hstep.
    + destruct (isAzure cfg); [discriminate|].
      injection Hstep as <-. apply Step_init_failed. exact Hp.
    + destruct (_getRanges _ _ _) as [rs|] eqn:Hrs; [|discriminate].
      simpl in Hstep. injection Hstep as <-.
      apply Step_init_succeeded; assumption.
  - destruct i as [|n r|[n|] r|n r|]; try discriminate.
    + destruct (parts s !! n) as [st|] eqn:Hn; [|discriminate].
      destruct st as [attempt| | | |]; try discriminate.
      destruct (ranges s !! n) as [range|] eqn:Hr; [|discriminate].
      destruct (_putMPUPart (size_of range) r) as [[evs res]|] eqn:Hput;
        [|discriminate].
      simpl in Hstep.
      destruct res as [err|data].
      * destruct (retries cfg err attempt) eqn:Hretry.
        -- injection Hstep as <-. eapply Step_part_retried; eassumption.
        -- injection Hstep as <-. unfold deliver.
           destruct (getReplicationIsNFS sourceEntry) eqn:Hnfs.
           ++ eapply Step_part_crashed; try eassumption.
              intros err' [= <-]. exact Hretry.
           ++ eapply Step_part_failed; eassumption.
      * injection Hstep as <-. unfold deliver.
        destruct (getReplicationIsNFS sourceEntry) eqn:Hnfs.
        -- eapply Step_part_crashed; try eassumption. discriminate.
        -- eapply Step_part_succeeded; eassumption.
    + destruct (parts s !! n) as [st|] eqn:Hn; [|discriminate].
      pose proof (Forall_lookup_1 _ _ _ _ Hparts Hn) as Hplain.
      destruct st; try discriminate; destruct Hplain.
    + destruct (parts s !! n) as [st|] eqn:Hn; [|discriminate].
      pose proof (Forall_lookup_1 _ _ _ _ Hparts Hn) as Hplain.
      destruct st; try discriminate; destruct Hplain.
  - destruct i as [| | | |r]; try discriminate.
    destruct (_completeMPU_send r) as [evs err] eqn:Hsend.
    injection Hstep as <-.
    replace evs with (fst (_completeMPU_send r)) by (rewrite Hsend; reflexivity).
    replace err with (snd (_completeMPU_send r)) by (rewrite Hsend; reflexivity).
    eapply Step_completed. exact Hp.
  - discriminate.
  - discriminate.
Qed.

(** *** Traces that grow *)

Lemma split_app (t evs pre post : list Event) (x : Event) :
  t ++ evs = pre ++ x :: post ->
  (exists post', t = pre ++ x :: post') \/
  (exists pre', pre = t ++ pre' /\ evs = pre' ++ x :: post).
Proof.
  intros H. apply app_eq_app in H. destruct H as (l & [[H1 H2] | [H1 H2]]).
  - destruct l as [|y l]; simpl in H2.
    + right. exists []. rewrite app_nil_r in *. split; symmetry; assumption.
    + injection H2 as <- _. left. exists l. exact H1.
  - right. exists l. split; assumption.
Qed.

Lemma init_before_parts_app (t evs : list Event) :
  init_before_parts t ->
  (forall n uploadId size,
     In (Sent (multipleBackendPutMPUPart n uploadId size)) evs ->
     In (Received (Initiate_answer (Succeed uploadId))) t) ->
  init_before_parts (t ++ evs).
Proof.
  intros Ht Hevs pre n uploadId size post Heq.
  apply split_app in Heq. destruct Heq as [(post' & ->) | (pre' & -> & ->)].
  - eapply Ht. reflexivity.
  - apply in_or_app. left. apply (Hevs n uploadId size).
    apply in_or_app. right. left. reflexivity.
Qed.

Lemma parts_before_complete_app (planned : nat) (t evs : list Event) :
  parts_before_complete planned t ->
  (forall uploadId body,
     In (Sent (multipleBackendCompleteMPU uploadId body)) evs ->
     forall n, (n < planned)%nat ->
       exists data,
         In (Received (Part_answer n (Dest_answer (Succeed data)))) t) ->
  parts_before_complete planned (t ++ evs).
Proof.
  intros Ht Hevs pre uploadId body post Heq n Hn.
  apply split_app in Heq. destruct Heq as [(post' & ->) | (pre' & -> & ->)].
  - eapply Ht; [reflexivity|exact Hn].
  - destruct (Hevs uploadId body) with (n := n) as (data & Hin);
      [apply in_or_app; right; left; reflexivity|exact Hn|].
    exists data. apply in_or_app. left. exact Hin.
Qed.

Lemma parts_before_complete_none (planned : nat) (t : list Event) :
  (forall uploadId body,
     ~ In (Sent (multipleBackendCompleteMPU uploadId body)) t) ->
  parts_before_complete planned t.
Proof.
  intros Hno pre uploadId body post -> n Hn.
  exfalso. apply (Hno uploadId body). apply in_or_app. right. left.
  reflexivity.
Qed.

Lemma no_abort_app (t evs : list Event) :
  no_abort t ->
  (forall uploadId, ~ In (Sent (multipleBackendAbortMPU uploadId)) evs) ->
  no_abort (t ++ evs).
Proof.
  intros Ht Hevs uploadId Hin. apply in_app_or in Hin.
  destruct Hin as [Hin | Hin]; [exact (Ht _ Hin)|exact (Hevs _ Hin)].
Qed.

Lemma no_metadata_request_app (t evs : list Event) :
  no_metadata_request t ->
  (forall b k v, ~ In (Sent (getMetadata b k v)) evs) ->
  no_metadata_request (t ++ evs).
Proof.
  intros Ht Hevs b k v Hin. apply in_app_or in Hin.
  destruct Hin as [Hin | Hin]; [exact (Ht _ _ _ Hin)|exact (Hevs _ _ _ Hin)].
Qed.

(** The requests of starting iteratees carry the upload id, and are
    neither complete-MPU nor abort-MPU nor a metadata request. *)
Lemma part_request_put (uploadId u : string) (evs : list Event) (n : nat)
    (size : Z) :
  Forall (part_request uploadId) evs ->
  In (Sent (multipleBackendPutMPUPart n u size)) evs -> u = uploadId.
Proof.
  intros Hall Hin. rewrite Forall_forall in Hall.
  apply list_elem_of_In in Hin.
  destruct (Hall _ Hin) as [(range & H) | (n' & size' & H)]; congruence.
Qed.

Lemma part_request_other (uploadId : string) (evs : list Event)
    (ev : Event) :
  Forall (part_request uploadId) evs -> In ev evs ->
  match ev with
  | Sent (getObject _ _) | Sent (multipleBackendPutMPUPart _ _ _) => True
  | _ => False
  end.
Proof.
  intros Hall Hin. rewrite Forall_forall in Hall.
  apply list_elem_of_In in Hin.
  destruct (Hall _ Hin) as [(range & ->) | (n' & size' & ->)]; exact I.
Qed.

Lemma attempt_requests_part_request (range : option Range) (n : nat)
    (uploadId : string) :
  Forall (part_request uploadId) (attempt_requests range n uploadId).
Proof.
  unfold attempt_requests. apply Forall_app. split.
  - destruct (size_of range =? 0)%Z; [constructor|].
    constructor; [|constructor]. left. eexists. reflexivity.
  - constructor; [|constructor]. right. eexists _, _. reflexivity.
Qed.

(** *** Starting iteratees and finishing *)

Lemma replenish_S (fuel : nat) (uploadId : string) (s : State) :
  replenish (S fuel) uploadId s
  = if (running s <? MPU_CONC_LIMIT)%nat &&
       (length (parts s) <? length (ranges s))%nat
    then replenish fuel uploadId (launch uploadId s)
    else s.
Proof. reflexivity. Qed.

Lemma replenish_spec (fuel : nat) (uploadId : string) :
  forall s, exists k evs,
    replenish fuel uploadId s
    = {| phase := phase s; ranges := ranges s;
         parts := parts s ++ replicate k (Putting 0);
         called_back := called_back s; trace := trace s ++ evs |} /\
    Forall (part_request uploadId) evs.
Proof.
  induction fuel as [|fuel IH]; intros s.
  - exists 0%nat, []. simpl. rewrite !app_nil_r. destruct s.
    split; [reflexivity|constructor].
  - rewrite replenish_S. destruct (_ && _).
    + unfold launch at 1.
      destruct (ranges s !! length (parts s)) as [range|] eqn:Hr.
      * destruct (IH {| phase := phase s; ranges := ranges s;
                        parts := parts s ++ [Putting 0];
                        called_back := called_back s;
                        trace := trace s
                                 ++ attempt_requests range (length (parts s))
                                      uploadId |})
          as (k & evs & -> & Hevs).
        exists (S k), (attempt_requests range (length (parts s)) uploadId
                       ++ evs).
        simpl. rewrite <- !app_assoc. simpl.
        split; [reflexivity|].
        apply Forall_app. split;
          [apply attempt_requests_part_request|exact Hevs].
      * destruct (IH s) as (k & evs & -> & Hevs).
        exists k, evs. split; [reflexivity|exact Hevs].
    + exists 0%nat, []. simpl. rewrite !app_nil_r. destruct s.
      split; [reflexivity|constructor].
Qed.

Lemma finish_spec (uploadId : string) (s : State) :
  finish uploadId s = s \/
  (length (parts s) = length (ranges s) /\ running s = 0%nat /\
   exists body,
     finish uploadId s
     = {| phase := Completing uploadId; ranges := ranges s;
          parts := parts s; called_back := true;
          trace := trace s
                   ++ [Sent (multipleBackendCompleteMPU uploadId body)] |}).
Proof.
  unfold finish.
  destruct (Nat.eqb_spec (length (parts s)) (length (ranges s))) as [Hl|];
    [|left; reflexivity].
  destruct (Nat.eqb_spec (running s) 0) as [Hr|]; [|left; reflexivity].
  right. split; [exact Hl|]. split; [exact Hr|].
  eexists. reflexivity.
Qed.

Lemma running_zero (ps : list PartStatus) :
  length (filter (fun st => is_running st = true) ps) = 0%nat ->
  forall n st, ps !! n = Some st -> is_running st = false.
Proof.
  induction ps as [|p ps IH]; intros Hz n st Hn; [discriminate|].
  rewrite filter_cons in Hz.
  destruct (decide (is_running p = true)) as [Hp|Hp]; [discriminate|].
  destruct n as [|n]; simpl in Hn.
  - injection Hn as <-. destruct (is_running p); congruence.
  - exact (IH Hz n st Hn).
Qed.

(** *** The invariant is kept *)

Lemma quiet_not_sent (evs : list Event) (r : Request) :
  Forall quiet evs -> ~ In (Sent r) evs.
Proof.
  intros Hq Hin. rewrite Forall_forall in Hq.
  apply list_elem_of_In in Hin. exact (Hq _ Hin).
Qed.

Lemma Inv_quiet (s : State) (evs : list Event) :
  Forall quiet evs -> Inv cfg sourceEntry s ->
  Inv cfg sourceEntry (emit evs s).
Proof.
  intros Hq [Hnc Hibp Hik Hna Hnm Hsu Hfa Hpbc Haw Hpl].
  constructor; simpl.
  - exact Hnc.
  - apply init_before_parts_app; [exact Hibp|].
    intros n u size Hin. exfalso. exact (quiet_not_sent _ _ Hq Hin).
  - intros u Hu. apply in_or_app. left. exact (Hik u Hu).
  - apply no_abort_app; [exact Hna|]. intros u. apply quiet_not_sent, Hq.
  - apply no_metadata_request_app; [exact Hnm|].
    intros b k v. apply quiet_not_sent, Hq.
  - intros n res Hn. destruct (Hsu n res Hn) as (data & Hin).
    exists data. apply in_or_app. left. exact Hin.
  - exact Hfa.
  - apply parts_before_complete_app; [exact Hpbc|].
    intros u body Hin. exfalso. exact (quiet_not_sent _ _ Hq Hin).
  - intros Hp u body Hin. apply in_app_or in Hin.
    destruct Hin as [Hin | Hin];
      [exact (Haw Hp u body Hin)|exact (quiet_not_sent _ _ Hq Hin)].
  - destruct Hpl as [[Hno Hph] | Hplan]; [left|right; exact Hplan].
    split; [|exact Hph]. intros u body Hin. apply in_app_or in Hin.
    destruct Hin as [Hin | Hin];
      [exact (Hno u body Hin)|exact (quiet_not_sent _ _ Hq Hin)].
Qed.

Lemma Inv_final (s : State) (p : Phase) :
  p = Ended \/ p = Crashed -> Inv cfg sourceEntry s ->
  Inv cfg sourceEntry (set_phase p s).
Proof.
  intros Hp [[Hph Hparts] Hibp Hik Hna Hnm Hsu Hfa Hpbc Haw Hpl].
  constructor; simpl; try assumption.
  - split; [|exact Hparts]. intros cb. destruct Hp as [-> | ->]; discriminate.
  - intros u [Hu | Hu]; destruct Hp as [-> | ->]; discriminate.
  - intros Hu; destruct Hp as [-> | ->]; discriminate.
  - destruct Hpl as [[Hno _] | Hplan]; [left|right; exact Hplan].
    split; [exact Hno|]. intros u. destruct Hp as [-> | ->]; discriminate.
Qed.

Lemma Inv_requests (s : State) (uploadId : string) (evs : list Event) :
  phase s = Uploading uploadId -> Forall (part_request uploadId) evs ->
  Inv cfg sourceEntry s -> Inv cfg sourceEntry (emit evs s).
Proof.
  intros Hup Hreq [Hnc Hibp Hik Hna Hnm Hsu Hfa Hpbc Haw Hpl].
  constructor; simpl.
  - exact Hnc.
  - apply init_before_parts_app; [exact Hibp|].
    intros n u size Hin. rewrite (part_request_put _ _ _ _ _ Hreq Hin).
    apply Hik. left. exact Hup.
  - intros u Hu. apply in_or_app. left. exact (Hik u Hu).
  - apply no_abort_app; [exact Hna|]. intros u Hin.
    exact (part_request_other _ _ _ Hreq Hin).
  - apply no_metadata_request_app; [exact Hnm|]. intros b k v Hin.
    exact (part_request_other _ _ _ Hreq Hin).
  - intros n res Hn. destruct (Hsu n res Hn) as (data & Hin).
    exists data. apply in_or_app. left. exact Hin.
  - exact Hfa.
  - apply parts_before_complete_app; [exact Hpbc|].
    intros u body Hin. exfalso.
    exact (part_request_other _ _ _ Hreq Hin).
  - intros Hp. congruence.
  - destruct Hpl as [[_ Hph] | Hplan]; [|right; exact Hplan].
    exfalso. exact (Hph _ Hup).
Qed.

(** The status of a part changes to one that needs no evidence. *)
Lemma Inv_putting (s : State) (n attempt : nat) :
  Inv cfg sourceEntry s ->
  Inv cfg sourceEntry (set_part n (Putting attempt) s).
Proof.
  intros [[Hph Hparts] Hibp Hik Hna Hnm Hsu Hfa Hpbc Haw Hpl].
  constructor; simpl; try assumption.
  - split; [exact Hph|]. apply Forall_insert; [exact Hparts|exact I].
  - intros m res Hm. apply list_lookup_insert_Some in Hm.
    destruct Hm as [(_ & Hst & _) | (_ & Hm)]; [discriminate|].
    exact (Hsu m res Hm).
  - intros Hcb m err Hm. apply list_lookup_insert_Some in Hm.
    destruct Hm as [(_ & Hst & _) | (_ & Hm)]; [discriminate|].
    exact (Hfa Hcb m err Hm).
Qed.

Lemma Inv_started (s : State) (k : nat) :
  Inv cfg sourceEntry s ->
  Inv cfg sourceEntry
    {| phase := phase s; ranges := ranges s;
       parts := parts s ++ replicate k (Putting 0);
       called_back := called_back s; trace := trace s |}.
Proof.
  intros [[Hph Hparts] Hibp Hik Hna Hnm Hsu Hfa Hpbc Haw Hpl].
  constructor; simpl; try assumption.
  - split; [exact Hph|]. apply Forall_app. split; [exact Hparts|].
    apply Forall_replicate. exact I.
  - intros m res Hm. apply lookup_app_Some in Hm.
    destruct Hm as [Hm | (_ & Hm)]; [exact (Hsu m res Hm)|].
    apply lookup_replicate in Hm. destruct Hm as [Hst _]. discriminate.
  - intros Hcb m err Hm. apply lookup_app_Some in Hm.
    destruct Hm as [Hm | (_ & Hm)]; [exact (Hfa Hcb m err Hm)|].
    apply lookup_replicate in Hm. destruct Hm as [Hst _]. discriminate.
Qed.

Lemma Inv_succeeded (s : State) (n : nat) (res : option PartRes)
    (data : PartData) :
  In (Received (Part_answer n (Dest_answer (Succeed data)))) (trace s) ->
  Inv cfg sourceEntry s ->
  Inv cfg sourceEntry (set_part n (Succeeded res) s).
Proof.
  intros Hrecv [[Hph Hparts] Hibp Hik Hna Hnm Hsu Hfa Hpbc Haw Hpl].
  constructor; simpl; try assumption.
  - split; [exact Hph|]. apply Forall_insert; [exact Hparts|exact I].
  - intros m res' Hm. apply list_lookup_insert_Some in Hm.
    destruct Hm as [(<- & _ & _) | (_ & Hm)];
      [exists data; exact Hrecv|exact (Hsu m res' Hm)].
  - intros Hcb m err Hm. apply list_lookup_insert_Some in Hm.
    destruct Hm as [(_ & Hst & _) | (_ & Hm)]; [discriminate|].
    exact (Hfa Hcb m err Hm).
Qed.

Lemma Inv_failed (s : State) (n : nat) (err : Err) (evs : list Event) :
  Forall quiet evs -> Inv cfg sourceEntry s ->
  Inv cfg sourceEntry
    {| phase := phase s; ranges := ranges s;
       parts := <[n := Failed err]> (parts s);
       called_back := true; trace := trace s ++ evs |}.
Proof.
  intros Hq HI. apply (Inv_quiet s evs Hq) in HI.
  destruct HI as [[Hph Hparts] Hibp Hik Hna Hnm Hsu Hfa Hpbc Haw Hpl].
  simpl in *. constructor; simpl; try assumption.
  - split; [exact Hph|]. apply Forall_insert; [exact Hparts|exact I].
  - intros m res' Hm. apply list_lookup_insert_Some in Hm.
    destruct Hm as [(_ & Hst & _) | (_ & Hm)]; [discriminate|].
    exact (Hsu m res' Hm).
  - discriminate.
Qed.

Lemma Inv_finish (s : State) (uploadId : string) :
  phase s = Uploading uploadId -> called_back s = false ->
  Inv cfg sourceEntry s -> Inv cfg sourceEntry (finish uploadId s).
Proof.
  intros Hup Hcb HI.
  destruct (finish_spec uploadId s) as [-> | (Hlen & Hrun & body & ->)];
    [exact HI|].
  destruct HI as [[Hph Hparts] Hibp Hik Hna Hnm Hsu Hfa Hpbc Haw Hpl].
  assert (Hdone : forall n, (n < length (ranges s))%nat ->
            exists data,
              In (Received (Part_answer n (Dest_answer (Succeed data))))
                (trace s)).
  { intros n Hn. rewrite <- Hlen in Hn.
    apply lookup_lt_is_Some in Hn. destruct Hn as [st Hst].
    pose proof (running_zero _ Hrun n st Hst) as Hidle.
    destruct st as [a|cb|a c|res|err]; try discriminate.
    - exact (Hsu n res Hst).
    - exfalso. exact (Hfa Hcb n err Hst). }
  constructor; simpl.
  - split; [discriminate|exact Hparts].
  - apply init_before_parts_app; [exact Hibp|].
    intros n u size [H | []]. discriminate.
  - intros u [Hu | Hu]; [discriminate|]. injection Hu as <-.
    apply in_or_app. left. apply Hik. left. exact Hup.
  - apply no_abort_app; [exact Hna|]. intros u [H | []]. discriminate.
  - apply no_metadata_request_app; [exact Hnm|].
    intros b k v [H | []]. discriminate.
  - intros n res Hn. destruct (Hsu n res Hn) as (data & Hin).
    exists data. apply in_or_app. left. exact Hin.
  - discriminate.
  - apply parts_before_complete_app; [exact Hpbc|].
    intros u body' _ n Hn. exact (Hdone n Hn).
  - discriminate.
  - destruct Hpl as [[_ Hno] | Hplan]; [|right; exact Hplan].
    exfalso. exact (Hno _ Hup).
Qed.

Lemma Inv_replenish (s : State) (uploadId : string) (fuel : nat) :
  phase s = Uploading uploadId ->
  Inv cfg sourceEntry s ->
  Inv cfg sourceEntry (replenish fuel uploadId s) /\
  phase (replenish fuel uploadId s) = Uploading uploadId /\
  called_back (replenish fuel uploadId s) = called_back s.
Proof.
  intros Hup HI.
  destruct (replenish_spec fuel uploadId s) as (k & evs & -> & Hreq).
  split; [|split; [exact Hup|reflexivity]].
  apply (Inv_started (emit evs s) k).
  exact (Inv_requests s uploadId evs Hup Hreq HI).
Qed.

Lemma Inv_next (s : State) (n : nat) (call : NextCall) (uploadId : string) :
  phase s = Uploading uploadId ->
  (fst call = None ->
   exists data,
     In (Received (Part_answer n (Dest_answer (Succeed data)))) (trace s)) ->
  Inv cfg sourceEntry s -> Inv cfg sourceEntry (next n call uploadId s).
Proof.
  intros Hup Hrecv HI. destruct call as [[err|] res]; unfold next; simpl.
  - destruct (called_back s) eqn:Hcb.
    + pose proof (Inv_failed s n err [] ltac:(constructor) HI) as HI'.
      rewrite app_nil_r in HI'. unfold set_part. rewrite Hcb. exact HI'.
    + apply (Inv_failed s n err [Callback (Some (set_origin source err))]);
        [|exact HI].
      constructor; [exact I|constructor].
  - destruct (Hrecv eq_refl) as (data & Hin).
    pose proof (Inv_succeeded s n res data Hin HI) as HI'.
    destruct (called_back s) eqn:Hcb; [exact HI'|].
    destruct (Inv_replenish (set_part n (Succeeded res) s) uploadId
                MPU_CONC_LIMIT Hup HI') as (HI'' & Hup' & Hcb').
    apply Inv_finish; [exact Hup'|exact (eq_trans Hcb' Hcb)|exact HI''].
Qed.

Lemma putMPUPart_quiet (size : Z) (r : PartAttempt) (evs : list Event)
    (res : Response PartData) :
  _putMPUPart size r = Some (evs, res) -> Forall quiet evs.
Proof.
  unfold _putMPUPart. destruct r as [err|err|[err|data]]; simpl;
    try (destruct (size =? 0)%Z; [discriminate|]);
    intros [= <- <-]; repeat constructor.
Qed.

Lemma putMPUPart_succeeded (size : Z) (r : PartAttempt) (evs : list Event)
    (data : PartData) :
  _putMPUPart size r = Some (evs, Succeed data) ->
  r = Dest_answer (Succeed data).
Proof.
  unfold _putMPUPart. destruct r as [err|err|[err|data']]; simpl;
    try (destruct (size =? 0)%Z; discriminate); try discriminate.
  intros [= _ <-]. reflexivity.
Qed.

Lemma Inv_Step (s s' : State) (i : Input) :
  Step cfg sourceEntry s i s' -> Inv cfg sourceEntry s ->
  Inv cfg sourceEntry s'.
Proof.
  intros HS HI. destruct HS.
  - apply Inv_final; [left; reflexivity|].
    apply Inv_quiet; [repeat constructor|].
    apply Inv_quiet; [repeat constructor|exact HI].
  - pose (s0 := {| phase := Uploading uploadId; ranges := rs; parts := [];
                   called_back := false;
                   trace :=
                     (trace s ++ [Received (Initiate_answer (Succeed uploadId))])
                     ++ [Metrics (metricsTypeQueued
                                    (getContentLength sourceEntry))] |}).
    assert (HI0 : Inv cfg sourceEntry s0).
    { destruct HI as [[Hph Hparts] Hibp Hik Hna Hnm Hsu Hfa Hpbc Haw Hpl].
      assert (Hnocomplete : forall u body,
                ~ In (Sent (multipleBackendCompleteMPU u body)) (trace s0)).
      { intros u body Hin. simpl in Hin. rewrite <- app_assoc in Hin.
        apply in_app_or in Hin. destruct Hin as [Hin | Hin].
        - exact (Haw H u body Hin).
        - simpl in Hin. destruct Hin as [Hin | [Hin | []]]; discriminate. }
      constructor; simpl.
      - split; [discriminate|constructor].
      - rewrite <- app_assoc. apply init_before_parts_app; [exact Hibp|].
        intros n u size [Hin | [Hin | []]]; discriminate.
      - intros u [[= <-] | Hu]; [|discriminate].
        apply in_or_app. left. apply in_or_app. right. left. reflexivity.
      - rewrite <- app_assoc. apply no_abort_app; [exact Hna|].
        intros u [Hin | [Hin | []]]; discriminate.
      - rewrite <- app_assoc. apply no_metadata_request_app; [exact Hnm|].
        intros b k v [Hin | [Hin | []]]; discriminate.
      - intros n res Hn. rewrite lookup_nil in Hn. discriminate.
      - intros _ n err Hn. rewrite lookup_nil in Hn. discriminate.
      - apply parts_before_complete_none. exact Hnocomplete.
      - discriminate.
      - right. assumption. }
    destruct (Inv_replenish s0 uploadId MPU_CONC_LIMIT eq_refl HI0)
      as (HI1 & Hup1 & Hcb1).
    apply Inv_finish; [exact Hup1|exact Hcb1|exact HI1].
  - apply Inv_putting.
    apply (Inv_requests _ uploadId);
      [assumption|apply attempt_requests_part_request|].
    apply Inv_quiet; [|exact HI].
    constructor; [exact I|]. eapply putMPUPart_quiet. eassumption.
  - apply Inv_final; [right; reflexivity|].
    apply Inv_quiet; [repeat constructor|].
    apply Inv_quiet; [|exact HI].
    constructor; [exact I|]. eapply putMPUPart_quiet. eassumption.
  - apply Inv_next; [assumption|discriminate|].
    apply Inv_quiet; [|exact HI].
    constructor; [exact I|]. eapply putMPUPart_quiet. eassumption.
  - apply Inv_next; [assumption| |].
    + intros _. exists data. simpl. apply in_or_app. right. left.
      rewrite (putMPUPart_succeeded _ _ _ _ H2). reflexivity.
    + apply Inv_quiet; [|exact HI].
      constructor; [exact I|]. eapply putMPUPart_quiet. eassumption.
  - apply Inv_final; [left; reflexivity|].
    apply Inv_quiet; [|exact HI].
    constructor; [exact I|]. apply Forall_app. split.
    + destruct r as [err|v]; repeat constructor.
    + repeat constructor.
Qed.

Lemma Inv_run (inputs : list Input) :
  forall s s',
    Inv cfg sourceEntry s -> run cfg sourceEntry s inputs = Some s' ->
    Inv cfg sourceEntry s'.
Proof.
  induction inputs as [|i inputs IH]; intros s s' HI Hrun; simpl in Hrun.
  - injection Hrun as <-. exact HI.
  - destruct (step cfg sourceEntry s i) as [s1|] eqn:Hstep; [|discriminate].
    simpl in Hrun. apply (IH s1 s'); [|exact Hrun].
    eapply Inv_Step; [|exact HI].
    apply step_Step; [exact (inv_no_check _ _ _ HI)|exact Hstep].
Qed.

Lemma Inv_sendInitiateMPU : Inv cfg sourceEntry (_sendInitiateMPU cfg init).
Proof.
  assert (Hsent : forall r, In (Sent r)
            (trace (_sendInitiateMPU cfg init)) ->
            r = multipleBackendInitiateMPU).
  { intros r. simpl. destruct (isAzure cfg); simpl; [intros []|].
    intros [[= <-] | []]. reflexivity. }
  constructor.
  - split; [discriminate|constructor].
  - intros pre n u size post Heq.
    assert (Hin : In (Sent (multipleBackendPutMPUPart n u size))
                    (trace (_sendInitiateMPU cfg init)))
      by (rewrite Heq; apply in_or_app; right; left; reflexivity).
    apply Hsent in Hin. discriminate.
  - intros u [Hu | Hu]; discriminate.
  - intros u Hin. apply Hsent in Hin. discriminate.
  - intros b k v Hin. apply Hsent in Hin. discriminate.
  - intros n res Hn. simpl in Hn. rewrite lookup_nil in Hn. discriminate.
  - intros _ n err Hn. simpl in Hn. rewrite lookup_nil in Hn. discriminate.
  - apply parts_before_complete_none. intros u body Hin.
    apply Hsent in Hin. discriminate.
  - intros _ u body Hin. apply Hsent in Hin. discriminate.
  - left. split; [|discriminate]. intros u body Hin.
    apply Hsent in Hin. discriminate.
Qed.

End MpuFacts.

(** C3, as stated, fails in its third part: a 1-byte object that is not
    on NFS, whose only part fails with an error that is not retryable. The
    task calls back with the error and no abort-MPU is sent. *)
Lemma part_failure_without_abort_counterexample :
  let sourceEntry := Samples.object_entry 1 false Js.VUndefined [] in
  exists s,
    MultipleBackendTask.run Samples.aws_site sourceEntry
      (MultipleBackendTask._sendInitiateMPU Samples.aws_site
         MultipleBackendTask.init) Samples.part_fails = Some s /\
    MultipleBackendTask.trace s
    = [MultipleBackendTask.Sent
         MultipleBackendTask.multipleBackendInitiateMPU;
       MultipleBackendTask.Received
         (MultipleBackendTask.Initiate_answer (Errors.Succeed "upload-1"));
       MultipleBackendTask.Metrics (MultipleBackendTask.metricsTypeQueued 1);
       MultipleBackendTask.Sent
         (MultipleBackendTask.getObject
            (Some {| start := 0; end_ := 0 |}) None);
       MultipleBackendTask.Sent
         (MultipleBackendTask.multipleBackendPutMPUPart 1 "upload-1" 1);
       MultipleBackendTask.Received
         (MultipleBackendTask.Part_answer 0
            (MultipleBackendTask.Dest_answer
               (Errors.Fail Samples.bad_request)));
       MultipleBackendTask.Callback
         (Some (Errors.set_origin Errors.source Samples.bad_request))] /\
    ~ MultipleBackendTask.abort_on_part_failure (MultipleBackendTask.trace s).
Proof.
  intros sourceEntry. eexists. split; [vm_compute; reflexivity|].
  split; [reflexivity|].
  intros Habort.
  destruct (Habort 0%nat Samples.bad_request
              (Some (Errors.set_origin Errors.source Samples.bad_request)))
    as (uploadId & Hin).
  - simpl. do 5 right. left. reflexivity.
  - reflexivity.
  - simpl. do 6 right. left. reflexivity.
  - simpl in Hin.
    repeat (destruct Hin as [Hin | Hin]; [discriminate|]). exact Hin.
Qed.

(** C3, amended. In every run of [_sendInitiateMPU]: each
    [multipleBackendPutMPUPart] is sent after the answer of init-MPU that
    brought its upload id; complete-MPU is sent only after every part the
    planner planned was answered with success; and for an entry that is
    not on NFS no abort-MPU is sent at all: when a part fails with an error
    that is not retryable the part's answer is followed by the callback
    with that error, tagged origin source, unless the callback was called
    already. *)
Theorem mpu_order (cfg : MultipleBackendTask.Config)
    (sourceEntry : Entry.ObjectQueueEntry)
    (inputs : list MultipleBackendTask.Input)
    (s : MultipleBackendTask.State) :
  MultipleBackendTask.run cfg sourceEntry
    (MultipleBackendTask._sendInitiateMPU cfg MultipleBackendTask.init)
    inputs = Some s ->
  MultipleBackendTask.init_before_parts (MultipleBackendTask.trace s) /\
  (forall rs,
     _getRanges (planner_fuel (Entry.getContentLength sourceEntry))
       (Entry.getContentLength sourceEntry) (MultipleBackendTask.isGCP cfg)
     = Some rs ->
     MultipleBackendTask.parts_before_complete (length rs)
       (MultipleBackendTask.trace s)) /\
  (Entry.getReplicationIsNFS sourceEntry = false ->
   MultipleBackendTask.no_abort (MultipleBackendTask.trace s) /\
   forall uploadId n attempt range r evs err,
     MultipleBackendTask.phase s = MultipleBackendTask.Uploading uploadId ->
     MultipleBackendTask.parts s !! n
       = Some (MultipleBackendTask.Putting attempt) ->
     MultipleBackendTask.ranges s !! n = Some range ->
     MultipleBackendTask._putMPUPart (MultipleBackendTask.size_of range) r
       = Some (evs, Errors.Fail err) ->
     Errors.retryable err = false ->
     exists s',
       MultipleBackendTask.step cfg sourceEntry s
         (MultipleBackendTask.Part_answer n r) = Some s' /\
       MultipleBackendTask.no_abort (MultipleBackendTask.trace s') /\
       MultipleBackendTask.trace s'
       = MultipleBackendTask.trace s
         ++ MultipleBackendTask.Received
              (MultipleBackendTask.Part_answer n r)
            :: (if MultipleBackendTask.called_back s then []
                else [MultipleBackendTask.Callback
                        (Some (Errors.set_origin Errors.source err))])).
Proof.
  intros Hrun.
  pose proof (Inv_run cfg sourceEntry inputs _ s
                (Inv_sendInitiateMPU cfg sourceEntry) Hrun) as HI.
  split; [exact (MultipleBackendTask.inv_init_before_parts _ _ _ HI)|].
  split.
  - intros rs Hrs.
    destruct (MultipleBackendTask.inv_planned _ _ _ HI) as [[Hno _] | Hplan].
    + apply parts_before_complete_none. exact Hno.
    + rewrite Hrs in Hplan. injection Hplan as ->.
      exact (MultipleBackendTask.inv_parts_before_complete _ _ _ HI).
  - intros Hnfs.
    split; [exact (MultipleBackendTask.inv_no_abort _ _ _ HI)|].
    intros uploadId n attempt range r evs err Hup Hn Hr Hput Hretry.
    assert (Hevs : evs = []).
    { revert Hput. unfold MultipleBackendTask._putMPUPart.
      destruct r as [e|e|[e|d]]; simpl;
        try (destruct (_ =? 0)%Z; [discriminate|]); congruence. }
    subst evs.
    assert (Hstep : MultipleBackendTask.step cfg sourceEntry s
                      (MultipleBackendTask.Part_answer n r)
                    = Some (MultipleBackendTask.next n (Some err, None)
                              uploadId
                              (MultipleBackendTask.emit
                                 [MultipleBackendTask.Received
                                    (MultipleBackendTask.Part_answer n r)]
                                 s))).
    { unfold MultipleBackendTask.step. rewrite Hup, Hn, Hr, Hput. simpl.
      unfold MultipleBackendTask.retries. rewrite Hretry. simpl.
      unfold MultipleBackendTask.deliver. rewrite Hnfs. reflexivity. }
    eexists. split; [exact Hstep|]. split.
    + apply (MultipleBackendTask.inv_no_abort cfg sourceEntry).
      apply (Inv_run cfg sourceEntry [MultipleBackendTask.Part_answer n r]
               s); [exact HI|].
      simpl. rewrite Hstep. reflexivity.
    + unfold MultipleBackendTask.next. simpl.
      destruct (MultipleBackendTask.called_back s); simpl.
      * reflexivity.
      * rewrite <- app_assoc. reflexivity.
Qed.

Lemma mpu_order_witness :
  let sourceEntry := Samples.object_entry 1 false Js.VUndefined [] in
  exists s,
    MultipleBackendTask.run Samples.aws_site sourceEntry
      (MultipleBackendTask._sendInitiateMPU Samples.aws_site
         MultipleBackendTask.init) Samples.part_succeeds = Some s /\
    MultipleBackendTask.init_before_parts (MultipleBackendTask.trace s) /\
    (forall rs,
       _getRanges (planner_fuel 1) 1 false = Some rs ->
       MultipleBackendTask.parts_before_complete (length rs)
         (MultipleBackendTask.trace s)).
Proof.
  intros sourceEntry. eexists. split; [vm_compute; reflexivity|].
  pose proof (mpu_order Samples.aws_site sourceEntry Samples.part_succeeds _
                ltac:(vm_compute; reflexivity)) as (H1 & H2 & _).
  split; [exact H1|exact H2].
Defined.

(** C4 on the code. For an entry on NFS the state check never runs:
    [_checkMPUState] throws before it asks for the source metadata, and so
    does the check at the start of [_getAndPutMultipartUploadOnce]. In every
    run of [_sendInitiateMPU] no metadata request and no abort-MPU is sent,
    and the end of an attempt on a part either starts another attempt or
    ends in the exception. *)
Theorem nfs_state_check_throws (cfg : MultipleBackendTask.Config)
    (sourceEntry : Entry.ObjectQueueEntry)
    (inputs : list MultipleBackendTask.Input)
    (s : MultipleBackendTask.State) :
  Entry.getReplicationIsNFS sourceEntry = true ->
  MultipleBackendTask.run cfg sourceEntry
    (MultipleBackendTask._sendInitiateMPU cfg MultipleBackendTask.init)
    inputs = Some s ->
  (forall uploadId (cb : option Errors.Err -> MultipleBackendTask.NextCall),
     MultipleBackendTask._checkMPUState sourceEntry uploadId cb
     = MultipleBackendTask.Threw MultipleBackendTask.TypeError) /\
  MultipleBackendTask._getAndPutMultipartUploadOnce cfg sourceEntry
  = MultipleBackendTask.crash MultipleBackendTask.TypeError
      MultipleBackendTask.init /\
  MultipleBackendTask.no_metadata_request (MultipleBackendTask.trace s) /\
  MultipleBackendTask.no_abort (MultipleBackendTask.trace s) /\
  forall n r s',
    MultipleBackendTask.step cfg sourceEntry s
      (MultipleBackendTask.Part_answer n r) = Some s' ->
    (exists attempt,
       MultipleBackendTask.parts s' !! n
       = Some (MultipleBackendTask.Putting (S attempt))) \/
    (MultipleBackendTask.phase s' = MultipleBackendTask.Crashed /\
     exists evs,
       MultipleBackendTask.trace s'
       = MultipleBackendTask.trace s ++ evs
         ++ [MultipleBackendTask.Thrown MultipleBackendTask.TypeError]).
Proof.
  intros Hnfs Hrun.
  pose proof (Inv_run cfg sourceEntry inputs _ s
                (Inv_sendInitiateMPU cfg sourceEntry) Hrun) as HI.
  split; [intros; reflexivity|].
  split.
  { unfold MultipleBackendTask._getAndPutMultipartUploadOnce.
    rewrite Hnfs. reflexivity. }
  split; [exact (MultipleBackendTask.inv_no_metadata _ _ _ HI)|].
  split; [exact (MultipleBackendTask.inv_no_abort _ _ _ HI)|].
  intros n r s' Hstep.
  apply (step_Step cfg sourceEntry) in Hstep;
    [|exact (MultipleBackendTask.inv_no_check _ _ _ HI)].
  inversion Hstep; subst; try congruence.
  - left. exists attempt. simpl. apply list_lookup_insert_eq.
    eapply lookup_lt_Some. eassumption.
  - right. split; [reflexivity|]. eexists. simpl.
    rewrite <- app_assoc. reflexivity.
Qed.

Lemma nfs_state_check_throws_witness :
  let sourceEntry := Samples.object_entry 1 true Js.VUndefined [] in
  exists s,
    MultipleBackendTask.run Samples.aws_site sourceEntry
      (MultipleBackendTask._sendInitiateMPU Samples.aws_site
         MultipleBackendTask.init) Samples.part_is_put = Some s /\
    MultipleBackendTask.phase s = MultipleBackendTask.Crashed /\
    MultipleBackendTask.no_metadata_request (MultipleBackendTask.trace s) /\
    MultipleBackendTask.no_abort (MultipleBackendTask.trace s).
Proof.
  intros sourceEntry. eexists. split; [vm_compute; reflexivity|].
  split; [reflexivity|].
  pose proof (nfs_state_check_throws Samples.aws_site sourceEntry
                Samples.part_is_put _
                eq_refl ltac:(vm_compute; reflexivity))
    as (_ & _ & H1 & H2 & _).
  split; [exact H1|exact H2].
Defined.

(** ** More facts about the range planner *)

Section PlannerShapeFacts.
Import PlannerShape.

Lemma ranges_loop_full (L size : Z) (fuel : nat) :
  forall ranges start end_ ranges' start',
    ranges_loop fuel L size ranges start end_ = Some (ranges', start') ->
    Forall (fun r => range_size r = size) ranges ->
    Forall (fun r => range_size r = size) ranges'.
Proof.
  induction fuel as [|fuel IH]; intros ranges start end_ ranges' start' H Hall;
    [discriminate|].
  simpl in H. destruct (end_ <? L - 1).
  - destruct (start + size - 1 <? L - 1).
    + apply IH in H; [exact H|].
      apply Forall_app. split; [exact Hall|].
      constructor; [|constructor]. unfold range_size. simpl. lia.
    + apply IH in H; [exact H|exact Hall].
  - injection H as <- _. exact Hall.
Qed.

Lemma uniform_snoc (size : Z) (rs : list Range) (r : Range) :
  Forall (fun r => range_size r = size) rs ->
  1 <= range_size r <= size ->
  uniform size (rs ++ [r]).
Proof.
  induction rs as [|r0 rs IH]; intros Hall Hr; simpl; [exact Hr|].
  apply Forall_cons in Hall. destruct Hall as [H0 Hall].
  specialize (IH Hall Hr).
  destruct (rs ++ [r]) as [|r1 rest] eqn:Heq.
  - destruct rs; discriminate.
  - split; [exact H0|exact IH].
Qed.

Lemma part_size_returns (L : Z) (isGCP : bool) (fuel : nat) :
  1 <= L -> (planner_fuel L <= fuel)%nat ->
  exists size, part_size fuel L isGCP = Some size /\ 1 <= size /\
               L <= 10000 * size.
Proof.
  intros HL Hfuel. unfold part_size. destruct isGCP.
  - destruct (getGCPRangeSize_returns L fuel HL Hfuel)
      as (size & H & H1 & H2 & _). exists size. auto.
  - exact (getRangeSize_returns L fuel HL Hfuel).
Qed.

(** The ranges of an object of [L >= 1] bytes, with their number. *)
Lemma getRanges_shape (L : Z) (isGCP : bool) (fuel : nat) :
  1 <= L -> (planner_fuel L <= fuel)%nat ->
  exists (size : Z) (rs : list Range),
    part_size fuel L isGCP = Some size /\
    _getRanges fuel L isGCP = Some (Some <$> rs) /\
    uniform size rs /\
    Z.of_nat (length rs) = ceil_div L size.
Proof.
  intros HL Hfuel.
  destruct (part_size_returns L isGCP fuel HL Hfuel)
    as (size & Hsize & Hpos & Hmax).
  exists size. unfold _getRanges.
  destruct (Z.eqb_spec L 0) as [->|_]; [lia|].
  unfold part_size in Hsize. rewrite Hsize. simpl.
  destruct (ranges_loop_returns L size Hpos fuel [] 0 0)
    as (rs & st & Hloop & Hst & Hshort & Htiles & Hcount);
    [lia|reflexivity|simpl; lia|lia| |].
  { unfold planner_fuel in Hfuel.
    pose proof (Z.log2_up_nonneg L) as Hlog0.
    assert ((L - 1 - 0) / size < 10000)
      by (apply Z.div_lt_upper_bound; lia).
    lia. }
  rewrite Hloop. simpl.
  exists (rs ++ [{| start := st; end_ := L - 1 |}]).
  split; [exact Hsize|]. split; [reflexivity|]. split.
  - apply uniform_snoc.
    + exact (ranges_loop_full L size fuel [] 0 0 rs st Hloop (Forall_nil_2 _)).
    + unfold range_size. simpl. lia.
  - rewrite length_app. simpl length. unfold ceil_div.
    replace (L + size - 1) with (L - 1 - st + (Z.of_nat (length rs) + 1) * size)
      by lia.
    rewrite Z.div_add by lia.
    rewrite Z.div_small by lia. lia.
Qed.

(** What the two loops of [_getRangeSize] return. *)
Lemma grow_to_1000_result (L : Z) (fuel : nat) :
  forall rs r,
    0 < rs -> grow_to_1000 fuel L rs = Some r ->
    exists k : nat,
      r = rs * 2 ^ Z.of_nat k /\
      (L <= 1000 * r \/ 512 * MiB <= r) /\
      (k = 0%nat \/ (500 * r < L /\ r < 1024 * MiB)).
Proof.
  induction fuel as [|fuel IH]; intros rs r Hrs H; [discriminate|].
  simpl in H. destruct (quot_gt L rs 1000) eqn:Hq.
  - apply quot_gt_pos in Hq; [|exact Hrs].
    destruct (Z.leb_spec (512 * MiB) rs) as [Hbig|Hsmall].
    + injection H as <-. exists 0%nat. simpl. split; [lia|].
      split; [right; exact Hbig|left; reflexivity].
    + destruct (IH (rs * 2) r ltac:(lia) H) as (k & Hr & Hstop & Hmin).
      exists (S k). rewrite Nat2Z.inj_succ, Z.pow_succ_r by lia.
      split; [lia|]. split; [exact Hstop|]. right.
      destruct Hmin as [-> | Hmin]; [|exact Hmin].
      simpl in Hr. lia.
  - apply quot_gt_pos_false in Hq; [|exact Hrs].
    injection H as <-. exists 0%nat. simpl. split; [lia|].
    split; [left; exact Hq|left; reflexivity].
Qed.

Lemma grow_to_10000_result (L : Z) (fuel : nat) :
  forall rs r,
    0 < rs -> grow_to_10000 fuel L rs = Some r ->
    exists k : nat,
      r = rs * 2 ^ Z.of_nat k /\ L <= 10000 * r /\
      (k = 0%nat \/ 5000 * r < L).
Proof.
  induction fuel as [|fuel IH]; intros rs r Hrs H; [discriminate|].
  simpl in H. destruct (quot_gt L rs 10000) eqn:Hq.
  - apply quot_gt_pos in Hq; [|exact Hrs].
    destruct (IH (rs * 2) r ltac:(lia) H) as (k & Hr & Hstop & Hmin).
    exists (S k). rewrite Nat2Z.inj_succ, Z.pow_succ_r by lia.
    split; [lia|]. split; [exact Hstop|]. right.
    destruct Hmin as [-> | Hmin]; [|exact Hmin].
    simpl in Hr. lia.
  - apply quot_gt_pos_false in Hq; [|exact Hrs].
    injection H as <-. exists 0%nat. simpl. split; [lia|].
    split; [exact Hq|left; reflexivity].
Qed.

Lemma pow2_small (k : nat) : 2 ^ Z.of_nat k < 64 -> (k <= 5)%nat.
Proof.
  intros H. destruct (le_lt_dec k 5) as [Hk|Hk]; [exact Hk|exfalso].
  assert (2 ^ 6 <= 2 ^ Z.of_nat k) by (apply Z.pow_le_mono_r; lia).
  simpl in *. lia.
Qed.

Lemma pow2_le_32 (k : nat) : (k <= 5)%nat -> 2 ^ Z.of_nat k <= 32.
Proof.
  intros H. change 32 with (2 ^ 5). apply Z.pow_le_mono_r; lia.
Qed.

(** The generic part size of an object of more than 16 MiB. *)
Lemma getRangeSize_shape (L : Z) (fuel : nat) :
  16 * MiB < L -> (planner_fuel L <= fuel)%nat ->
  exists (k : nat) (size : Z),
    _getRangeSize fuel L = Some size /\
    size = 16 * MiB * 2 ^ Z.of_nat k /\
    (k = 0%nat \/ 500 * size < L) /\
    (L <= 1000 * (512 * MiB) -> L <= 1000 * size /\ size <= 512 * MiB) /\
    (L <= 10000 * (512 * MiB) -> size <= 512 * MiB).
Proof.
  intros Hlarge Hfuel.
  destruct (getRangeSize_returns L fuel ltac:(unfold MiB in *; lia) Hfuel)
    as (size & Hsize & _).
  pose proof Hsize as Hs. unfold _getRangeSize in Hs.
  destruct (Z.leb_spec L (16 * MiB)) as [|_]; [lia|].
  destruct (grow_to_1000 fuel L (16 * MiB)) as [r1|] eqn:H1; [|discriminate].
  simpl in Hs.
  destruct (grow_to_1000_result L fuel (16 * MiB) r1 eq_refl H1)
    as (k1 & Hr1 & Hstop1 & Hmin1).
  assert (Hp1 : 0 < 2 ^ Z.of_nat k1) by (apply Z.pow_pos_nonneg; lia).
  assert (Hr1pos : 0 < r1) by (unfold MiB in *; lia).
  destruct (grow_to_10000_result L fuel _ _ Hr1pos Hs)
    as (k2 & Hr2 & Hstop2 & Hmin2).
  assert (Hp2 : 0 < 2 ^ Z.of_nat k2) by (apply Z.pow_pos_nonneg; lia).
  assert (Hk1 : (k1 <= 5)%nat).
  { destruct Hmin1 as [-> | [_ Hlt]]; [lia|].
    apply pow2_small. unfold MiB in *. lia. }
  pose proof (pow2_le_32 k1 Hk1) as H32.
  exists (k1 + k2)%nat, size. split; [exact Hsize|].
  split; [rewrite Nat2Z.inj_add, Z.pow_add_r by lia; lia|].
  split.
  - destruct Hmin2 as [-> | Hmin2]; [|right; lia].
    simpl in Hr2. rewrite Z.mul_1_r in Hr2. subst size.
    destruct Hmin1 as [-> | [Hmin1 _]]; [left; reflexivity|right; exact Hmin1].
  - assert (Hcase : L <= 10000 * r1 -> size = r1).
    { intros Hle. destruct k2 as [|k2]; [simpl in Hr2; lia|].
      destruct Hmin2 as [Hk2 | Hmin2]; [discriminate|].
      rewrite Nat2Z.inj_succ, Z.pow_succ_r in Hr2 by lia.
      assert (0 < 2 ^ Z.of_nat k2) by (apply Z.pow_pos_nonneg; lia).
      assert (r1 * 1 <= r1 * 2 ^ Z.of_nat k2)
        by (apply Z.mul_le_mono_nonneg_l; lia).
      lia. }
    assert (Hr1max : r1 <= 512 * MiB) by (unfold MiB in *; lia).
    split.
    + intros Hmid.
      assert (L <= 1000 * r1)
        by (destruct Hstop1; unfold MiB in *; lia).
      rewrite (Hcase ltac:(lia)). split; assumption.
    + intros Hmid.
      assert (L <= 10000 * r1)
        by (destruct Hstop1; unfold MiB in *; lia).
      rewrite (Hcase ltac:(lia)). exact Hr1max.
Qed.

(** The GCP part size against the generic one. *)
Lemma getGCPRangeSize_shape (L : Z) (fuel : nat) :
  1 <= L -> (planner_fuel L <= fuel)%nat ->
  exists size gcpSize : Z,
    _getRangeSize fuel L = Some size /\
    _getGCPRangeSize fuel L = Some gcpSize /\
    (L <= 1024 * size -> gcpSize = size) /\
    (1024 * size < L ->
     size < gcpSize /\ 1024 * gcpSize = 2 ^ Z.log2_up L /\
     512 * gcpSize < L <= 1024 * gcpSize).
Proof.
  intros HL Hfuel.
  destruct (getRangeSize_returns L fuel HL Hfuel) as (size & Hsize & Hpos & _).
  exists size. unfold _getGCPRangeSize. rewrite Hsize. simpl.
  destruct (quot_gt L size MPU_GCP_MAX_PARTS) eqn:Hq.
  - apply quot_gt_pos in Hq; [|lia]. unfold MPU_GCP_MAX_PARTS in *.
    eexists. split; [reflexivity|]. split; [reflexivity|].
    split; [lia|]. intros _.
    assert (H1 : 1 < L) by lia.
    pose proof (Z.log2_up_spec L H1) as [Hlo Hhi].
    assert (Hk : 10 <= Z.log2_up L).
    { destruct (Z_lt_le_dec (Z.log2_up L) 10) as [Hlt|]; [|assumption].
      assert (2 ^ Z.log2_up L <= 2 ^ 9)
        by (apply Z.pow_le_mono_r; lia).
      simpl in *. lia. }
    unfold ceil_log2, ceil_div.
    replace (Z.log2_up L) with (Z.log2_up L - 10 + 10) in * by lia.
    rewrite Z.pow_add_r in * by lia. change (2 ^ 10) with 1024 in *.
    replace (Z.pred (Z.log2_up L - 10 + 10)) with (Z.log2_up L - 10 + 9)
      in Hlo by lia.
    rewrite Z.pow_add_r in Hlo by lia. change (2 ^ 9) with 512 in Hlo.
    replace (2 ^ (Z.log2_up L - 10) * 1024 + 1024 - 1)
      with (1023 + 2 ^ (Z.log2_up L - 10) * 1024) by lia.
    rewrite Z.div_add by lia. change (1023 / 1024) with 0.
    lia.
  - apply quot_gt_pos_false in Hq; [|lia]. unfold MPU_GCP_MAX_PARTS in *.
    exists size. split; [reflexivity|]. split; [reflexivity|].
    split; [reflexivity|lia].
Qed.

End PlannerShapeFacts.



(** X2. The generic part size of an object of more than 16 MiB is 16 MiB
    times a power of two, and no larger than needed: unless it is 16 MiB,
    the object has more than 500 parts of that size. It is at most 512 MiB
    for an object of up to 10000 times 512 MiB. *)
Theorem getRangeSize_power_of_two (L : Z) (fuel : nat) :
  16 * MiB < L -> (planner_fuel L <= fuel)%nat ->
  exists (k : nat) (size : Z),
    _getRangeSize fuel L = Some size /\
    size = 16 * MiB * 2 ^ Z.of_nat k /\
    (k = 0%nat \/ 500 * size < L) /\
    (L <= 10000 * (512 * MiB) -> size <= 512 * MiB).
Proof.
  intros Hlarge Hfuel.
  destruct (getRangeSize_shape L fuel Hlarge Hfuel)
    as (k & size & H1 & H2 & H3 & _ & H5).
  exists k, size. auto.
Qed.

Lemma getRangeSize_power_of_two_witness :
  exists (k : nat) (size : Z),
    _getRangeSize (planner_fuel (64 * 1024 * MiB)) (64 * 1024 * MiB)
      = Some size /\
    size = 16 * MiB * 2 ^ Z.of_nat k /\
    (k = 0%nat \/ 500 * size < 64 * 1024 * MiB) /\
    (64 * 1024 * MiB <= 10000 * (512 * MiB) -> size <= 512 * MiB).
Proof.
  apply (getRangeSize_power_of_two (64 * 1024 * MiB)
           (planner_fuel (64 * 1024 * MiB))).
  - vm_compute. reflexivity.
  - lia.
Defined.

(** X3. An object of more than 16 MiB and at most 1000 times 512 MiB is
    planned, for either destination family, as between 2 and 1000 ranges. *)
Theorem getRanges_2_to_1000 (L : Z) (isGCP : bool) (fuel : nat) :
  16 * MiB < L <= 1000 * (512 * MiB) -> (planner_fuel L <= fuel)%nat ->
  exists rs : list Range,
    _getRanges fuel L isGCP = Some (Some <$> rs) /\
    2 <= Z.of_nat (length rs) <= 1000.
Proof.
  intros [Hlarge Hmid] Hfuel.
  assert (HL : 1 <= L) by (unfold MiB in *; lia).
  destruct (getRangeSize_shape L fuel Hlarge Hfuel)
    as (k & size & Hsize & Hk & Hmin & Hfit & _).
  destruct (Hfit Hmid) as [Hfit1 _].
  assert (Hp : 0 < 2 ^ Z.of_nat k) by (apply Z.pow_pos_nonneg; lia).
  assert (Hlt : size < L).
  { destruct Hmin as [-> | Hmin]; [simpl in Hk; lia|unfold MiB in *; lia]. }
  destruct (getGCPRangeSize_shape L fuel HL Hfuel)
    as (size' & gsize & Hsize' & Hgsize & Hsame & _).
  rewrite Hsize in Hsize'. injection Hsize' as <-.
  specialize (Hsame ltac:(lia)). subst gsize.
  destruct (getRanges_shape L isGCP fuel HL Hfuel)
    as (sz & rs & Hsz & Hrs & _ & Hlen).
  assert (sz = size).
  { unfold PlannerShape.part_size in Hsz. destruct isGCP; congruence. }
  subst sz. exists rs. split; [exact Hrs|]. rewrite Hlen.
  assert (Hpos : 0 < size) by (unfold MiB in *; lia).
  unfold ceil_div. split.
  - apply Z.div_le_lower_bound; lia.
  - assert ((L + size - 1) / size < 1001)
      by (apply Z.div_lt_upper_bound; lia).
    lia.
Qed.

Lemma getRanges_2_to_1000_witness :
  exists rs : list Range,
    _getRanges (planner_fuel (40 * MiB)) (40 * MiB) true
      = Some (Some <$> rs) /\
    2 <= Z.of_nat (length rs) <= 1000.
Proof.
  apply (getRanges_2_to_1000 (40 * MiB) true (planner_fuel (40 * MiB))).
  - vm_compute. split; [reflexivity|discriminate].
  - lia.
Defined.



(** ** Facts about the flow of a replication *)

Section TaskFlowFacts.
Import Js Errors Entry MultipleBackendTask TaskFlow.

Lemma prefix_append (p s : string) :
  String.prefix p s = true <-> exists rest, s = (p +:+ rest)%string.
Proof.
  revert s. induction p as [|a p IH]; intros s; simpl.
  - split; [intros _; exists s; reflexivity|].
    intros _. destruct s; reflexivity.
  - destruct s as [|b s].
    + split; [discriminate|]. intros (rest & H). discriminate.
    + simpl. destruct (Ascii.ascii_dec a b) as [Hab | Hab].
      * subst b. rewrite IH. split; intros (rest & H); exists rest.
        -- rewrite H. reflexivity.
        -- injection H as H. exact H.
      * split; [discriminate|]. intros (rest & H). injection H as H _.
        congruence.
Qed.

Lemma includes_In (content : list string) (s : string) :
  includes content s = true <-> In s content.
Proof.
  unfold includes. rewrite existsb_exists. split.
  - intros (x & Hin & Heq). apply String.eqb_eq in Heq. subst x. exact Hin.
  - intros Hin. exists s. split; [exact Hin|apply String.eqb_refl].
Qed.

Lemma replicationEnabled_iff (entry : ObjectQueueEntry) (rules : list Rule) :
  existsb (fun rule =>
             String.eqb (Status rule) "Enabled" &&
             String.prefix (Prefix rule) (getObjectKey entry)) rules = true
  <-> exists rule rest,
        In rule rules /\ Status rule = "Enabled" /\
        getObjectKey entry = (Prefix rule +:+ rest)%string.
Proof.
  rewrite existsb_exists. split.
  - intros (rule & Hin & Hok). apply andb_true_iff in Hok.
    destruct Hok as [Hst Hpre]. apply String.eqb_eq in Hst.
    apply prefix_append in Hpre. destruct Hpre as (rest & Hrest).
    exists rule, rest. repeat split; assumption.
  - intros (rule & rest & Hin & Hst & Hkey). exists rule.
    split; [exact Hin|]. apply andb_true_iff. split.
    + apply String.eqb_eq. exact Hst.
    + apply prefix_append. exists rest. exact Hkey.
Qed.

Lemma skipped_outcome (err : Err) (e : ObjectQueueEntry) :
  PermanentSource err \/ SkippedState err ->
  _handleReplicationOutcome (Some err) e = ([], done_committable).
Proof.
  intros H. unfold _handleReplicationOutcome.
  destruct (BadRole err || _) eqn:Hperm; [reflexivity|].
  destruct H as [H | H].
  - apply permanent_source_test in H. congruence.
  - apply skipped_state_test in H. apply orb_true_iff in H.
    destruct H as [-> | ->]; [reflexivity|].
    destruct (ObjNotFound err || _); reflexivity.
Qed.

Lemma failed_outcome (err : Err) (e : ObjectQueueEntry) :
  ~ PermanentSource err -> ~ SkippedState err ->
  _handleReplicationOutcome (Some err) e
  = ([{| pub_entry := e; pub_status := FAILED;
         pub_reason := Some (description err) |}], done_not_committable).
Proof.
  intros Hp Hs. unfold _handleReplicationOutcome.
  destruct (BadRole err || _) eqn:Hperm.
  { exfalso. apply Hp. apply permanent_source_test. exact Hperm. }
  destruct (ObjNotFound err || _) eqn:Hnf.
  { exfalso. apply Hs. apply skipped_state_test. rewrite Hnf. reflexivity. }
  destruct (InvalidObjectState err || _) eqn:Hinv.
  { exfalso. apply Hs. apply skipped_state_test. rewrite Hinv.
    apply orb_true_r. }
  reflexivity.
Qed.

Lemma putObjects_app (evs evs' : list Event) :
  putObjects (evs ++ evs') = (putObjects evs + putObjects evs')%nat.
Proof. unfold putObjects. rewrite List.filter_app, length_app. reflexivity. Qed.

Lemma getAndPutPartOnce_plain (e : ObjectQueueEntry) (part : option Object) :
  getReplicationIsNFS e = false ->
  exists evs,
    _getAndPutPartOnce e part = (evs, Pending) /\ putObjects evs = 1%nat.
Proof.
  intros Hnfs. unfold _getAndPutPartOnce. rewrite Hnfs.
  eexists. split; [reflexivity|]. rewrite putObjects_app.
  destruct (not_zero _); reflexivity.
Qed.

Lemma getAndPutPartOnce_nfs (e : ObjectQueueEntry) (part : option Object) :
  getReplicationIsNFS e = true ->
  exists evs,
    _getAndPutPartOnce e part = (evs, Raised TypeError) /\
    putObjects evs = 0%nat.
Proof.
  intros Hnfs. unfold _getAndPutPartOnce. rewrite Hnfs.
  eexists. split; [reflexivity|]. rewrite putObjects_app.
  destruct (not_zero _); reflexivity.
Qed.

Lemma start_parts_plain (e : ObjectQueueEntry) (parts : list Object) :
  getReplicationIsNFS e = false ->
  exists evs,
    start_parts e parts = (evs, Pending) /\ putObjects evs = length parts.
Proof.
  intros Hnfs. induction parts as [|part parts IH]; simpl.
  - exists []. split; reflexivity.
  - destruct (getAndPutPartOnce_plain e (Some part) Hnfs) as (evs & -> & Hn).
    destruct IH as (evs' & -> & Hn').
    exists (evs ++ evs'). split; [reflexivity|].
    rewrite putObjects_app, Hn, Hn'. reflexivity.
Qed.

Lemma start_parts_nfs (e : ObjectQueueEntry) (part : Object)
    (parts : list Object) :
  getReplicationIsNFS e = true ->
  exists evs,
    start_parts e (part :: parts) = (evs, Raised TypeError) /\
    putObjects evs = 0%nat.
Proof.
  intros Hnfs. simpl.
  destruct (getAndPutPartOnce_nfs e (Some part) Hnfs) as (evs & -> & Hn).
  exists evs. split; [reflexivity|exact Hn].
Qed.

End TaskFlowFacts.

(** X5. The check of the replication configuration lets an object pass
    exactly when some rule is [Enabled] and its [Prefix] starts the object's
    key; otherwise it calls back with PreconditionFailed, described as
    replication disabled for object. *)
Theorem bucket_replication_rules (entry : Entry.ObjectQueueEntry)
    (rules : list TaskFlow.Rule) :
  let check :=
    TaskFlow._getBucketReplicationConfigurationOnce entry
      (Errors.Succeed rules) in
  (check = None <->
   exists rule rest,
     In rule rules /\ TaskFlow.Status rule = "Enabled" /\
     Entry.getObjectKey entry = (TaskFlow.Prefix rule +:+ rest)%string) /\
  (check <> None ->
   check = Some (Errors.customizeDescription Errors.TPreconditionFailed
                   "replication disabled for object")).
Proof.
  intros check. subst check.
  unfold TaskFlow._getBucketReplicationConfigurationOnce.
  rewrite <- replicationEnabled_iff.
  destruct (existsb _ rules); simpl; split;
    try (split; congruence); try congruence; try reflexivity.
Qed.

(** X6. When no enabled rule covers the object's key, no metadata is
    asked for and no operation starts: FAILED is published with the reason
    replication disabled for object, and the entry is not committable. *)
Theorem disabled_replication_published_failed
    (cfg : MultipleBackendTask.Config) (e : Entry.ObjectQueueEntry)
    (rules : list TaskFlow.Rule) (md : Errors.Response TaskFlow.MdBlob)
    (outcome : TaskFlow.Operation -> option Errors.Err) :
  (forall rule rest,
     In rule rules -> TaskFlow.Status rule = "Enabled" ->
     Entry.getObjectKey e <> (TaskFlow.Prefix rule +:+ rest)%string) ->
  TaskFlow._processReplicationEntry cfg e
    (TaskFlow._getBucketReplicationConfigurationOnce e (Errors.Succeed rules))
    md outcome
  = (None,
     ([{| MultipleBackendTask.pub_entry := e;
          MultipleBackendTask.pub_status := MultipleBackendTask.FAILED;
          MultipleBackendTask.pub_reason :=
            Some (Errors.DescribedAs "replication disabled for object") |}],
      MultipleBackendTask.done_not_committable)).
Proof.
  intros Hnone.
  unfold TaskFlow._getBucketReplicationConfigurationOnce.
  destruct (existsb _ rules) eqn:Hex.
  - exfalso. apply replicationEnabled_iff in Hex.
    destruct Hex as (rule & rest & Hin & Hst & Hkey).
    exact (Hnone rule rest Hin Hst Hkey).
  - reflexivity.
Qed.

Lemma disabled_replication_published_failed_witness :
  let e := Samples.object_entry 1 false Js.VUndefined [] in
  fst (TaskFlow._processReplicationEntry Samples.aws_site e
         (TaskFlow._getBucketReplicationConfigurationOnce e
            (Errors.Succeed
               [{| TaskFlow.Status := "Disabled"; TaskFlow.Prefix := "" |};
                {| TaskFlow.Status := "Enabled"; TaskFlow.Prefix := "x" |}]))
         (Errors.Succeed (TaskFlow.GoodBlob (Js.VString "PENDING")))
         (fun _ => None)) = None.
Proof.
  intros e.
  rewrite (disabled_replication_published_failed Samples.aws_site e
             [{| TaskFlow.Status := "Disabled"; TaskFlow.Prefix := "" |};
              {| TaskFlow.Status := "Enabled"; TaskFlow.Prefix := "x" |}]
             (Errors.Succeed (TaskFlow.GoodBlob (Js.VString "PENDING")))
             (fun _ => None)).
  - reflexivity.
  - intros rule rest [<- | [<- | []]] Hst Hkey; simpl in *; discriminate.
Defined.

(** X7. When the metadata request of [_processReplicationEntry] fails
    with ObjNotFound, no operation starts and the entry is skipped: nothing
    is published and [done()] is called, on NFS or not, delete marker or
    not. When the body of the answer does not parse, FAILED is published
    with the reason error parsing metadata blob. *)
Theorem missing_source_object_skipped (cfg : MultipleBackendTask.Config)
    (e : Entry.ObjectQueueEntry) (err : Errors.Err)
    (outcome : TaskFlow.Operation -> option Errors.Err) :
  (MultipleBackendTask.named err Errors.ObjNotFound "ObjNotFound" ->
   TaskFlow._processReplicationEntry cfg e None (Errors.Fail err) outcome
   = (None, ([], MultipleBackendTask.done_committable))) /\
  TaskFlow._processReplicationEntry cfg e None
    (Errors.Succeed TaskFlow.BadBlob) outcome
  = (None,
     ([{| MultipleBackendTask.pub_entry := e;
          MultipleBackendTask.pub_status := MultipleBackendTask.FAILED;
          MultipleBackendTask.pub_reason :=
            Some (Errors.DescribedAs "error parsing metadata blob") |}],
      MultipleBackendTask.done_not_committable)).
Proof.
  split; [|reflexivity].
  intros Hnf. unfold TaskFlow._processReplicationEntry, TaskFlow.fetch_step.
  destruct (_ && _ && _); [reflexivity|].
  rewrite skipped_outcome; [reflexivity|]. right. left. exact Hnf.
Qed.

Lemma missing_source_object_skipped_witness :
  TaskFlow._processReplicationEntry Samples.aws_site
    (Samples.object_entry 1 true Js.VUndefined [])
    None (Errors.Fail (Errors.errors Errors.TObjNotFound)) (fun _ => None)
  = (None, ([], MultipleBackendTask.done_committable)).
Proof.
  apply (missing_source_object_skipped Samples.aws_site
           (Samples.object_entry 1 true Js.VUndefined [])
           (Errors.errors Errors.TObjNotFound) (fun _ => None)).
  left. reflexivity.
Defined.

(** X8. Once the configuration and the metadata are there, a delete
    marker always goes to [_putDeleteMarker]. Any other entry that is not
    already replicated goes to exactly one operation, by its replication
    content: MPU before PUT_TAGGING before DELETE_TAGGING, and the data path
    when none of them is listed. What the operation ends with is handed to
    [_handleReplicationOutcome]. *)
Theorem replication_dispatch (cfg : MultipleBackendTask.Config)
    (e : Entry.ObjectQueueEntry) (status : Js.Value)
    (outcome : TaskFlow.Operation -> option Errors.Err) :
  let content := Entry.getReplicationContent e in
  let started op :=
    TaskFlow._processReplicationEntry cfg e None
      (Errors.Succeed (TaskFlow.GoodBlob status)) outcome
    = (Some op, MultipleBackendTask._handleReplicationOutcome (outcome op) e)
  in
  (Entry.getIsDeleteMarker e = true -> started TaskFlow.op_putDeleteMarker) /\
  (Entry.getIsDeleteMarker e = false ->
   ~ (status = Js.VString "COMPLETED" /\ In "DATA" content) ->
   (In "MPU" content -> started TaskFlow.op_getAndPutMultipartUpload) /\
   (~ In "MPU" content -> In "PUT_TAGGING" content ->
    started TaskFlow.op_putObjectTagging) /\
   (~ In "MPU" content -> ~ In "PUT_TAGGING" content ->
    In "DELETE_TAGGING" content -> started TaskFlow.op_deleteObjectTagging) /\
   (~ In "MPU" content -> ~ In "PUT_TAGGING" content ->
    ~ In "DELETE_TAGGING" content -> started TaskFlow.op_getAndPutData)).
Proof.
  intros content started. subst started content.
  unfold TaskFlow._processReplicationEntry, TaskFlow.fetch_step,
    TaskFlow.dispatch.
  split; [intros ->; reflexivity|].
  intros -> Hnot.
  assert (Hskip : TaskFlow.is_COMPLETED status &&
                  TaskFlow.includes (Entry.getReplicationContent e) "DATA"
                  = false).
  { apply not_true_is_false. intros H. apply andb_true_iff in H.
    destruct H as [Hc Hd]. apply Hnot. split.
    - destruct status as [| |b|z|s]; try discriminate.
      simpl in Hc. apply String.eqb_eq in Hc. rewrite Hc. reflexivity.
    - apply includes_In. exact Hd. }
  rewrite Hskip.
  destruct (TaskFlow.includes _ "MPU") eqn:Hmpu.
  { apply includes_In in Hmpu. repeat split; try reflexivity;
      intros; contradiction. }
  assert (Hnmpu : ~ In "MPU" (Entry.getReplicationContent e)).
  { intros H. apply includes_In in H. congruence. }
  destruct (TaskFlow.includes _ "PUT_TAGGING") eqn:Hput.
  { apply includes_In in Hput. repeat split; try reflexivity;
      intros; contradiction. }
  assert (Hnput : ~ In "PUT_TAGGING" (Entry.getReplicationContent e)).
  { intros H. apply includes_In in H. congruence. }
  destruct (TaskFlow.includes _ "DELETE_TAGGING") eqn:Hdel.
  { apply includes_In in Hdel. repeat split; try reflexivity;
      intros; contradiction. }
  assert (Hndel : ~ In "DELETE_TAGGING" (Entry.getReplicationContent e)).
  { intros H. apply includes_In in H. congruence. }
  repeat split; try reflexivity; intros; contradiction.
Qed.

Lemma replication_dispatch_witness :
  fst (TaskFlow._processReplicationEntry Samples.aws_site
         (Samples.object_entry 1 false Js.VUndefined [])
         None (Errors.Succeed (TaskFlow.GoodBlob (Js.VString "PENDING")))
         (fun _ => None))
  = Some TaskFlow.op_getAndPutData.
Proof.
  pose proof (replication_dispatch Samples.aws_site
                (Samples.object_entry 1 false Js.VUndefined [])
                (Js.VString "PENDING") (fun _ => None)) as [_ H].
  destruct (H eq_refl) as (_ & _ & _ & Hdata).
  - intros [Hc _]. discriminate.
  - rewrite Hdata; [reflexivity| | |];
      intros [H' | []]; discriminate.
Defined.

(** X9. An object whose status on the site is already COMPLETED and whose
    replication content lists DATA is skipped before any operation starts,
    whatever else the content lists: nothing is published and [done()] is
    called. *)
Theorem completed_data_skipped (cfg : MultipleBackendTask.Config)
    (e : Entry.ObjectQueueEntry)
    (outcome : TaskFlow.Operation -> option Errors.Err) :
  Entry.getIsDeleteMarker e = false ->
  In "DATA" (Entry.getReplicationContent e) ->
  TaskFlow._processReplicationEntry cfg e None
    (Errors.Succeed (TaskFlow.GoodBlob (Js.VString "COMPLETED"))) outcome
  = (None, ([], MultipleBackendTask.done_committable)).
Proof.
  intros Hdm Hdata. apply includes_In in Hdata.
  unfold TaskFlow._processReplicationEntry, TaskFlow.fetch_step,
    TaskFlow.dispatch.
  rewrite Hdm, Hdata. reflexivity.
Qed.

Lemma completed_data_skipped_witness :
  TaskFlow._processReplicationEntry Samples.aws_site
    (Samples.object_entry 1 false Js.VUndefined [])
    None (Errors.Succeed (TaskFlow.GoodBlob (Js.VString "COMPLETED")))
    (fun _ => None)
  = (None, ([], MultipleBackendTask.done_committable)).
Proof.
  apply (completed_data_skipped Samples.aws_site
           (Samples.object_entry 1 false Js.VUndefined []) (fun _ => None)).
  - reflexivity.
  - left. reflexivity.
Defined.

(** X10. When the destination answers NoSuchEntity or AccessDenied to
    put-object, complete-MPU or delete-object, the error is tagged as of
    the source and the entry is skipped: nothing is published. The same
    answer to a tagging request is handed on untagged, and FAILED is
    published for it. *)
Theorem destination_denial_skipped_except_tagging
    (e : Entry.ObjectQueueEntry) (err : Errors.Err) (size : Js.Value) :
  MultipleBackendTask.named err Errors.NoSuchEntity "NoSuchEntity" \/
  MultipleBackendTask.named err Errors.AccessDenied "AccessDenied" ->
  let skipped r :=
    MultipleBackendTask._handleReplicationOutcome r e
    = ([], MultipleBackendTask.done_committable) in
  skipped (snd (MultipleBackendTask._sendMultipleBackendPutObject_send size
                  (Errors.Fail err))) /\
  skipped (snd (MultipleBackendTask._completeMPU_send (Errors.Fail err))) /\
  skipped (TaskFlow._sendMultipleBackendDeleteObject_send (Errors.Fail err)) /\
  (Errors.BadRole err = false -> Errors.origin err <> Some Errors.source ->
   ~ MultipleBackendTask.SkippedState err ->
   MultipleBackendTask._handleReplicationOutcome
     (snd (TaskFlow.tagging_send (Errors.Fail err))) e
   = ([{| MultipleBackendTask.pub_entry := e;
          MultipleBackendTask.pub_status := MultipleBackendTask.FAILED;
          MultipleBackendTask.pub_reason := Some (Errors.description err) |}],
      MultipleBackendTask.done_not_committable)).
Proof.
  intros Hden skipped. subst skipped.
  unfold MultipleBackendTask._sendMultipleBackendPutObject_send,
    MultipleBackendTask._completeMPU_send,
    TaskFlow._sendMultipleBackendDeleteObject_send, TaskFlow.tagging_send.
  cbn [snd].
  assert (Hperm : MultipleBackendTask.PermanentSource
                    (Errors.set_origin Errors.source err)).
  { right. split; [reflexivity|]. exact Hden. }
  split; [apply skipped_outcome; left; exact Hperm|].
  split; [apply skipped_outcome; left; exact Hperm|].
  split; [apply skipped_outcome; left; exact Hperm|].
  intros Hbr Ho Hs. apply failed_outcome; [|exact Hs].
  intros [Hb | [Ho' _]]; congruence.
Qed.

Lemma destination_denial_skipped_except_tagging_witness :
  let e := Samples.object_entry 1 false Js.VUndefined [] in
  let err :=
    Errors.mkErr (Errors.CodeString "AccessDenied") (Some 403) false None
      Errors.NoDescription false false false false false false false in
  MultipleBackendTask._handleReplicationOutcome
    (snd (MultipleBackendTask._completeMPU_send (Errors.Fail err))) e
  = ([], MultipleBackendTask.done_committable) /\
  fst (MultipleBackendTask._handleReplicationOutcome
         (snd (TaskFlow.tagging_send (Errors.Fail err))) e) <> [].
Proof.
  intros e err.
  pose proof (destination_denial_skipped_except_tagging e err Js.VUndefined)
    as H.
  destruct H as (_ & Hc & _ & Ht).
  - right. right. reflexivity.
  - split; [exact Hc|]. rewrite Ht; [discriminate|reflexivity|discriminate|].
    intros [[H | H] | [H | H]]; discriminate.
Defined.

(** X11. For an entry on NFS the data path and the delete-marker path end
    in the exception of the state check: [_getAndPutData] sends no
    put-object, and [_putDeleteMarkerOnce] sends no delete-object. *)
Theorem nfs_data_and_delete_throw (e : Entry.ObjectQueueEntry) :
  Entry.getReplicationIsNFS e = true ->
  (forall part,
     In part (Entry.getLocation e) ->
     Js.is_undefined part "dataStoreETag" = false) ->
  (exists evs,
     MultipleBackendTask._getAndPutData e
     = (evs, MultipleBackendTask.Raised MultipleBackendTask.TypeError) /\
     TaskFlow.putObjects evs = 0%nat) /\
  TaskFlow._putDeleteMarkerOnce e
  = TaskFlow.Delete_threw MultipleBackendTask.TypeError.
Proof.
  intros Hnfs Hall. split.
  - assert (Hnone : existsb (fun part => Js.is_undefined part "dataStoreETag")
                      (Entry.getLocation e) = false).
    { apply not_true_is_false. intros H. apply existsb_undefined in H.
      destruct H as (part & Hin & Hm). rewrite (Hall part Hin) in Hm.
      discriminate. }
    unfold MultipleBackendTask._getAndPutData. rewrite Hnone.
    destruct (Entry.getReducedLocations e) as [|part parts] eqn:Hloc.
    + exact (getAndPutPartOnce_nfs e None Hnfs).
    + change (take MultipleBackendTask.MPU_CONC_LIMIT (part :: parts))
        with (part :: take 9 parts).
      destruct (start_parts_nfs e part (take 9 parts) Hnfs)
        as (evs & Hsp & Hn).
      change (length (part :: parts) =? 0)%nat with false. cbv iota.
      rewrite Hsp. eexists. split; [reflexivity|exact Hn].
  - unfold TaskFlow._putDeleteMarkerOnce. rewrite Hnfs. reflexivity.
Qed.

Lemma nfs_data_and_delete_throw_witness :
  let e :=
    Samples.object_entry 2048 true Js.VUndefined
      [Samples.part_with_etag; Samples.part_with_etag] in
  snd (MultipleBackendTask._getAndPutData e)
  = MultipleBackendTask.Raised MultipleBackendTask.TypeError.
Proof.
  intros e.
  destruct (nfs_data_and_delete_throw e) as [(evs & Hd & _) _].
  - reflexivity.
  - intros part [<- | [<- | []]]; vm_compute; reflexivity.
  - rewrite Hd. reflexivity.
Defined.

(** X12. For an entry that is not on NFS and whose parts all have a
    [dataStoreETag], [_getAndPutData] starts put-object once when there are
    no part locations (a metadata-only operation), and otherwise once for
    each of the first [MPU_CONC_LIMIT] part locations; it then waits for
    the answers. *)
Theorem data_path_put_requests (e : Entry.ObjectQueueEntry) :
  Entry.getReplicationIsNFS e = false ->
  (forall part,
     In part (Entry.getLocation e) ->
     Js.is_undefined part "dataStoreETag" = false) ->
  exists evs,
    MultipleBackendTask._getAndPutData e
    = (evs, MultipleBackendTask.Pending) /\
    TaskFlow.putObjects evs
    = Nat.max 1 (Nat.min MultipleBackendTask.MPU_CONC_LIMIT
                   (length (Entry.getReducedLocations e))).
Proof.
  intros Hnfs Hall.
  assert (Hnone : existsb (fun part => Js.is_undefined part "dataStoreETag")
                    (Entry.getLocation e) = false).
  { apply not_true_is_false. intros H. apply existsb_undefined in H.
    destruct H as (part & Hin & Hm). rewrite (Hall part Hin) in Hm.
    discriminate. }
  unfold MultipleBackendTask._getAndPutData. rewrite Hnone.
  destruct (Nat.eqb_spec (length (Entry.getReducedLocations e)) 0) as [H0|H0].
  - destruct (getAndPutPartOnce_plain e None Hnfs) as (evs & Hp & Hn).
    exists evs. split; [exact Hp|]. rewrite Hn, H0. reflexivity.
  - destruct (start_parts_plain e
                (take MultipleBackendTask.MPU_CONC_LIMIT
                   (Entry.getReducedLocations e)) Hnfs) as (evs & Hsp & Hn).
    rewrite Hsp. eexists. split; [reflexivity|].
    change (TaskFlow.putObjects (?x :: evs)) with (TaskFlow.putObjects evs).
    rewrite Hn, length_take. unfold MultipleBackendTask.MPU_CONC_LIMIT. lia.
Qed.

Lemma data_path_put_requests_witness :
  let e :=
    Samples.object_entry 2048 false Js.VUndefined
      [Samples.part_with_etag; Samples.part_with_etag] in
  exists evs,
    MultipleBackendTask._getAndPutData e
    = (evs, MultipleBackendTask.Pending) /\
    TaskFlow.putObjects evs = 2%nat.
Proof.
  intros e.
  destruct (data_path_put_requests e) as (evs & Hd & Hn).
  - reflexivity.
  - intros part [<- | [<- | []]]; vm_compute; reflexivity.
  - exists evs. split; [exact Hd|exact Hn].
Defined.

(** ** Facts about the shape of a run with MPU *)

Section MpuShapeFacts.
Import Js Errors Entry MultipleBackendTask MpuShape.

Variable cfg : Config.
Variable sourceEntry : ObjectQueueEntry.

(** *** Counting events *)

Lemma callbacks_app (t evs : list Event) :
  callbacks (t ++ evs) = (callbacks t + callbacks evs)%nat.
Proof. unfold callbacks. rewrite List.filter_app, length_app. reflexivity. Qed.

Lemma completed_bytes_app (t evs : list Event) :
  completed_bytes (t ++ evs) = completed_bytes t + completed_bytes evs.
Proof.
  unfold completed_bytes. induction t as [|ev t IH]; simpl; [reflexivity|].
  rewrite IH. lia.
Qed.

Lemma silent_callbacks (evs : list Event) :
  Forall silent evs -> callbacks evs = 0%nat.
Proof.
  induction 1 as [|ev evs Hev _ IH]; [reflexivity|].
  unfold callbacks in *. destruct ev; simpl; try exact IH. destruct Hev.
Qed.

Lemma silent_no_complete (evs : list Event) (u : string)
    (body : list PartRes) :
  Forall silent evs -> ~ In (Sent (multipleBackendCompleteMPU u body)) evs.
Proof.
  intros Hs Hin. rewrite Forall_forall in Hs.
  apply list_elem_of_In in Hin. exact (Hs _ Hin).
Qed.

Lemma inits_app (t evs : list Event) :
  inits (t ++ evs) = (inits t + inits evs)%nat.
Proof. unfold inits. rewrite List.filter_app, length_app. reflexivity. Qed.

Lemma completes_app (t evs : list Event) :
  completes (t ++ evs) = (completes t + completes evs)%nat.
Proof.
  unfold completes. rewrite List.filter_app, length_app. reflexivity.
Qed.

Lemma silent_requests (evs : list Event) :
  Forall silent evs -> inits evs = 0%nat /\ completes evs = 0%nat.
Proof.
  unfold inits, completes.
  induction 1 as [|ev evs Hev _ IH]; [split; reflexivity|].
  destruct ev as [r|i|m|v|err|x]; simpl; try exact IH.
  destruct r; simpl; try exact IH; destruct Hev.
Qed.

Lemma quiet_requests (evs : list Event) :
  Forall quiet evs -> inits evs = 0%nat /\ completes evs = 0%nat.
Proof.
  unfold inits, completes.
  induction 1 as [|ev evs Hev _ IH]; [split; reflexivity|].
  destruct ev as [r|i|m|v|err|x]; simpl; try exact IH. destruct Hev.
Qed.

Lemma completes_none (t : list Event) :
  (forall u b, ~ In (Sent (multipleBackendCompleteMPU u b)) t) ->
  completes t = 0%nat.
Proof.
  unfold completes. induction t as [|ev t IH]; intros Hno; [reflexivity|].
  assert (Ht : forall u b, ~ In (Sent (multipleBackendCompleteMPU u b)) t)
    by (intros u b Hin; exact (Hno u b (or_intror Hin))).
  destruct ev as [r|i|m|v|err|x]; simpl; try exact (IH Ht).
  destruct r; simpl; try exact (IH Ht).
  exfalso. exact (Hno _ _ (or_introl eq_refl)).
Qed.

Lemma part_put_in (n : nat) (range : option Range) (evs : list Event)
    (pn : nat) (u : string) (size : Z) :
  Forall (part_put n range) evs ->
  In (Sent (multipleBackendPutMPUPart pn u size)) evs ->
  pn = S n /\ size = size_of range.
Proof.
  intros Hp Hin. rewrite Forall_forall in Hp.
  apply list_elem_of_In in Hin. exact (Hp _ Hin).
Qed.

Lemma quiet_part_put (n : nat) (range : option Range) (evs : list Event) :
  Forall quiet evs -> Forall (part_put n range) evs.
Proof.
  intros H. eapply Forall_impl; [exact H|].
  intros ev Hq. destruct ev; try exact I. destruct Hq.
Qed.

Lemma attempt_requests_part_put (range : option Range) (n : nat)
    (u : string) :
  Forall (part_put n range) (attempt_requests range n u).
Proof.
  unfold attempt_requests.
  destruct (size_of range =? 0); repeat constructor.
Qed.

Lemma attempt_requests_silent (range : option Range) (n : nat)
    (u : string) :
  Forall silent (attempt_requests range n u) /\
  completed_bytes (attempt_requests range n u) = 0.
Proof.
  unfold attempt_requests.
  destruct (size_of range =? 0); split; repeat constructor.
Qed.

Lemma putMPUPart_events (size : Z) (r : PartAttempt) (evs : list Event)
    (res : Response PartData) :
  _putMPUPart size r = Some (evs, res) ->
  Forall silent evs /\
  completed_bytes evs = match res with Succeed _ => size | Fail _ => 0 end.
Proof.
  unfold _putMPUPart. destruct r as [err|err|[err|data]]; simpl;
    try (destruct (size =? 0); [discriminate|]);
    intros [= <- <-]; split; repeat constructor.
  unfold completed_bytes. simpl. lia.
Qed.

(** *** Parts running and parts put *)

Lemma running_insert (ps : list PartStatus) (n : nat)
    (old new : PartStatus) :
  ps !! n = Some old ->
  (length (filter (fun st => is_running st = true) (<[n := new]> ps))
   + (if is_running old then 1 else 0)
   = length (filter (fun st => is_running st = true) ps)
     + (if is_running new then 1 else 0))%nat.
Proof.
  revert n. induction ps as [|p ps IH]; intros n Hn; [discriminate|].
  destruct n as [|n]; simpl in Hn.
  - injection Hn as ->. change (<[0%nat := new]> (old :: ps)) with (new :: ps).
    rewrite !filter_cons.
    destruct (decide (is_running new = true)) as [Hnew|Hnew];
      destruct (decide (is_running old = true)) as [Hold|Hold];
      try rewrite Hnew; try rewrite Hold;
      try (apply not_true_is_false in Hnew; rewrite Hnew);
      try (apply not_true_is_false in Hold; rewrite Hold);
      cbn [length]; lia.
  - change (<[S n := new]> (p :: ps)) with (p :: <[n := new]> ps).
    rewrite !filter_cons. specialize (IH n Hn).
    destruct (decide (is_running p = true)); cbn [length]; lia.
Qed.

Lemma running_snoc (ps : list PartStatus) (a : nat) :
  length (filter (fun st => is_running st = true) (ps ++ [Putting a]))
  = S (length (filter (fun st => is_running st = true) ps)).
Proof.
  rewrite filter_app, length_app. rewrite filter_cons, filter_nil.
  destruct (decide (is_running (Putting a) = true)) as [_|H];
    [cbn [length]; lia|].
  exfalso. apply H. reflexivity.
Qed.

Lemma put_bytes_cons (r : option Range) (rs : list (option Range))
    (p : PartStatus) (ps : list PartStatus) :
  put_bytes (r :: rs) (p :: ps)
  = (if is_put p then size_of r else 0) + put_bytes rs ps.
Proof. destruct p; simpl; lia. Qed.

Lemma put_bytes_insert (rs : list (option Range)) (ps : list PartStatus)
    (n : nat) (r : option Range) (old new : PartStatus) :
  rs !! n = Some r -> ps !! n = Some old ->
  put_bytes rs (<[n := new]> ps) + (if is_put old then size_of r else 0)
  = put_bytes rs ps + (if is_put new then size_of r else 0).
Proof.
  revert ps n. induction rs as [|r0 rs IH]; intros ps n Hr Hp;
    [discriminate|].
  destruct ps as [|p ps]; [discriminate|].
  destruct n as [|n]; simpl in Hr, Hp.
  - injection Hr as ->. injection Hp as ->.
    change (<[0%nat := new]> (old :: ps)) with (new :: ps).
    rewrite !put_bytes_cons. lia.
  - change (<[S n := new]> (p :: ps)) with (p :: <[n := new]> ps).
    rewrite !put_bytes_cons. specialize (IH ps n Hr Hp). lia.
Qed.

Lemma put_bytes_snoc (rs : list (option Range)) (ps : list PartStatus)
    (a : nat) :
  put_bytes rs (ps ++ [Putting a]) = put_bytes rs ps.
Proof.
  revert ps. induction rs as [|r rs IH]; intros ps.
  - destruct ps; reflexivity.
  - destruct ps as [|p ps].
    + simpl. destruct rs; reflexivity.
    + change ((p :: ps) ++ [Putting a]) with (p :: (ps ++ [Putting a])).
      rewrite !put_bytes_cons, IH. reflexivity.
Qed.


Lemma results_all (d : PartRes) (ps : list PartStatus) :
  (forall n st, ps !! n = Some st -> exists b, st = Succeeded (Some b)) ->
  let body :=
    default d <$>
      omap (fun st => match st with Succeeded res => Some res | _ => None end)
        ps in
  length body = length ps /\
  forall n b, body !! n = Some b -> ps !! n = Some (Succeeded (Some b)).
Proof.
  induction ps as [|p ps IH]; intros Hall body; subst body.
  - split; [reflexivity|]. intros n b Hn. simpl in Hn.
    rewrite lookup_nil in Hn. discriminate.
  - destruct (Hall 0%nat p eq_refl) as (b0 & ->).
    destruct IH as [Hlen Hlook].
    { intros n st Hn. exact (Hall (S n) st Hn). }
    simpl. split; [f_equal; exact Hlen|].
    intros [|n] b Hn; simpl in Hn.
    + injection Hn as <-. reflexivity.
    + exact (Hlook n b Hn).
Qed.

(** *** The shape is kept *)

Lemma put_as_app (t evs : list Event) (n : nat) (b : PartRes) :
  put_as cfg t n b -> put_as cfg (t ++ evs) n b.
Proof.
  intros (data & Hb & Hin). exists data. split; [exact Hb|].
  apply in_or_app. left. exact Hin.
Qed.

Lemma no_complete_before (s : State) :
  Shape cfg s ->
  (exists u, phase s = Uploading u) \/ phase s = AwaitInit ->
  forall u' body,
    ~ In (Sent (multipleBackendCompleteMPU u' body)) (trace s).
Proof.
  intros HS Hp u' body Hin.
  destruct (shape_body _ _ HS u' body Hin) as [[H|H] _];
    destruct Hp as [[u Hp]|Hp]; congruence.
Qed.

Lemma Shape_emit (s : State) (evs : list Event) :
  Forall quiet evs -> Forall silent evs -> completed_bytes evs = 0 ->
  Shape cfg s -> Shape cfg (emit evs s).
Proof.
  intros Hq Hs Hb [Hlim Hst Hcall Hsu Hbody Hbytes Haw Hini Hcom Hreq Hunp].
  destruct (silent_requests _ Hs) as [Hi0 Hc0].
  constructor; simpl; try assumption.
  - unfold called_as_phase in *. simpl.
    rewrite callbacks_app, (silent_callbacks _ Hs), Nat.add_0_r. exact Hcall.
  - intros n res Hn. destruct (Hsu n res Hn) as (b & -> & Hput).
    exists b. split; [reflexivity|]. apply put_as_app. exact Hput.
  - intros u body Hin. apply in_app_or in Hin.
    destruct Hin as [Hin|Hin]; [exact (Hbody u body Hin)|].
    exfalso. exact (silent_no_complete _ _ _ Hs Hin).
  - intros Hp. rewrite completed_bytes_app, Hb, (Hbytes Hp). lia.
  - rewrite inits_app, Hi0, Nat.add_0_r. exact Hini.
  - rewrite completes_app, Hc0, Nat.add_0_r. exact Hcom.
  - intros pn u size Hin. apply in_app_or in Hin.
    destruct Hin as [Hin|Hin]; [exact (Hreq pn u size Hin)|].
    exfalso. exact (quiet_not_sent _ _ Hq Hin).
Qed.

Lemma Shape_trace (s : State) (p : Phase) (evs : list Event) :
  Forall quiet evs ->
  (p <> Crashed -> completed_bytes evs = 0) ->
  match p with
  | Ended => callbacks (trace s ++ evs) = 1%nat
  | Crashed => (callbacks (trace s ++ evs) <= 1)%nat
  | _ => False
  end ->
  (forall u b,
     In (Sent (multipleBackendCompleteMPU u b)) (trace s) -> p = Ended) ->
  phase s <> Crashed ->
  Shape cfg s ->
  Shape cfg {| phase := p; ranges := ranges s; parts := parts s;
               called_back := called_back s; trace := trace s ++ evs |}.
Proof.
  intros Hq Hb Hcb Hend Hlive
    [Hlim Hst Hcall Hsu Hbody Hbytes Haw Hini Hcom Hreq Hunp].
  destruct (quiet_requests _ Hq) as [Hi0 Hc0].
  constructor; simpl; try assumption.
  - unfold called_as_phase. simpl. destruct p; try contradiction; exact Hcb.
  - intros n res Hn. destruct (Hsu n res Hn) as (b & -> & Hput).
    exists b. split; [reflexivity|]. apply put_as_app. exact Hput.
  - intros u body Hin. apply in_app_or in Hin.
    destruct Hin as [Hin|Hin]; [|exfalso; exact (quiet_not_sent _ _ Hq Hin)].
    destruct (Hbody u body Hin) as (_ & Hlen & Hlook).
    split; [right; exact (Hend _ _ Hin)|]. split; assumption.
  - intros Hp. rewrite completed_bytes_app, (Hb Hp), (Hbytes Hlive). lia.
  - intros ->. contradiction.
  - rewrite inits_app, Hi0, Nat.add_0_r. exact Hini.
  - rewrite completes_app, Hc0, Nat.add_0_r. exact Hcom.
  - intros pn u size Hin. apply in_app_or in Hin.
    destruct Hin as [Hin|Hin]; [exact (Hreq pn u size Hin)|].
    exfalso. exact (quiet_not_sent _ _ Hq Hin).
  - intros ->. contradiction.
Qed.

Lemma Shape_part (s : State) (u : string) (n a : nat)
    (range : option Range) (evs : list Event) (st : PartStatus) :
  phase s = Uploading u ->
  parts s !! n = Some (Putting a) ->
  ranges s !! n = Some range ->
  Forall silent evs ->
  Forall (part_put n range) evs ->
  match st with
  | Putting _ | Failed _ => completed_bytes evs = 0
  | Succeeded res =>
      completed_bytes evs = size_of range /\
      exists b, res = Some b /\ put_as cfg (trace s ++ evs) n b
  | _ => False
  end ->
  Shape cfg s ->
  Shape cfg (set_part n st (emit evs s)) /\
  (running (set_part n st (emit evs s)) + 1
   = running s + (if is_running st then 1 else 0))%nat.
Proof.
  intros Hup Hn Hr Hs Hpp Hst HS.
  pose proof (no_complete_before s HS (or_introl (ex_intro _ u Hup))) as Hnc.
  pose proof (running_insert (parts s) n (Putting a) st Hn) as Hrun.
  change (is_running (Putting a)) with true in Hrun.
  destruct HS as [Hlim Hstd Hcall Hsu Hbody Hbytes Haw Hini Hcom Hreq Hunp].
  destruct (silent_requests _ Hs) as [Hi0 Hc0].
  split; [|exact Hrun].
  constructor; simpl.
  - unfold running in *. simpl. destruct (is_running st); lia.
  - rewrite length_insert. exact Hstd.
  - unfold called_as_phase in *. simpl. rewrite Hup in *.
    rewrite callbacks_app, (silent_callbacks _ Hs), Nat.add_0_r. exact Hcall.
  - intros m res Hm. apply list_lookup_insert_Some in Hm.
    destruct Hm as [(<- & -> & _) | (_ & Hm)].
    + destruct Hst as (_ & b & -> & Hput). exists b.
      split; [reflexivity|exact Hput].
    + destruct (Hsu m res Hm) as (b & -> & Hput). exists b.
      split; [reflexivity|apply put_as_app; exact Hput].
  - intros u' body Hin. exfalso. apply in_app_or in Hin.
    destruct Hin as [Hin|Hin];
      [exact (Hnc u' body Hin)|exact (silent_no_complete _ _ _ Hs Hin)].
  - intros _. rewrite completed_bytes_app, Hbytes by (rewrite Hup; discriminate).
    pose proof (put_bytes_insert (ranges s) (parts s) n range (Putting a) st
                  Hr Hn) as Hpb.
    destruct st as [a'|cb|a' c|res|err]; simpl in Hpb, Hst.
    + lia.
    + destruct Hst.
    + destruct Hst.
    + destruct Hst as [Hst _]. lia.
    + lia.
  - rewrite Hup. discriminate.
  - rewrite inits_app, Hi0, Nat.add_0_r. exact Hini.
  - rewrite completes_app, Hc0, Nat.add_0_r. exact Hcom.
  - intros pn u' size Hin. rewrite length_insert. apply in_app_or in Hin.
    destruct Hin as [Hin|Hin]; [exact (Hreq pn u' size Hin)|].
    destruct (part_put_in _ _ _ _ _ _ Hpp Hin) as [-> ->].
    exists n, range. split; [reflexivity|].
    split; [eapply lookup_lt_Some; exact Hn|]. split; [exact Hr|reflexivity].
  - rewrite Hup. discriminate.
Qed.

Lemma Shape_callback (s : State) (u : string) (err : option Err) :
  phase s = Uploading u -> called_back s = false ->
  Shape cfg s -> Shape cfg (set_called_back (emit [Callback err] s)).
Proof.
  intros Hup Hcb HS.
  pose proof (no_complete_before s HS (or_introl (ex_intro _ u Hup))) as Hnc.
  destruct HS as [Hlim Hstd Hcall Hsu Hbody Hbytes Haw Hini Hcom Hreq Hunp].
  constructor; simpl; try assumption.
  - unfold called_as_phase in *. simpl. rewrite Hup, Hcb in *.
    rewrite callbacks_app, Hcall. reflexivity.
  - intros n res Hn. destruct (Hsu n res Hn) as (b & -> & Hput).
    exists b. split; [reflexivity|]. apply put_as_app. exact Hput.
  - intros u' body Hin. exfalso. apply in_app_or in Hin.
    destruct Hin as [Hin | [Hin | []]]; [exact (Hnc u' body Hin)|discriminate].
  - intros Hp. rewrite completed_bytes_app, (Hbytes Hp).
    unfold completed_bytes. simpl. lia.
  - rewrite inits_app, Hini. apply Nat.add_0_r.
  - rewrite completes_app. change (completes [Callback err]) with 0%nat. lia.
  - intros pn u' size Hin. apply in_app_or in Hin.
    destruct Hin as [Hin | [Hin | []]];
      [exact (Hreq pn u' size Hin)|discriminate].
Qed.

Lemma Shape_launch (s : State) (u : string) :
  phase s = Uploading u ->
  (running s < MPU_CONC_LIMIT)%nat ->
  (length (parts s) < length (ranges s))%nat ->
  Shape cfg s ->
  Shape cfg (launch u s) /\ phase (launch u s) = Uploading u /\
  called_back (launch u s) = called_back s /\
  running (launch u s) = S (running s).
Proof.
  intros Hup Hrun Hlen HS.
  pose proof (no_complete_before s HS (or_introl (ex_intro _ u Hup))) as Hnc.
  unfold launch.
  destruct (lookup_lt_is_Some_2 (ranges s) (length (parts s)) Hlen)
    as [range Hr].
  rewrite Hr.
  destruct (attempt_requests_silent range (length (parts s)) u)
    as [Hs Hb].
  split; [|split; [exact Hup|split; [reflexivity|apply running_snoc]]].
  destruct HS as [Hlim Hstd Hcall Hsu Hbody Hbytes Haw Hini Hcom Hreq Hunp].
  destruct (silent_requests _ Hs) as [Hi0 Hc0].
  constructor; simpl.
  - unfold running in *. simpl. rewrite running_snoc. lia.
  - rewrite length_app. simpl. lia.
  - unfold called_as_phase in *. simpl. rewrite Hup in *.
    rewrite callbacks_app, (silent_callbacks _ Hs), Nat.add_0_r. exact Hcall.
  - intros m res Hm. apply lookup_app_Some in Hm.
    destruct Hm as [Hm | (_ & Hm)].
    + destruct (Hsu m res Hm) as (b & -> & Hput). exists b.
      split; [reflexivity|apply put_as_app; exact Hput].
    + destruct (m - length (parts s))%nat; simpl in Hm; discriminate.
  - intros u' body Hin. exfalso. apply in_app_or in Hin.
    destruct Hin as [Hin|Hin];
      [exact (Hnc u' body Hin)|exact (silent_no_complete _ _ _ Hs Hin)].
  - intros Hp. rewrite completed_bytes_app, Hb, (Hbytes Hp), put_bytes_snoc.
    lia.
  - rewrite Hup. discriminate.
  - rewrite inits_app, Hi0, Nat.add_0_r. exact Hini.
  - rewrite completes_app, Hc0, Nat.add_0_r. exact Hcom.
  - intros pn u' size Hin. rewrite length_app. apply in_app_or in Hin.
    destruct Hin as [Hin|Hin].
    + destruct (Hreq pn u' size Hin) as (n & range' & Hpn & Hlt & Hr' & Hsz).
      exists n, range'. split; [exact Hpn|]. split; [lia|].
      split; assumption.
    + destruct (part_put_in _ _ _ _ _ _
                  (attempt_requests_part_put range (length (parts s)) u) Hin)
        as [-> ->].
      exists (length (parts s)), range. split; [reflexivity|].
      split; [simpl; lia|]. split; [exact Hr|reflexivity].
  - rewrite Hup. discriminate.
Qed.

Lemma Shape_replenish (u : string) (fuel : nat) :
  forall s,
    phase s = Uploading u -> Shape cfg s ->
    Shape cfg (replenish fuel u s) /\
    phase (replenish fuel u s) = Uploading u /\
    called_back (replenish fuel u s) = called_back s /\
    ((MPU_CONC_LIMIT <= running s + fuel)%nat ->
     (MPU_CONC_LIMIT <= running (replenish fuel u s))%nat \/
     length (parts (replenish fuel u s))
     = length (ranges (replenish fuel u s))).
Proof.
  induction fuel as [|fuel IH]; intros s Hup HS.
  - change (replenish 0 u s) with s.
    split; [exact HS|]. split; [exact Hup|]. split; [reflexivity|].
    intros H. left. lia.
  - rewrite replenish_S.
    destruct (Nat.ltb_spec (running s) MPU_CONC_LIMIT) as [Hrun|Hrun];
      cbn [andb].
    + destruct (Nat.ltb_spec (length (parts s)) (length (ranges s)))
        as [Hlen|Hlen].
      * destruct (Shape_launch s u Hup Hrun Hlen HS)
          as (HS1 & Hup1 & Hcb1 & Hrun1).
        destruct (IH _ Hup1 HS1) as (HS2 & Hup2 & Hcb2 & Hsat).
        split; [exact HS2|]. split; [exact Hup2|].
        split; [congruence|]. intros Hf. apply Hsat. rewrite Hrun1. lia.
      * split; [exact HS|]. split; [exact Hup|]. split; [reflexivity|].
        intros _. right. pose proof (shape_started _ _ HS). lia.
    + split; [exact HS|]. split; [exact Hup|]. split; [reflexivity|].
      intros _. left. exact Hrun.
Qed.

Lemma Shape_finish (s : State) (u : string) :
  phase s = Uploading u -> called_back s = false ->
  (forall n err, parts s !! n <> Some (Failed err)) ->
  Shape cfg s -> Shape cfg (finish u s).
Proof.
  intros Hup Hcb Hnf HS. unfold finish.
  destruct (Nat.eqb_spec (length (parts s)) (length (ranges s))) as [Hlen|];
    [|exact HS].
  destruct (Nat.eqb_spec (running s) 0) as [Hrun|]; [|exact HS].
  cbn [andb].
  pose proof (no_complete_before s HS (or_introl (ex_intro _ u Hup))) as Hnc.
  assert (Hall : forall n st,
            parts s !! n = Some st -> exists b, st = Succeeded (Some b)).
  { intros n st Hn. pose proof (running_zero _ Hrun n st Hn) as Hidle.
    destruct st as [a|cb|a c|res|err]; try discriminate.
    - destruct (shape_succeeded _ _ HS n res Hn) as (b & -> & _).
      exists b. reflexivity.
    - exfalso. exact (Hnf n err Hn). }
  destruct (results_all {| res_PartNumber := []; res_ETag := [];
                           res_NumberSubParts := None |} (parts s) Hall)
    as [Hblen Hblook].
  destruct HS as [Hlim Hstd Hcall Hsu Hbody Hbytes Haw Hini Hcom Hreq Hunp].
  constructor; simpl; try assumption.
  - unfold called_as_phase in *. simpl. rewrite Hup, Hcb in Hcall.
    rewrite callbacks_app, Hcall. reflexivity.
  - intros n res Hn. destruct (Hsu n res Hn) as (b & -> & Hput).
    exists b. split; [reflexivity|]. apply put_as_app. exact Hput.
  - intros u' body Hin. apply in_app_or in Hin.
    destruct Hin as [Hin | [Heq | []]]; [exfalso; exact (Hnc _ _ Hin)|].
    injection Heq as <- <-. split; [left; reflexivity|].
    split; [rewrite <- Hlen; exact Hblen|exact Hblook].
  - intros _. rewrite completed_bytes_app, Hbytes by (rewrite Hup; discriminate).
    unfold completed_bytes. simpl. lia.
  - discriminate.
  - rewrite inits_app, Hini. apply Nat.add_0_r.
  - rewrite completes_app, (completes_none _ Hnc). reflexivity.
  - intros pn u' size Hin. apply in_app_or in Hin.
    destruct Hin as [Hin | [Hin | []]];
      [exact (Hreq pn u' size Hin)|discriminate].
  - discriminate.
Qed.

Lemma saturated_finish (s : State) (u : string) :
  (MPU_CONC_LIMIT <= running s)%nat \/
  length (parts s) = length (ranges s) ->
  saturated (finish u s).
Proof.
  intros Hsat. unfold finish. destruct (_ && _).
  - intros u' Hp. discriminate.
  - intros u' _ _ Hlt. destruct Hsat as [Hge|Heq]; [lia|exact Heq].
Qed.

Lemma replenish_no_failed (s : State) (u : string) (fuel : nat) :
  (forall n err, parts s !! n <> Some (Failed err)) ->
  forall n err, parts (replenish fuel u s) !! n <> Some (Failed err).
Proof.
  intros Hnf n err.
  destruct (replenish_spec fuel u s) as (k & evs & -> & _). simpl.
  intros Hn. apply lookup_app_Some in Hn. destruct Hn as [Hn | (_ & Hn)].
  - exact (Hnf n err Hn).
  - apply lookup_replicate in Hn. destruct Hn as [Hst _]. discriminate.
Qed.

Lemma Shape_started (s : State) (u : string) :
  phase s = Uploading u -> called_back s = false ->
  (forall n err, parts s !! n <> Some (Failed err)) ->
  Shape cfg s ->
  Shape cfg (finish u (replenish MPU_CONC_LIMIT u s)) /\
  saturated (finish u (replenish MPU_CONC_LIMIT u s)).
Proof.
  intros Hup Hcb Hnf HS.
  destruct (Shape_replenish u MPU_CONC_LIMIT s Hup HS)
    as (HS2 & Hup2 & Hcb2 & Hsat).
  split.
  - apply Shape_finish; [exact Hup2|congruence| |exact HS2].
    apply replenish_no_failed. exact Hnf.
  - apply saturated_finish. apply Hsat. lia.
Qed.

Lemma Shape_next (s : State) (u : string) (n a : nat)
    (range : option Range) (evs : list Event) (call : NextCall) :
  phase s = Uploading u ->
  parts s !! n = Some (Putting a) ->
  ranges s !! n = Some range ->
  Forall quiet evs ->
  Forall silent evs ->
  match call with
  | (Some _, _) => completed_bytes evs = 0
  | (None, res) =>
      completed_bytes evs = size_of range /\
      exists b, res = Some b /\ put_as cfg (trace s ++ evs) n b
  end ->
  (called_back s = false -> forall m err, parts s !! m <> Some (Failed err)) ->
  Shape cfg s ->
  Shape cfg (next n call u (emit evs s)) /\
  saturated (next n call u (emit evs s)).
Proof.
  intros Hup Hn Hr Hq Hs Hcall Hnf HS.
  pose proof (quiet_part_put n range evs Hq) as Hpp.
  destruct call as [[err|] res]; unfold next; cbv beta iota zeta.
  - destruct (Shape_part s u n a range evs (Failed err) Hup Hn Hr Hs Hpp
                Hcall HS) as [HS1 _].
    change (called_back (set_part n (Failed err) (emit evs s)))
      with (called_back s).
    destruct (called_back s) eqn:Hcb.
    + split; [exact HS1|]. intros u' _ Hcb'. simpl in Hcb'. congruence.
    + split; [|intros u' _ Hcb'; discriminate].
      apply (Shape_callback _ u); [exact Hup|exact Hcb|exact HS1].
  - destruct (Shape_part s u n a range evs (Succeeded res) Hup Hn Hr Hs Hpp
                Hcall HS) as [HS1 _].
    change (called_back (set_part n (Succeeded res) (emit evs s)))
      with (called_back s).
    destruct (called_back s) eqn:Hcb.
    + split; [exact HS1|]. intros u' _ Hcb'. simpl in Hcb'. congruence.
    + apply Shape_started; [exact Hup|exact Hcb| |exact HS1].
      intros m err Hm. simpl in Hm. apply list_lookup_insert_Some in Hm.
      destruct Hm as [(_ & Hst & _) | (_ & Hm)]; [discriminate|].
      exact (Hnf eq_refl m err Hm).
Qed.

Lemma Shape_Step (s s' : State) (i : Input) :
  Step cfg sourceEntry s i s' -> Inv cfg sourceEntry s ->
  Shape cfg s /\ saturated s -> Shape cfg s' /\ saturated s'.
Proof.
  intros HStep HI [HS Hsat]. destruct HStep.
  - split; [|intros u Hp; discriminate].
    unfold set_phase, emit. simpl. rewrite <- app_assoc.
    apply Shape_trace; try (rewrite H; discriminate); try exact HS.
    + repeat constructor.
    + intros _. reflexivity.
    + pose proof (shape_called _ _ HS) as Hc. unfold called_as_phase in Hc.
      rewrite H in Hc. rewrite callbacks_app, Hc. reflexivity.
    + intros u b Hin. exfalso.
      exact (no_complete_before s HS (or_intror H) u b Hin).
  - apply Shape_started; [reflexivity|reflexivity| |].
    + intros n err Hn. simpl in Hn. rewrite lookup_nil in Hn. discriminate.
    + pose proof (no_complete_before s HS (or_intror H)) as Hnc.
      pose proof (shape_called _ _ HS) as Hc. unfold called_as_phase in Hc.
      rewrite H in Hc.
      pose proof (shape_await _ _ HS H) as Hps.
      pose proof (shape_bytes _ _ HS) as Hbytes. rewrite Hps in Hbytes.
      constructor; simpl.
      * unfold running. simpl. lia.
      * lia.
      * unfold called_as_phase. simpl. rewrite !callbacks_app, Hc.
        reflexivity.
      * intros n res Hn. rewrite lookup_nil in Hn. discriminate.
      * intros u b Hin. exfalso. rewrite <- app_assoc in Hin.
        apply in_app_or in Hin.
        destruct Hin as [Hin | [Hin | [Hin | []]]];
          [exact (Hnc u b Hin)|discriminate|discriminate].
      * intros _. rewrite !completed_bytes_app, Hbytes
          by (rewrite H; discriminate).
        unfold completed_bytes. simpl. destruct (ranges s), rs; simpl; lia.
      * discriminate.
      * rewrite !inits_app, (shape_inits _ _ HS). rewrite <- Nat.add_assoc.
        apply Nat.add_0_r.
      * rewrite !completes_app, (completes_none _ Hnc).
        unfold completes. simpl. lia.
      * intros pn u size Hin. exfalso. rewrite <- app_assoc in Hin.
        apply in_app_or in Hin.
        destruct Hin as [Hin | [Hin | [Hin | []]]];
          [|discriminate|discriminate].
        destruct (shape_requests _ _ HS pn u size Hin)
          as (n & range & _ & _ & Hr & _).
        rewrite (shape_unplanned _ _ HS H), lookup_nil in Hr. discriminate.
      * discriminate.
  - destruct (putMPUPart_events _ _ _ _ H2) as [Hs Hb].
    pose proof (putMPUPart_quiet _ _ _ _ H2) as Hq.
    assert (HS0 : Shape cfg (emit (Received (Part_answer n r) :: evs) s)).
    { apply Shape_emit;
        [constructor; [exact I|exact Hq]|constructor; [exact I|exact Hs]|
        |exact HS].
      simpl in Hb. unfold completed_bytes in *. simpl. lia. }
    destruct (attempt_requests_silent range n uploadId) as [Hs' Hb'].
    destruct (Shape_part (emit (Received (Part_answer n r) :: evs) s)
                uploadId n attempt range
                (attempt_requests range n uploadId) (Putting (S attempt))
                H H0 H1 Hs' (attempt_requests_part_put range n uploadId)
                Hb' HS0) as [HS1 Hrun].
    split; [exact HS1|].
    intros u' _ Hcb Hlt. simpl in Hcb. simpl length.
    rewrite length_insert.
    apply (Hsat uploadId H Hcb). simpl in Hrun.
    unfold running in *. simpl in *. lia.
  - destruct (putMPUPart_events _ _ _ _ H2) as [Hs Hb].
    split; [|intros u Hp; discriminate].
    unfold crash, set_phase, emit. simpl. rewrite <- app_assoc.
    apply Shape_trace; try (rewrite H; discriminate); try exact HS.
    + constructor; [exact I|]. apply Forall_app. split.
      * eapply putMPUPart_quiet. eassumption.
      * repeat constructor.
    + intros Hp. exfalso. apply Hp. reflexivity.
    + pose proof (shape_called _ _ HS) as Hc. unfold called_as_phase in Hc.
      rewrite H in Hc. rewrite callbacks_app, Hc.
      rewrite callbacks_app.
      change (callbacks (Received (Part_answer n r) :: evs))
        with (callbacks evs).
      rewrite (silent_callbacks _ Hs).
      change (callbacks [Thrown TypeError]) with 0%nat.
      destruct (called_back s); lia.
    + intros u b Hin. exfalso.
      exact (no_complete_before s HS
               (or_introl (ex_intro _ uploadId H)) u b Hin).
  - destruct (putMPUPart_events _ _ _ _ H2) as [Hs Hb].
    pose proof (putMPUPart_quiet _ _ _ _ H2) as Hq.
    apply (Shape_next s uploadId n attempt range); try assumption.
    + constructor; [exact I|exact Hq].
    + constructor; [exact I|exact Hs].
    + exact (inv_failed _ _ _ HI).
  - destruct (putMPUPart_events _ _ _ _ H2) as [Hs Hb].
    pose proof (putMPUPart_quiet _ _ _ _ H2) as Hq.
    apply (Shape_next s uploadId n attempt range); try assumption.
    + constructor; [exact I|exact Hq].
    + constructor; [exact I|exact Hs].
    + simpl in Hb. split; [unfold completed_bytes in *; simpl; lia|].
      exists (part_res cfg data). split; [reflexivity|].
      exists data. split; [reflexivity|].
      apply in_or_app. right. left.
      rewrite (putMPUPart_succeeded _ _ _ _ H2). reflexivity.
    + exact (inv_failed _ _ _ HI).
  - split; [|intros u Hp; discriminate].
    unfold set_phase, emit. simpl.
    apply Shape_trace; try (rewrite H; discriminate); try exact HS.
    + constructor; [exact I|]. apply Forall_app. split.
      * destruct r as [err|v]; repeat constructor.
      * repeat constructor.
    + intros _. destruct r as [err|v]; reflexivity.
    + pose proof (shape_called _ _ HS) as Hc. unfold called_as_phase in Hc.
      rewrite H in Hc. rewrite callbacks_app, Hc.
      destruct r as [err|v]; reflexivity.
    + intros u b _. reflexivity.
Qed.

Lemma Shape_run (inputs : list Input) :
  forall s s',
    Inv cfg sourceEntry s -> Shape cfg s /\ saturated s ->
    run cfg sourceEntry s inputs = Some s' ->
    Shape cfg s' /\ saturated s'.
Proof.
  induction inputs as [|i inputs IH]; intros s s' HI HS Hrun; simpl in Hrun.
  - injection Hrun as <-. exact HS.
  - destruct (step cfg sourceEntry s i) as [s1|] eqn:Hstep; [|discriminate].
    simpl in Hrun.
    pose proof (step_Step cfg sourceEntry s s1 i (inv_no_check _ _ _ HI)
                  Hstep) as HStep.
    apply (IH s1 s'); [|eapply Shape_Step; eassumption|exact Hrun].
    eapply Inv_Step; eassumption.
Qed.

Lemma Shape_sendInitiateMPU :
  Shape cfg (_sendInitiateMPU cfg init) /\
  saturated (_sendInitiateMPU cfg init).
Proof.
  split; [|intros u Hp; discriminate].
  assert (Hsent : forall r, In (Sent r) (trace (_sendInitiateMPU cfg init)) ->
            r = multipleBackendInitiateMPU).
  { intros r. simpl. destruct (isAzure cfg); simpl; [intros []|].
    intros [[= <-] | []]. reflexivity. }
  constructor.
  - unfold running. simpl. lia.
  - simpl. lia.
  - unfold called_as_phase. simpl. destruct (isAzure cfg); reflexivity.
  - intros n res Hn. simpl in Hn. rewrite lookup_nil in Hn. discriminate.
  - intros u b Hin. apply Hsent in Hin. discriminate.
  - intros _. simpl. destruct (isAzure cfg); reflexivity.
  - reflexivity.
  - simpl. destruct (isAzure cfg); reflexivity.
  - unfold completes. simpl. destruct (isAzure cfg); simpl; lia.
  - intros pn u size Hin. apply Hsent in Hin. discriminate.
  - reflexivity.
Qed.

End MpuShapeFacts.

Section PlannerSumFacts.
Import MultipleBackendTask.



End PlannerSumFacts.

Section MpuRunFacts.
Import Js Errors Entry MultipleBackendTask MpuShape.

Variable cfg : Config.
Variable sourceEntry : ObjectQueueEntry.

(** What holds of every state a run of [_sendInitiateMPU] reaches. *)
Lemma run_shape (inputs : list Input) (s : State) :
  run cfg sourceEntry (_sendInitiateMPU cfg init) inputs = Some s ->
  Inv cfg sourceEntry s /\ Shape cfg s /\ saturated s.
Proof.
  intros Hrun. split.
  - exact (Inv_run cfg sourceEntry inputs _ s
             (Inv_sendInitiateMPU cfg sourceEntry) Hrun).
  - exact (Shape_run cfg sourceEntry inputs _ s
             (Inv_sendInitiateMPU cfg sourceEntry)
             (Shape_sendInitiateMPU cfg) Hrun).
Qed.

Lemma ranges_replenish (fuel : nat) (u : string) (s : State) :
  ranges (replenish fuel u s) = ranges s.
Proof.
  destruct (replenish_spec fuel u s) as (k & evs & -> & _). reflexivity.
Qed.

Lemma ranges_finish (u : string) (s : State) :
  ranges (finish u s) = ranges s.
Proof.
  destruct (finish_spec u s) as [-> | (_ & _ & body & ->)]; reflexivity.
Qed.

Lemma ranges_next (n : nat) (call : NextCall) (u : string) (s : State) :
  ranges (next n call u s) = ranges s.
Proof.
  unfold next. destruct call as [[err|] res]; cbv beta iota zeta.
  - destruct (called_back _); reflexivity.
  - destruct (called_back _); [reflexivity|].
    rewrite ranges_finish, ranges_replenish. reflexivity.
Qed.

Lemma planned_Step (s s' : State) (i : Input) :
  Step cfg sourceEntry s i s' ->
  planned cfg sourceEntry s -> planned cfg sourceEntry s'.
Proof.
  intros HStep Hpl. unfold planned in *.
  destruct HStep; rewrite ?ranges_next, ?ranges_finish, ?ranges_replenish;
    try exact Hpl.
  right. exact H0.
Qed.

Lemma planned_run (inputs : list Input) :
  forall s s',
    Inv cfg sourceEntry s -> planned cfg sourceEntry s ->
    run cfg sourceEntry s inputs = Some s' ->
    planned cfg sourceEntry s'.
Proof.
  induction inputs as [|i inputs IH]; intros s s' HI Hpl Hrun; simpl in Hrun.
  - injection Hrun as <-. exact Hpl.
  - destruct (step cfg sourceEntry s i) as [s1|] eqn:Hstep; [|discriminate].
    simpl in Hrun.
    pose proof (step_Step cfg sourceEntry s s1 i (inv_no_check _ _ _ HI)
                  Hstep) as HStep.
    apply (IH s1 s'); [|eapply planned_Step; eassumption|exact Hrun].
    eapply Inv_Step; eassumption.
Qed.


End MpuRunFacts.

(** X13. In every state a run of the MPU reaches, at most
    [MPU_CONC_LIMIT] parts are in flight and no more parts are started than
    ranges were planned; and while the upload runs and no part has failed,
    the limit is used up: fewer parts are in flight only when every planned
    part has been started. *)
Theorem mpu_concurrency_limit (cfg : MultipleBackendTask.Config)
    (sourceEntry : Entry.ObjectQueueEntry)
    (inputs : list MultipleBackendTask.Input)
    (s : MultipleBackendTask.State) :
  MultipleBackendTask.run cfg sourceEntry
    (MultipleBackendTask._sendInitiateMPU cfg MultipleBackendTask.init)
    inputs = Some s ->
  (MultipleBackendTask.running s <= MultipleBackendTask.MPU_CONC_LIMIT)%nat /\
  (length (MultipleBackendTask.parts s)
   <= length (MultipleBackendTask.ranges s))%nat /\
  (forall uploadId,
     MultipleBackendTask.phase s = MultipleBackendTask.Uploading uploadId ->
     MultipleBackendTask.called_back s = false ->
     (MultipleBackendTask.running s < MultipleBackendTask.MPU_CONC_LIMIT)%nat ->
     length (MultipleBackendTask.parts s)
     = length (MultipleBackendTask.ranges s)).
Proof.
  intros Hrun. destruct (run_shape cfg sourceEntry inputs s Hrun)
    as (_ & HS & Hsat).
  split; [exact (MpuShape.shape_limit _ _ HS)|].
  split; [exact (MpuShape.shape_started _ _ HS)|exact Hsat].
Qed.

Lemma mpu_concurrency_limit_witness :
  let sourceEntry := Samples.object_entry 1 false Js.VUndefined [] in
  exists s,
    MultipleBackendTask.run Samples.aws_site sourceEntry
      (MultipleBackendTask._sendInitiateMPU Samples.aws_site
         MultipleBackendTask.init) Samples.part_is_put = Some s /\
    (MultipleBackendTask.running s <= MultipleBackendTask.MPU_CONC_LIMIT)%nat.
Proof.
  intros sourceEntry. eexists. split; [vm_compute; reflexivity|].
  pose proof (mpu_concurrency_limit Samples.aws_site sourceEntry
                Samples.part_is_put _ ltac:(vm_compute; reflexivity))
    as (H1 & _).
  exact H1.
Defined.

(** X14. A run of the MPU never calls the task's callback twice. It has
    not called it while it waits for the answer of init-MPU or of
    complete-MPU; while parts are uploaded it has called it exactly when
    the final callback of [async.timesLimit] has run, with the error of a
    part; and a run that has ended has called it exactly once. *)
Theorem mpu_calls_back_once (cfg : MultipleBackendTask.Config)
    (sourceEntry : Entry.ObjectQueueEntry)
    (inputs : list MultipleBackendTask.Input)
    (s : MultipleBackendTask.State) :
  MultipleBackendTask.run cfg sourceEntry
    (MultipleBackendTask._sendInitiateMPU cfg MultipleBackendTask.init)
    inputs = Some s ->
  (MpuShape.callbacks (MultipleBackendTask.trace s) <= 1)%nat /\
  (MultipleBackendTask.phase s = MultipleBackendTask.AwaitInit ->
   MpuShape.callbacks (MultipleBackendTask.trace s) = 0%nat) /\
  (forall uploadId,
     MultipleBackendTask.phase s = MultipleBackendTask.Uploading uploadId ->
     MpuShape.callbacks (MultipleBackendTask.trace s)
     = if MultipleBackendTask.called_back s then 1%nat else 0%nat) /\
  (forall uploadId,
     MultipleBackendTask.phase s = MultipleBackendTask.Completing uploadId ->
     MpuShape.callbacks (MultipleBackendTask.trace s) = 0%nat) /\
  (MultipleBackendTask.phase s = MultipleBackendTask.Ended ->
   MpuShape.callbacks (MultipleBackendTask.trace s) = 1%nat).
Proof.
  intros Hrun. destruct (run_shape cfg sourceEntry inputs s Hrun)
    as (_ & HS & _).
  pose proof (MpuShape.shape_called _ _ HS) as Hc.
  unfold MpuShape.called_as_phase in Hc.
  destruct (MultipleBackendTask.phase s) as [cb| |u|u| |];
    (split; [try lia; destruct (MultipleBackendTask.called_back s); lia|]);
    (split; [intros; try discriminate; assumption|]);
    (split; [intros u' Hp; try discriminate; assumption|]);
    (split; [intros u' Hp; try discriminate; assumption|]);
    intros; try discriminate; assumption.
Qed.

Lemma mpu_calls_back_once_witness :
  let sourceEntry := Samples.object_entry 1 false Js.VUndefined [] in
  exists s,
    MultipleBackendTask.run Samples.aws_site sourceEntry
      (MultipleBackendTask._sendInitiateMPU Samples.aws_site
         MultipleBackendTask.init) Samples.part_succeeds = Some s /\
    MpuShape.callbacks (MultipleBackendTask.trace s) = 1%nat.
Proof.
  intros sourceEntry. eexists. split; [vm_compute; reflexivity|].
  pose proof (mpu_calls_back_once Samples.aws_site sourceEntry
                Samples.part_succeeds _ ltac:(vm_compute; reflexivity))
    as (_ & _ & _ & _ & H).
  apply H. reflexivity.
Defined.

(** X15. When complete-MPU is sent, its body has one element for each
    range the planner gave for the content length, in the order of the
    parts; the element of part [n] is built from the answer the destination
    gave to the put of that part. *)
Theorem complete_mpu_body (cfg : MultipleBackendTask.Config)
    (sourceEntry : Entry.ObjectQueueEntry)
    (inputs : list MultipleBackendTask.Input)
    (s : MultipleBackendTask.State) (uploadId : string)
    (body : list MultipleBackendTask.PartRes) :
  MultipleBackendTask.run cfg sourceEntry
    (MultipleBackendTask._sendInitiateMPU cfg MultipleBackendTask.init)
    inputs = Some s ->
  In (MultipleBackendTask.Sent
        (MultipleBackendTask.multipleBackendCompleteMPU uploadId body))
     (MultipleBackendTask.trace s) ->
  _getRanges (planner_fuel (Entry.getContentLength sourceEntry))
    (Entry.getContentLength sourceEntry) (MultipleBackendTask.isGCP cfg)
  = Some (MultipleBackendTask.ranges s) /\
  length body = length (MultipleBackendTask.ranges s) /\
  forall n, (n < length body)%nat ->
    exists data,
      body !! n = Some (MultipleBackendTask.part_res cfg data) /\
      In (MultipleBackendTask.Received
            (MultipleBackendTask.Part_answer n
               (MultipleBackendTask.Dest_answer (Errors.Succeed data))))
         (MultipleBackendTask.trace s).
Proof.
  intros Hrun Hin. destruct (run_shape cfg sourceEntry inputs s Hrun)
    as (HI & HS & _).
  destruct (MpuShape.shape_body _ _ HS uploadId body Hin)
    as (_ & Hlen & Hlook).
  split.
  { destruct (MultipleBackendTask.inv_planned _ _ _ HI) as [[Hno _]|Hplan];
      [|exact Hplan].
    exfalso. exact (Hno _ _ Hin). }
  split; [exact Hlen|].
  intros n Hn. apply lookup_lt_is_Some_2 in Hn. destruct Hn as [b Hb].
  destruct (MpuShape.shape_succeeded _ _ HS n _ (Hlook n b Hb))
    as (b' & Heq & data & -> & Hrecv).
  injection Heq as ->.
  exists data. split; [exact Hb|exact Hrecv].
Qed.

Lemma complete_mpu_body_witness :
  let sourceEntry := Samples.object_entry 1 false Js.VUndefined [] in
  let body :=
    [MultipleBackendTask.part_res Samples.aws_site Samples.part_data] in
  exists s,
    MultipleBackendTask.run Samples.aws_site sourceEntry
      (MultipleBackendTask._sendInitiateMPU Samples.aws_site
         MultipleBackendTask.init) Samples.part_succeeds = Some s /\
    In (MultipleBackendTask.Sent
          (MultipleBackendTask.multipleBackendCompleteMPU "upload-1" body))
       (MultipleBackendTask.trace s) /\
    length body = length (MultipleBackendTask.ranges s).
Proof.
  intros sourceEntry body.
  destruct (MultipleBackendTask.run Samples.aws_site sourceEntry
              (MultipleBackendTask._sendInitiateMPU Samples.aws_site
                 MultipleBackendTask.init) Samples.part_succeeds)
    as [s|] eqn:Hrun; [|vm_compute in Hrun; discriminate].
  assert (Hin : In (MultipleBackendTask.Sent
                      (MultipleBackendTask.multipleBackendCompleteMPU
                         "upload-1" body))
                   (MultipleBackendTask.trace s)).
  { pose proof Hrun as Hs. vm_compute in Hs. injection Hs as Hs.
    rewrite <- Hs. vm_compute. tauto. }
  exists s. split; [reflexivity|]. split; [exact Hin|].
  exact (proj1 (proj2 (complete_mpu_body Samples.aws_site sourceEntry
                         Samples.part_succeeds s "upload-1" body Hrun Hin))).
Defined.



(** ** Facts about the metrics consumer *)

Section MetricsFacts.
Import Js Errors MetricsConsumer.

Variable crrExtension : string.
Variable ingestionExtension : string.
Variable crrRedisKeys : Object.
Variable ingestionRedisKeys : Object.



Lemma getRedisKeys_invalid (_id : string) :
  _id <> crrExtension -> _id <> ingestionExtension ->
  _getRedisKeys crrExtension ingestionExtension crrRedisKeys
    ingestionRedisKeys (VString _id)
  = inl (customizeDescription TInternalError
           (_id +:+ " is not a valid extension")).
Proof.
  intros Hc Hi. unfold _getRedisKeys. simpl.
  apply String.eqb_neq in Hc, Hi. rewrite Hc, Hi. reflexivity.
Qed.


Lemma increments_sendRequest (site : Value) (redisKeys : Object)
    (keyType : string) (value : Value) :
  increments (_sendRequest decrementKey site redisKeys keyType value) = [] /\
  increments (_sendRequest reportNewRequest site redisKeys keyType value)
  = [] /\
  decrements (_sendRequest incrementKey site redisKeys keyType value) = [] /\
  decrements (_sendRequest reportNewRequest site redisKeys keyType value)
  = [] /\
  increments (_sendRequest incrementKey site redisKeys keyType value)
  = decrements (_sendRequest decrementKey site redisKeys keyType value).
Proof.
  unfold _sendRequest. destruct (truthy _); repeat split; reflexivity.
Qed.


Lemma sendObjectLevelRequests_keys (data : Data) :
  match _getRedisKeys crrExtension ingestionExtension crrRedisKeys
          ingestionRedisKeys (extension data) with
  | inl err =>
      _sendObjectLevelRequests crrExtension ingestionExtension crrRedisKeys
        ingestionRedisKeys data = inl err
  | inr _ =>
      exists calls,
        _sendObjectLevelRequests crrExtension ingestionExtension crrRedisKeys
          ingestionRedisKeys data = inr calls /\
        increments calls = [] /\ decrements calls = []
  end.
Proof.
  unfold _sendObjectLevelRequests.
  destruct (_getRedisKeys _ _ _ _ _) as [err|keys]; [reflexivity|].
  destruct (is_string _ "completed");
    [|destruct (is_string _ "queued")];
    eexists; split; try reflexivity; split; reflexivity.
Qed.




End MetricsFacts.



(** X18. For the site-level metrics, the pending counters an entry of
    type queued adds to are the ones an entry of type completed or failed
    with the same site, ops and bytes takes from, with the same amounts;
    queued takes nothing from them, completed and failed add nothing to
    them, and an object-level entry touches none. *)
Theorem metrics_pending_balance (crrExtension ingestionExtension : string)
    (crrRedisKeys ingestionRedisKeys : Js.Object)
    (data : MetricsConsumer.Data) :
  let site_level t :=
    MetricsConsumer._sendSiteLevelRequests crrExtension ingestionExtension
      crrRedisKeys ingestionRedisKeys (MetricsConsumer.with_type t data) in
  MetricsConsumer.increments (site_level "queued")
  = MetricsConsumer.decrements (site_level "completed") /\
  MetricsConsumer.increments (site_level "queued")
  = MetricsConsumer.decrements (site_level "failed") /\
  MetricsConsumer.decrements (site_level "queued") = [] /\
  MetricsConsumer.increments (site_level "completed") = [] /\
  MetricsConsumer.increments (site_level "failed") = [] /\
  forall calls,
    MetricsConsumer._sendObjectLevelRequests crrExtension ingestionExtension
      crrRedisKeys ingestionRedisKeys data = inr calls ->
    MetricsConsumer.increments calls = [] /\
    MetricsConsumer.decrements calls = [].
Proof.
  intros site_level. subst site_level.
  unfold MetricsConsumer._sendSiteLevelRequests.
  change (MetricsConsumer.extension (MetricsConsumer.with_type ?t data))
    with (MetricsConsumer.extension data).
  pose proof (sendObjectLevelRequests_keys crrExtension ingestionExtension
                crrRedisKeys ingestionRedisKeys data) as Hobj.
  destruct (MetricsConsumer._getRedisKeys _ _ _ _ _) as [err|keys].
  { repeat split; try reflexivity; rewrite Hobj in H; discriminate. }
  cbn [MetricsConsumer.with_type MetricsConsumer.type MetricsConsumer.site
       MetricsConsumer.ops MetricsConsumer.bytes MetricsConsumer.is_string
       String.eqb Ascii.eqb Bool.eqb].
  unfold MetricsConsumer.increments, MetricsConsumer.decrements.
  rewrite !omap_app.
  pose proof (fun k v =>
                increments_sendRequest (MetricsConsumer.site data) keys k v)
    as Hreq.
  unfold MetricsConsumer.increments, MetricsConsumer.decrements in Hreq.
  destruct (Hreq "opsPending" (MetricsConsumer.ops data))
    as (Ho1 & _ & Ho3 & _ & Ho5).
  destruct (Hreq "bytesPending" (MetricsConsumer.bytes data))
    as (Hb1 & _ & Hb3 & _ & Hb5).
  destruct (Hreq "ops" (MetricsConsumer.ops data)) as (_ & Ha2 & _ & Ha4 & _).
  destruct (Hreq "bytes" (MetricsConsumer.bytes data))
    as (_ & Hc2 & _ & Hc4 & _).
  destruct (Hreq "opsDone" (MetricsConsumer.ops data))
    as (_ & Hd2 & _ & Hd4 & _).
  destruct (Hreq "bytesDone" (MetricsConsumer.bytes data))
    as (_ & He2 & _ & He4 & _).
  destruct (Hreq "opsFail" (MetricsConsumer.ops data))
    as (_ & Hf2 & _ & Hf4 & _).
  destruct (Hreq "bytesFail" (MetricsConsumer.bytes data))
    as (_ & Hg2 & _ & Hg4 & _).
  rewrite Ho1, Hb1, Ho3, Hb3, Ho5, Hb5, Ha2, Ha4, Hc2, Hc4, Hd2, Hd4, He2,
    He4, Hf2, Hf4, Hg2, Hg4.
  rewrite !app_nil_r.
  repeat (split; [reflexivity|]).
  intros calls Hcalls. destruct Hobj as (calls' & Heq & Hi & Hd).
  rewrite Heq in Hcalls. injection Hcalls as <-. split; assumption.
Qed.

(** ** Facts about replaying entries on the mirror *)

Section MirrorReplayFacts.
Import Js Errors Entry MongoQueueProcessor MirrorReplay.

Lemma mirror_all_snoc (entries : list QueueEntry) (e : QueueEntry)
    (db : Database) :
  mirror_all (entries ++ [e]) db
  = mongo_run (fst (processKafkaEntry e None)) (mirror_all entries db).
Proof. unfold mirror_all. rewrite fold_left_app. reflexivity. Qed.

Lemma mirror_one (e : QueueEntry) (db : Database) (bk : string * string) :
  mongo_run (fst (processKafkaEntry e None)) db !! bk
  = if touches bk e then written e else db !! bk.
Proof.
  unfold touches.
  destruct e as [|d|o| | |]; simpl; try reflexivity;
    try (rewrite bool_decide_eq_false_2 by discriminate; reflexivity).
  - destruct (decide ((del_getBucket d, del_getObjectVersionedKey d) = bk))
      as [<- | Hne].
    + rewrite bool_decide_eq_true_2 by reflexivity. apply lookup_delete_eq.
    + rewrite bool_decide_eq_false_2 by congruence.
      apply lookup_delete_ne. exact Hne.
  - destruct (decide ((getBucket o, getObjectVersionedKey o) = bk))
      as [<- | Hne].
    + rewrite bool_decide_eq_true_2 by reflexivity. apply lookup_insert_eq.
    + rewrite bool_decide_eq_false_2 by congruence.
      apply lookup_insert_ne. exact Hne.
Qed.

Lemma editLocation_again (e e' : ObjectQueueEntry) (location : Object) :
  getObjectKey e' = getObjectKey e -> getVersionId e' = getVersionId e ->
  getEncodedVersionId e' = getEncodedVersionId e ->
  editLocation e' (editLocation e location) = editLocation e location.
Proof.
  intros Hk Hv He. unfold editLocation, assign. rewrite Hk, Hv, He.
  rewrite (assoc_L (∪)), (idemp_L (∪)). reflexivity.
Qed.

Lemma set_again (i n : string) (l l' : list Object)
    (e : ObjectQueueEntry) :
  setOwnerId i (setOwnerDisplayName n (setLocation l'
    (setOwnerId i (setOwnerDisplayName n (setLocation l e)))))
  = setOwnerId i (setOwnerDisplayName n (setLocation l' e)).
Proof. reflexivity. Qed.

Lemma manipulated_fields (i n : string) (l : list Object)
    (e : ObjectQueueEntry) :
  let e' := setOwnerId i (setOwnerDisplayName n (setLocation l e)) in
  getLocation e' = l /\ getObjectKey e' = getObjectKey e /\
  getVersionId e' = getVersionId e /\
  getEncodedVersionId e' = getEncodedVersionId e.
Proof. repeat split. Qed.

End MirrorReplayFacts.

(** X19. When the mirror processes a list of entries in order, what the
    database holds under a bucket and key is decided by the last object or
    delete entry for that bucket and versioned key: the value of the object
    entry with its locations and owner rewritten, nothing after a delete
    entry, and what it held before when no entry names the key. Entries of
    other kinds and entries for other keys do not matter. *)
Theorem mirror_last_write_wins (entries : list Entry.QueueEntry)
    (db : MongoQueueProcessor.Database) (bk : string * string) :
  MirrorReplay.mirror_all entries db !! bk
  = match List.find (MirrorReplay.touches bk) (rev entries) with
    | Some e => MirrorReplay.written e
    | None => db !! bk
    end.
Proof.
  induction entries as [|e entries IH] using rev_ind; [reflexivity|].
  rewrite mirror_all_snoc, mirror_one, rev_app_distr. simpl.
  destruct (MirrorReplay.touches bk e); [reflexivity|exact IH].
Qed.

(** X20. Rewriting the locations and the owner of a value the mirror has
    already written changes nothing: the value put for an entry that is
    read back from the mirror is the value that was there. *)
Theorem mirror_manipulation_idempotent (e : Entry.ObjectQueueEntry) :
  let manipulate e :=
    MongoQueueProcessor._manipulateOwner
      (MongoQueueProcessor._manipulateLocation e) in
  manipulate (manipulate e) = manipulate e.
Proof.
  intros manipulate. subst manipulate.
  unfold MongoQueueProcessor._manipulateOwner,
    MongoQueueProcessor._manipulateLocation.
  rewrite set_again. do 3 f_equal.
  destruct (manipulated_fields
              "117d39428f838cb5ac64ffd998f27e44167047a46e6504057b50ed484ae6c5de"
              "felipe"
              (map (MongoQueueProcessor.editLocation e) (Entry.getLocation e))
              e) as (Hl & Hk & Hv & He).
  rewrite Hl, map_map. apply map_ext. intros location.
  apply editLocation_again; assumption.
Qed.

(** ** Facts about names and about a source that is gone *)

Section NameFacts.

Lemma append_inj (p a b : string) :
  (p +:+ a)%string = (p +:+ b)%string -> a = b.
Proof.
  induction p as [|c p IH]; simpl; intros H; [exact H|].
  injection H as H. exact (IH H).
Qed.

End NameFacts.

(** X21. For a given prefix the log entries keep bucket names apart: two
    bucket entries, or the buckets of two object entries, built with the
    same prefix are equal only for the same bucket name. Across prefixes
    they are not kept apart: a prefix and a bucket name that contains the
    separator can give the entry of another prefix and name. *)
Theorem raft_names_apart (usersBucket : string) (Metadata : Type)
    (JSON_stringify : Metadata -> string) :
  (forall bucketPrefix bucket bucket',
     RaftLogEntry.createPutBucketEntry usersBucket bucket bucketPrefix
     = RaftLogEntry.createPutBucketEntry usersBucket bucket' bucketPrefix ->
     bucket = bucket') /\
  (forall bucketPrefix (objectMd objectMd' : RaftLogEntry.ObjectMd Metadata),
     RaftLogEntry.bucket
       (RaftLogEntry.createPutEntry Metadata JSON_stringify objectMd
          bucketPrefix)
     = RaftLogEntry.bucket
         (RaftLogEntry.createPutEntry Metadata JSON_stringify objectMd'
            bucketPrefix) ->
     RaftLogEntry.bucketName Metadata objectMd
     = RaftLogEntry.bucketName Metadata objectMd') /\
  (exists bucketPrefix bucketPrefix' bucket bucket',
     bucketPrefix <> bucketPrefix' /\ bucket <> bucket' /\
     RaftLogEntry.createPutBucketEntry usersBucket bucket bucketPrefix
     = RaftLogEntry.createPutBucketEntry usersBucket bucket' bucketPrefix').
Proof.
  split; [|split].
  - intros p b b' H. injection H as H.
    apply append_inj in H. apply (append_inj "-") in H. exact H.
  - intros p md md' H. simpl in H.
    apply append_inj in H. apply (append_inj "-") in H. exact H.
  - exists "a", "a-b", "b-c", "c".
    split; [discriminate|]. split; [discriminate|reflexivity].
Qed.

(** X22. [_getReplicationEndpointType] throws a TypeError exactly when no
    endpoint of the bootstrap list has the task's site; otherwise it
    returns the type of an endpoint of the list that has the site. *)
Theorem endpoint_type_of_site (bootstrapList : list TaskFlow.Endpoint)
    (site : string) :
  (TaskFlow.endpointType bootstrapList site
   = MultipleBackendTask.Threw MultipleBackendTask.TypeError <->
   forall endpoint,
     In endpoint bootstrapList -> TaskFlow.ep_site endpoint <> site) /\
  (forall t,
     TaskFlow.endpointType bootstrapList site = MultipleBackendTask.Returned t ->
     exists endpoint,
       In endpoint bootstrapList /\ TaskFlow.ep_site endpoint = site /\
       TaskFlow.ep_type endpoint = t).
Proof.
  unfold TaskFlow.endpointType.
  destruct (List.find _ bootstrapList) as [endpoint|] eqn:Hfind.
  - apply List.find_some in Hfind. destruct Hfind as [Hin Hsite].
    apply String.eqb_eq in Hsite. split.
    + split; [discriminate|]. intros Hnone. exfalso.
      exact (Hnone endpoint Hin Hsite).
    + intros t Ht. injection Ht as <-. exists endpoint. auto.
  - split; [|discriminate]. split; [|reflexivity].
    intros _ endpoint Hin Hsite.
    pose proof (List.find_none _ _ Hfind endpoint Hin) as Hne.
    apply String.eqb_neq in Hne. exact (Hne Hsite).
Qed.

(** X23. When the read stream of the source ends with status 404 while a
    part is put, the part fails with ObjNotFound and is not tried again:
    for an entry that is not on NFS the task calls back at once (if it has
    not yet), and [_handleReplicationOutcome] skips the entry, publishing
    nothing. No abort-MPU is sent. *)
Theorem mpu_source_404_skipped (cfg : MultipleBackendTask.Config)
    (e : Entry.ObjectQueueEntry) (s : MultipleBackendTask.State)
    (uploadId : string) (n attempt : nat) (range : option Range)
    (err : Errors.Err) :
  Entry.getReplicationIsNFS e = false ->
  MultipleBackendTask.phase s = MultipleBackendTask.Uploading uploadId ->
  MultipleBackendTask.parts s !! n
  = Some (MultipleBackendTask.Putting attempt) ->
  MultipleBackendTask.ranges s !! n = Some range ->
  MultipleBackendTask.size_of range <> 0 ->
  MultipleBackendTask.called_back s = false ->
  Errors.statusCode err = Some 404 ->
  let answer :=
    MultipleBackendTask.Part_answer n
      (MultipleBackendTask.Source_stream_error err) in
  exists s' failure,
    MultipleBackendTask.step cfg e s answer = Some s' /\
    MultipleBackendTask.trace s'
    = MultipleBackendTask.trace s
      ++ [MultipleBackendTask.Received answer;
          MultipleBackendTask.Callback (Some failure)] /\
    MultipleBackendTask.parts s' !! n
    = Some (MultipleBackendTask.Failed (Errors.errors Errors.TObjNotFound)) /\
    MultipleBackendTask._handleReplicationOutcome (Some failure) e
    = ([], MultipleBackendTask.done_committable).
Proof.
  intros Hnfs Hup Hn Hr Hsize Hcb H404 answer. subst answer.
  unfold MultipleBackendTask.step. rewrite Hup, Hn, Hr.
  unfold MultipleBackendTask._putMPUPart.
  apply Z.eqb_neq in Hsize. rewrite Hsize.
  unfold MultipleBackendTask.on_incomingMsg_error. rewrite H404.
  cbn [mbind option_bind].
  change (MultipleBackendTask.retries cfg (Errors.errors Errors.TObjNotFound)
            attempt) with false.
  cbv iota.
  unfold MultipleBackendTask.deliver. rewrite Hnfs.
  unfold MultipleBackendTask.next. cbv beta iota zeta.
  change (MultipleBackendTask.called_back
            (MultipleBackendTask.set_part n
               (MultipleBackendTask.Failed (Errors.errors Errors.TObjNotFound))
               (MultipleBackendTask.emit
                  [MultipleBackendTask.Received
                     (MultipleBackendTask.Part_answer n
                        (MultipleBackendTask.Source_stream_error err))] s)))
    with (MultipleBackendTask.called_back s).
  rewrite Hcb.
  eexists. eexists. split; [reflexivity|].
  split; [simpl; rewrite <- app_assoc; reflexivity|].
  split; [|reflexivity].
  simpl. apply list_lookup_insert_eq. eapply lookup_lt_Some. exact Hn.
Qed.

Lemma mpu_source_404_skipped_witness :
  exists s' failure,
    MultipleBackendTask.step Samples.aws_site
      (Samples.object_entry 1 false Js.VUndefined [])
      MpuShape.one_part_uploading
      (MultipleBackendTask.Part_answer 0
         (MultipleBackendTask.Source_stream_error Samples.not_found_on_stream))
    = Some s' /\
    MultipleBackendTask.trace s'
    = MultipleBackendTask.trace MpuShape.one_part_uploading
      ++ [MultipleBackendTask.Received
            (MultipleBackendTask.Part_answer 0
               (MultipleBackendTask.Source_stream_error
                  Samples.not_found_on_stream));
          MultipleBackendTask.Callback (Some failure)] /\
    MultipleBackendTask.parts s' !! 0%nat
    = Some (MultipleBackendTask.Failed (Errors.errors Errors.TObjNotFound)) /\
    MultipleBackendTask._handleReplicationOutcome (Some failure)
      (Samples.object_entry 1 false Js.VUndefined [])
    = ([], MultipleBackendTask.done_committable).
Proof.
  apply (mpu_source_404_skipped Samples.aws_site
           (Samples.object_entry 1 false Js.VUndefined [])
           MpuShape.one_part_uploading "upload-1" 0 0
           (Some {| start := 0; end_ := 0 |}) Samples.not_found_on_stream);
    try (vm_compute; reflexivity).
  vm_compute. discriminate.
Defined.

(** X24. A run of the MPU sends init-MPU exactly once, and never for an
    Azure endpoint, whose upload id is made up locally; it sends
    complete-MPU at most once, and not while it waits for the answer of
    init-MPU or uploads the parts. *)
Theorem mpu_requests_once (cfg : MultipleBackendTask.Config)
    (sourceEntry : Entry.ObjectQueueEntry)
    (inputs : list MultipleBackendTask.Input)
    (s : MultipleBackendTask.State) :
  MultipleBackendTask.run cfg sourceEntry
    (MultipleBackendTask._sendInitiateMPU cfg MultipleBackendTask.init)
    inputs = Some s ->
  MpuShape.inits (MultipleBackendTask.trace s)
  = (if MultipleBackendTask.isAzure cfg then 0%nat else 1%nat) /\
  (MpuShape.completes (MultipleBackendTask.trace s) <= 1)%nat /\
  ((exists uploadId,
      MultipleBackendTask.phase s = MultipleBackendTask.Uploading uploadId) \/
   MultipleBackendTask.phase s = MultipleBackendTask.AwaitInit ->
   MpuShape.completes (MultipleBackendTask.trace s) = 0%nat).
Proof.
  intros Hrun. destruct (run_shape cfg sourceEntry inputs s Hrun)
    as (_ & HS & _).
  split; [exact (MpuShape.shape_inits _ _ HS)|].
  split; [exact (MpuShape.shape_completes _ _ HS)|].
  intros Hp. apply completes_none. exact (no_complete_before cfg s HS Hp).
Qed.

Lemma mpu_requests_once_witness :
  let sourceEntry := Samples.object_entry 1 false Js.VUndefined [] in
  exists s,
    MultipleBackendTask.run Samples.aws_site sourceEntry
      (MultipleBackendTask._sendInitiateMPU Samples.aws_site
         MultipleBackendTask.init) Samples.part_succeeds = Some s /\
    MpuShape.inits (MultipleBackendTask.trace s) = 1%nat /\
    (MpuShape.completes (MultipleBackendTask.trace s) <= 1)%nat.
Proof.
  intros sourceEntry. eexists. split; [vm_compute; reflexivity|].
  pose proof (mpu_requests_once Samples.aws_site sourceEntry
                Samples.part_succeeds _ ltac:(vm_compute; reflexivity))
    as (H1 & H2 & _).
  split; [exact H1|exact H2].
Defined.

(** X25. For an entry without part locations (a metadata-only
    operation) that is not on NFS, [_getAndPutData] sends put-object for
    the whole content length without publishing a metric of type queued,
    while the answer to that put-object publishes a metric of type
    completed for the same bytes. With part locations the metric of type
    queued comes first. *)
Theorem metadata_only_metrics (e : Entry.ObjectQueueEntry)
    (versionId : Js.Value) :
  Entry.getReplicationIsNFS e = false ->
  (forall part,
     In part (Entry.getLocation e) ->
     Js.is_undefined part "dataStoreETag" = false) ->
  let size := Js.VNumber (Entry.getContentLength e) in
  (Entry.getReducedLocations e = [] ->
   exists evs,
     MultipleBackendTask._getAndPutData e
     = (evs, MultipleBackendTask.Pending) /\
     In (MultipleBackendTask.Sent
           (MultipleBackendTask.multipleBackendPutObject None size)) evs /\
     (forall bytes,
        ~ In (MultipleBackendTask.Metrics
                (MultipleBackendTask.metricsTypeQueued bytes)) evs) /\
     In (MultipleBackendTask.Metrics
           (MultipleBackendTask.metricsTypeCompleted size))
        (fst (MultipleBackendTask._sendMultipleBackendPutObject_send size
                (Errors.Succeed versionId)))) /\
  (Entry.getReducedLocations e <> [] ->
   exists evs,
     fst (MultipleBackendTask._getAndPutData e)
     = MultipleBackendTask.Metrics
         (MultipleBackendTask.metricsTypeQueued (Entry.getContentLength e))
       :: evs).
Proof.
  intros Hnfs Hall size. subst size.
  assert (Hnone : existsb (fun part => Js.is_undefined part "dataStoreETag")
                    (Entry.getLocation e) = false).
  { apply not_true_is_false. intros H. apply existsb_undefined in H.
    destruct H as (part & Hin & Hm). rewrite (Hall part Hin) in Hm.
    discriminate. }
  unfold MultipleBackendTask._getAndPutData. rewrite Hnone. split.
  - intros ->. cbn [length Nat.eqb].
    unfold MultipleBackendTask._getAndPutPartOnce. rewrite Hnfs.
    eexists. split; [reflexivity|]. split; [|split].
    + apply in_or_app. right. left. reflexivity.
    + intros bytes Hin. apply in_app_or in Hin.
      destruct Hin as [Hin | [Hin | []]]; [|discriminate].
      destruct (MultipleBackendTask.not_zero _);
        [destruct Hin as [Hin | []]; discriminate|destruct Hin].
    + right. left. reflexivity.
  - intros Hne.
    destruct (Entry.getReducedLocations e) as [|part parts];
      [contradiction|].
    cbn [length Nat.eqb].
    destruct (MultipleBackendTask.start_parts e _) as [evs end_].
    exists evs. reflexivity.
Qed.

Lemma metadata_only_metrics_witness :
  let e := Samples.object_entry 2048 false Js.VUndefined [] in
  exists evs,
    MultipleBackendTask._getAndPutData e
    = (evs, MultipleBackendTask.Pending) /\
    forall bytes,
      ~ In (MultipleBackendTask.Metrics
              (MultipleBackendTask.metricsTypeQueued bytes)) evs.
Proof.
  intros e.
  destruct (metadata_only_metrics e Js.VUndefined) as [H _].
  - reflexivity.
  - intros part [].
  - destruct (H eq_refl) as (evs & Hd & _ & Hq & _).
    exists evs. split; [exact Hd|exact Hq].
Defined.

(** X26. Every put of an MPU part that a run sends is for a range of the
    planner: the request for the range at index [n] carries part number
    [n + 1] and, as content length, the size of that range. *)
Theorem mpu_part_requests (cfg : MultipleBackendTask.Config)
    (sourceEntry : Entry.ObjectQueueEntry)
    (inputs : list MultipleBackendTask.Input)
    (s : MultipleBackendTask.State) (partNumber : nat) (uploadId : string)
    (size : Z) :
  MultipleBackendTask.run cfg sourceEntry
    (MultipleBackendTask._sendInitiateMPU cfg MultipleBackendTask.init)
    inputs = Some s ->
  In (MultipleBackendTask.Sent
        (MultipleBackendTask.multipleBackendPutMPUPart partNumber uploadId
           size))
     (MultipleBackendTask.trace s) ->
  exists ranges n range,
    _getRanges (planner_fuel (Entry.getContentLength sourceEntry))
      (Entry.getContentLength sourceEntry) (MultipleBackendTask.isGCP cfg)
    = Some ranges /\
    ranges !! n = Some range /\
    partNumber = S n /\
    size = MultipleBackendTask.size_of range.
Proof.
  intros Hrun Hin. destruct (run_shape cfg sourceEntry inputs s Hrun)
    as (_ & HS & _).
  pose proof (planned_run cfg sourceEntry inputs _ s
                (Inv_sendInitiateMPU cfg sourceEntry)
                (or_introl eq_refl) Hrun) as Hpl.
  destruct (MpuShape.shape_requests _ _ HS partNumber uploadId size Hin)
    as (n & range & Hpn & _ & Hr & Hsz).
  destruct Hpl as [Hnil | Hplan].
  - rewrite Hnil, lookup_nil in Hr. discriminate.
  - exists (MultipleBackendTask.ranges s), n, range.
    repeat split; assumption.
Qed.

Lemma mpu_part_requests_witness :
  let sourceEntry := Samples.object_entry 1 false Js.VUndefined [] in
  exists s ranges n range,
    MultipleBackendTask.run Samples.aws_site sourceEntry
      (MultipleBackendTask._sendInitiateMPU Samples.aws_site
         MultipleBackendTask.init) Samples.part_is_put = Some s /\
    _getRanges (planner_fuel 1) 1 false = Some ranges /\
    ranges !! n = Some range /\
    1%nat = S n /\ 1 = MultipleBackendTask.size_of range.
Proof.
  intros sourceEntry.
  destruct (MultipleBackendTask.run Samples.aws_site sourceEntry
              (MultipleBackendTask._sendInitiateMPU Samples.aws_site
                 MultipleBackendTask.init) Samples.part_is_put)
    as [s|] eqn:Hrun; [|vm_compute in Hrun; discriminate].
  assert (Hin : In (MultipleBackendTask.Sent
                      (MultipleBackendTask.multipleBackendPutMPUPart 1
                         "upload-1" 1))
                   (MultipleBackendTask.trace s)).
  { pose proof Hrun as Hs. vm_compute in Hs. injection Hs as Hs.
    rewrite <- Hs. vm_compute. tauto. }
  destruct (mpu_part_requests Samples.aws_site sourceEntry
              Samples.part_is_put s 1 "upload-1" 1 Hrun Hin)
    as (ranges & n & range & H1 & H2 & H3 & H4).
  exists s, ranges, n, range. split; [reflexivity|].
  split; [exact H1|]. split; [exact H2|]. split; [exact H3|exact H4].
Defined.
